(** * tradleconf: stack lifecycle, bucket teardown and command dispatch

    A shallow embedding of the parts of [src/utils.ts] and [src/conf.ts]
    that manage CloudFormation stacks, destroy buckets, invoke functions
    and normalise their results, followed by the properties checked
    against them.

    Conventions.
    - JavaScript strings are [string]s; a character is one code unit.
    - JavaScript objects used as option bags are [gmap string value];
      JSON data and the own properties of error instances are association
      lists, whose order is the insertion order.
    - [async] code is run in a small state-and-exception monad; the state
      is the world the AWS clients talk to.  Loops that the source writes
      as [while (true)] take a fuel argument and answer [OutOfFuel] when
      it is used up.
    - The AWS SDK, [crypto], [JSON], the file system and the interactive
      prompts are not code of this repository: each is a parameter. *)

From Stdlib Require Import ZArith Lia Bool Ascii.
From stdpp Require Import base option strings list gmap pretty.

Local Open Scope string_scope.
Local Open Scope list_scope.
Set Warnings "-register-all".

(* ===================================================================== *)
(** ** JavaScript strings *)
(* ===================================================================== *)

Module Js.

(** [str.length] *)
Definition len (s : string) : Z := Z.of_nat (String.length s).

(** The first [n] code units of [s], and what is left after them. *)
Fixpoint take (n : nat) (s : string) : string :=
  match n, s with
  | S n', String c s' => String c (take n' s')
  | _, _ => ""
  end.

Fixpoint drop (n : nat) (s : string) : string :=
  match n, s with
  | S n', String _ s' => drop n' s'
  | _, _ => s
  end.

(** [str.slice(start, end)]: a negative index counts from the end, both
    indices are clamped to [0 .. str.length], and an empty range gives the
    empty string. *)
Definition clamp_index (l i : Z) : Z :=
  if (i <? 0)%Z then Z.max (l + i) 0 else Z.min i l.

Definition slice (s : string) (start stop : Z) : string :=
  let from := clamp_index (len s) start in
  let to := clamp_index (len s) stop in
  take (Z.to_nat (Z.max (to - from) 0)) (drop (Z.to_nat from) s).

(** [str.slice(start)] *)
Definition slice_from (s : string) (start : Z) : string :=
  slice s start (len s).

(** Is [p] what [s] begins with?  ([s.startsWith(p)] at position 0.) *)
Fixpoint startsWith (s p : string) {struct p} : bool :=
  match p, s with
  | "", _ => true
  | String a p', String b s' => if Ascii.eqb a b then startsWith s' p' else false
  | String _ _, "" => false
  end.

(** [s.endsWith(suffix)]: with [start = s.length - suffix.length], false
    when [start < 0], otherwise the code units from [start] on are compared
    with [suffix]. *)
Definition endsWith (s suffix : string) : bool :=
  let start := (len s - len suffix)%Z in
  if (start <? 0)%Z then false
  else String.eqb (drop (Z.to_nat start) s) suffix.

(** [s.includes(search)]: [search] occurs at some position of [s]. *)
Fixpoint includes (s search : string) : bool :=
  startsWith s search ||
  match s with
  | "" => false
  | String _ s' => includes s' search
  end.

(** [s.lastIndexOf(search)]: the greatest position at which [search]
    occurs in [s], or [-1].  The empty string occurs last at [s.length]. *)
Fixpoint lastIndexOf_nat (s search : string) : option nat :=
  match s with
  | "" => if startsWith "" search then Some 0 else None
  | String _ s' =>
      match lastIndexOf_nat s' search with
      | Some k => Some (S k)
      | None => if startsWith s search then Some 0 else None
      end
  end.

Definition lastIndexOf (s search : string) : Z :=
  match lastIndexOf_nat s search with
  | Some k => Z.of_nat k
  | None => (-1)%Z
  end.

(** Character classes of the regular expressions in the source. *)
Definition is_letter (c : ascii) : bool :=
  let n := nat_of_ascii c in
  ((65 <=? n)%nat && (n <=? 90)%nat) || ((97 <=? n)%nat && (n <=? 122)%nat).

(** The line terminators that [.] does not match. *)
Definition is_line_terminator (c : ascii) : bool :=
  let n := nat_of_ascii c in
  (n =? 10)%nat || (n =? 13)%nat.

Fixpoint all_chars (p : ascii -> bool) (s : string) : bool :=
  match s with
  | "" => true
  | String c s' => p c && all_chars p s'
  end.

(** [s.split(sep)] for a separator that is not empty.  [split_from] reads
    [s] from the left, [skip] being the number of characters of a
    separator just found that are still to be passed over; the head of its
    result is the part under way. *)
Definition push (c : ascii) (parts : list string) : list string :=
  match parts with
  | part :: rest => String c part :: rest
  | [] => [String c ""]
  end.

Fixpoint split_from (sep : string) (skip : nat) (s : string) : list string :=
  match s with
  | "" => [""]
  | String c s' =>
      match skip with
      | S k => split_from sep k s'
      | O =>
          if startsWith s sep
          then "" :: split_from sep (String.length sep - 1) s'
          else push c (split_from sep 0 s')
      end
  end.

(** [s.split(sep)]; with the empty separator, the characters of [s]. *)
Definition split (s sep : string) : list string :=
  match sep with
  | "" => List.map (fun c => String c "") (String.list_ascii_of_string s)
  | _ => split_from sep 0 s
  end.

(** [xs.join(sep)] on strings. *)
Definition join (sep : string) (xs : list string) : string := String.concat sep xs.

(** [A-Z] *)
Definition is_upper (c : ascii) : bool :=
  let n := nat_of_ascii c in (65 <=? n)%nat && (n <=? 90)%nat.

(** [s.split(/(?=[A-Z])/g)]: a cut before every capital letter but one at
    the start.  [split_before_upper] cuts before every capital letter. *)
Fixpoint split_before_upper (s : string) : list string :=
  match s with
  | "" => [""]
  | String c s' =>
      if is_upper c then "" :: push c (split_before_upper s')
      else push c (split_before_upper s')
  end.

Definition split_at_capitals (s : string) : list string :=
  match s with
  | "" => [""]
  | String c s' => push c (split_before_upper s')
  end.

End Js.

(* ===================================================================== *)
(** ** JavaScript values, objects and exceptions *)
(* ===================================================================== *)

(** JSON data and class instances.  [VObj cls props] is an object made by
    the constructor named [cls] ("Object" for a literal or parsed object)
    with own enumerable properties [props], in insertion order. *)
Inductive value :=
| VUndefined
| VNull
| VBool (b : bool)
| VNum (n : Z)
| VStr (s : string)
| VArr (xs : list value)
| VObj (cls : string) (props : list (string * value)).

(** An object on its own: what [throw] throws and [catch] catches.  Every
    [throw] of the source and of its libraries throws an object. *)
Record object := Obj { obj_class : string; obj_props : list (string * value) }.

Definition value_of (o : object) : value := VObj (obj_class o) (obj_props o).

(** [if (v)], [!v], [v && _], [v || _] *)
Definition truthy (v : value) : bool :=
  match v with
  | VUndefined | VNull => false
  | VBool b => b
  | VNum n => negb (n =? 0)%Z
  | VStr s => negb (String.eqb s "")
  | VArr _ | VObj _ _ => true
  end.

(** Property read [o.k] on an association list: [undefined] when absent. *)
Fixpoint get (k : string) (props : list (string * value)) : value :=
  match props with
  | [] => VUndefined
  | (k', v) :: rest => if String.eqb k k' then v else get k rest
  end.

(** Property write [o.k = v]: in place when the key exists, appended
    otherwise. *)
Fixpoint set (k : string) (v : value) (props : list (string * value))
  : list (string * value) :=
  match props with
  | [] => [(k, v)]
  | (k', v') :: rest =>
      if String.eqb k k' then (k, v) :: rest else (k', v') :: set k v rest
  end.

(** [_.extend(target, source)]: every property of [source] is written to
    [target], in order. *)
Definition extend (target source : list (string * value)) : list (string * value) :=
  fold_left (fun acc kv => set kv.1 kv.2 acc) source target.

(** Property read on a value; reading a property of a primitive gives
    [undefined] (the properties of strings and arrays that the source
    reads are handled where they are read). *)
Definition prop (k : string) (v : value) : value :=
  match v with
  | VObj _ props => get k props
  | _ => VUndefined
  end.

(** What a call to the outside world answers. *)
Inductive outcome (A : Type) :=
| Ok (a : A)
| Err (e : object).
Arguments Ok {A} a.
Arguments Err {A} e.

(** The language, run-time and library services the source relies on. *)
Class Platform := {
  (** [String(v)], as applied by [new Error(v)] and by template strings *)
  ToString : value -> string;
  (** [JSON.parse], which returns the parsed value or throws *)
  JSON_parse : string -> outcome value;
  (** [JSON.stringify(v)] as it ends up on the wire or in a file *)
  JSON_stringify : value -> string;
  (** [YAML.safeLoad], likewise *)
  YAML_safeLoad : string -> outcome value;
  (** [crypto.createHash('sha256').update(str).digest('hex')] *)
  sha256 : string -> string;
  (** [name in global] and [new global[name](name)]: [None] when [name]
      is no property of the global object, [Some None] when it is but
      constructing throws, [Some (Some o)] when it constructs [o]. *)
  global_new : value -> option (option object);
  (** [o instanceof Error] *)
  instanceof_Error : object -> bool;
  (** [ModelsPack.getNamespace(id)] and
      [ModelsPack.pack({ namespace, models, lenses })] of the package
      [@tradle/models-pack] *)
  ModelsPack_getNamespace : value -> value;
  ModelsPack_pack : value -> list value -> list value -> outcome value;
}.

(** [new Error(message)] and the errors of [./errors]. *)
Definition new_Error (message : string) : object :=
  Obj "Error" [("message", VStr message)].
Definition new_TypeError (message : string) : object :=
  Obj "TypeError" [("message", VStr message)].
Definition InvalidInput (message : string) : object :=
  Obj "InvalidInput" [("message", VStr message)].
Definition ServerError (message : string) : object :=
  Obj "ServerError" [("message", VStr message)].

(* ===================================================================== *)
(** ** Asynchronous code: state, exceptions and fuel *)
(* ===================================================================== *)

(** What running a piece of the program from a world gives. *)
Inductive completion (W A : Type) :=
| Returns (a : A) (w : W)
| Throws (e : object) (w : W)
| OutOfFuel.
Arguments Returns {W A} a w.
Arguments Throws {W A} e w.
Arguments OutOfFuel {W A}.

Definition M (W A : Type) : Type := W -> completion W A.

Definition resolve {W A} (a : A) : M W A := fun w => Returns a w.
Definition throw {W A} (e : object) : M W A := fun w => Throws e w.
Definition bind {W A B} (m : M W A) (k : A -> M W B) : M W B :=
  fun w =>
    match m w with
    | Returns a w' => k a w'
    | Throws e w' => Throws e w'
    | OutOfFuel => OutOfFuel
    end.

(** [try { m } catch (err) { handler(err) }] *)
Definition try_catch {W A} (m : M W A) (handler : object -> M W A) : M W A :=
  fun w =>
    match m w with
    | Returns a w' => Returns a w'
    | Throws e w' => handler e w'
    | OutOfFuel => OutOfFuel
    end.

(** Awaiting a call to the outside world. *)
Definition call {W A} (f : W -> outcome A * W) : M W A :=
  fun w =>
    match f w with
    | (Ok a, w') => Returns a w'
    | (Err e, w') => Throws e w'
    end.

(** A value or an exception that needs no world. *)
Definition lift {W A} (o : outcome A) : M W A :=
  match o with
  | Ok a => resolve a
  | Err e => throw e
  end.

Notation "'let*' x ':=' m 'in' k" := (bind m (fun x => k))
  (at level 10, x pattern, m at level 100, k at level 200).
Notation "m1 ';;' m2" := (bind m1 (fun _ => m2))
  (at level 100, m2 at level 200, right associativity).

(** [await Promise.all(xs.map(f))], the calls run one after the other in
    the order of [xs]. *)
Fixpoint mapM {W A B} (f : A -> M W B) (xs : list A) : M W (list B) :=
  match xs with
  | [] => resolve []
  | x :: rest =>
      let* y := f x in
      let* ys := mapM f rest in
      resolve (y :: ys)
  end.

(* ===================================================================== *)
(** ** The AWS clients *)
(* ===================================================================== *)

Module Aws.

Record StackResourceSummary := {
  LogicalResourceId : string;
  PhysicalResourceId : string;
  ResourceType : string;
}.

Record ListStackResourcesInput := {
  lsr_StackName : string;
  lsr_NextToken : option string;
}.

Record ListStackResourcesOutput := {
  StackResourceSummaries : list StackResourceSummary;
  lsr_out_NextToken : option string;
}.

Record StackSummary := {
  StackId : string;
  StackName : string;
  StackStatus : string;
}.

Record ListStacksInput := {
  StackStatusFilter : list string;
  ls_NextToken : option string;
}.

Record ListStacksOutput := {
  StackSummaries : list StackSummary;
  ls_out_NextToken : option string;
}.

Record DeleteStackInput := {
  ds_StackName : string;
}.

(** [AWS.CloudFormation]: each method, followed by [.promise()], answers
    from the world [W] and changes it. *)
Record CloudFormation (W : Type) := {
  config_region : string;
  api_listStackResources :
    ListStackResourcesInput -> W -> outcome ListStackResourcesOutput * W;
  api_listStacks : ListStacksInput -> W -> outcome ListStacksOutput * W;
  api_getTemplate : string -> W -> outcome string * W;
  api_deleteStack : DeleteStackInput -> W -> outcome unit * W;
  api_waitFor : string -> string -> W -> outcome unit * W;
}.
Arguments config_region {W}.
Arguments api_listStackResources {W}.
Arguments api_listStacks {W}.
Arguments api_getTemplate {W}.
Arguments api_deleteStack {W}.
Arguments api_waitFor {W}.

(** [AWS.S3] *)
Record S3 (W : Type) := {
  api_deleteBucket : string -> W -> outcome unit * W;
}.
Arguments api_deleteBucket {W}.

(** [AWS.Lambda] *)
Record InvocationRequest := {
  InvocationType : string;
  FunctionName : string;
  req_Payload : string;
}.

Record InvocationResponse := {
  StatusCode : Z;
  Payload : option string;
  FunctionError : option string;
}.

Record Lambda (W : Type) := {
  api_invoke : InvocationRequest -> W -> outcome InvocationResponse * W;
}.
Arguments api_invoke {W}.

(** A continuation or payload field, [undefined] or a string, used as a
    condition. *)
Definition present (t : option string) : bool :=
  match t with
  | Some s => negb (String.eqb s "")
  | None => false
  end.

(** The other methods of the same [AWS.CloudFormation] client that the
    source calls. *)
Record Output := {
  OutputKey : string;
  OutputValue : string;
}.

Record Stack := {
  Outputs : list Output;
}.

(** [CreateStackInput] and [UpdateStackInput]: the name, which the source
    reads, and the rest, which it passes on. *)
Record StackInput := {
  si_StackName : string;
  si_rest : list (string * value);
}.

Record StackOperations (W : Type) := {
  api_describeStacks : string -> W -> outcome (list Stack) * W;
  api_createStack : StackInput -> W -> outcome unit * W;
  api_updateStack : StackInput -> W -> outcome unit * W;
}.
Arguments api_describeStacks {W}.
Arguments api_createStack {W}.
Arguments api_updateStack {W}.

End Aws.

(** [setTimeout], as seen through [wait]. *)
Class Timers (W : Type) := {
  setTimeout : Z -> W -> W;
}.

(** [fs.existsSync] and [path.resolve], [process.version], and
    [String.prototype.toUpperCase]. *)
Class FileSystem := {
  fs_existsSync : string -> bool;
  path_resolve : string -> string -> string;
}.

Class NodeProcess := {
  process_version : string;
}.

Class Casing := {
  toUpperCase : string -> string;
}.

(** The command lists of [constants.ts]. *)
Module Constants.

Definition SAFE_REMOTE_COMMANDS : list string :=
  ["log"; "tail"; "update"; "list-previous-versions"; "load"].

Definition REMOTE_ONLY_COMMANDS : list string :=
  ["log"; "tail"; "update"; "list-previous-versions"].

End Constants.

(* ===================================================================== *)
(** ** src/utils.ts *)
(* ===================================================================== *)

Module Utils.
Import Aws.

Section WithWorld.
Context {W : Type} `{Platform} `{Timers W}.

Definition acceptAll {A} (item : A) : bool := true.

(** [wait = millis => new Promise(resolve => setTimeout(resolve, millis))] *)
Definition wait (millis : Z) : M W unit :=
  fun w => Returns tt (setTimeout millis w).

(** *** Paginated listings *)

(** The body of [while (true)] in [listStackResources]; [opts] and
    [resources] are the loop's variables. *)
Fixpoint listStackResources_loop (fuel : nat) (cloudformation : CloudFormation W)
    (filter : StackResourceSummary -> bool)
    (opts : ListStackResourcesInput) (resources : list StackResourceSummary)
  : M W (list StackResourceSummary) :=
  match fuel with
  | O => fun _ => OutOfFuel
  | S fuel' =>
      let* out := call (api_listStackResources cloudformation opts) in
      let resources := resources ++ List.filter filter (StackResourceSummaries out) in
      let opts := {| lsr_StackName := lsr_StackName opts;
                     lsr_NextToken := lsr_out_NextToken out |} in
      if negb (present (lsr_NextToken opts)) then resolve resources
      else listStackResources_loop fuel' cloudformation filter opts resources
  end.

Definition listStackResources (fuel : nat) (cloudformation : CloudFormation W)
    (StackName : string) (filter : StackResourceSummary -> bool)
  : M W (list StackResourceSummary) :=
  listStackResources_loop fuel cloudformation filter
    {| lsr_StackName := StackName; lsr_NextToken := None |} [].

Definition listStackResourcesByType (fuel : nat) (type : string)
    (cloudformation : CloudFormation W) (stackName : string) :=
  listStackResources fuel cloudformation stackName
    (fun r => String.eqb type (ResourceType r)).

Definition listSubstacks (fuel : nat) (cloudformation : CloudFormation W)
    (stackName : string) :=
  listStackResourcesByType fuel "AWS::CloudFormation::Stack" cloudformation stackName.

(** The [{ id, name }] objects [listStacks] returns. *)
Record StackInfo := { id : string; name : string }.

Definition listStacksOpts_initial : ListStacksInput :=
  {| StackStatusFilter := ["CREATE_COMPLETE"; "UPDATE_COMPLETE"; "UPDATE_ROLLBACK_COMPLETE"];
     ls_NextToken := None |}.

(** The body of [while (keepGoing)] in [listStacks], entered with
    [keepGoing] true. *)
Fixpoint listStacks_loop (fuel : nat) (cloudformation : CloudFormation W)
    (filter : StackSummary -> bool)
    (listStacksOpts : ListStacksInput) (stackInfos : list StackInfo)
  : M W (list StackInfo) :=
  match fuel with
  | O => fun _ => OutOfFuel
  | S fuel' =>
      let* out := call (api_listStacks cloudformation listStacksOpts) in
      let stackInfos :=
        stackInfos ++
        List.map (fun s => {| id := StackId s; name := StackName s |})
                 (List.filter filter (StackSummaries out)) in
      let listStacksOpts :=
        {| StackStatusFilter := StackStatusFilter listStacksOpts;
           ls_NextToken := ls_out_NextToken out |} in
      let keepGoing := present (ls_out_NextToken out) in
      if keepGoing then listStacks_loop fuel' cloudformation filter listStacksOpts stackInfos
      else resolve stackInfos
  end.

Definition listStacks (fuel : nat) (cloudformation : CloudFormation W)
    (filter : StackSummary -> bool) : M W (list StackInfo) :=
  listStacks_loop fuel cloudformation filter listStacksOpts_initial [].

(** *** Resolving a stack name *)

Definition isUpdateableStatus (status : string) : bool :=
  Js.endsWith status "_COMPLETE" && negb (Js.startsWith status "DELETE_").

(** [stacks[0] && stacks[0].id]: [None] stands for [undefined]. *)
Definition getStackId (fuel : nat) (cloudformation : CloudFormation W)
    (stackName : string) : M W (option string) :=
  let* stacks :=
    listStacks fuel cloudformation
      (fun s => String.eqb (StackName s) stackName && isUpdateableStatus (StackStatus s)) in
  resolve (match stacks with
       | [] => None
       | s :: _ => Some (id s)
       end).

(** *** Templates, through nested stacks *)

Definition is_whitespace (c : ascii) : bool :=
  let n := nat_of_ascii c in
  ((9 <=? n)%nat && (n <=? 13)%nat) || (n =? 32)%nat || (n =? 160)%nat.

Fixpoint trimStart (s : string) : string :=
  match s with
  | String c s' => if is_whitespace c then trimStart s' else s
  | "" => ""
  end.

Fixpoint trimEnd (s : string) : string :=
  match s with
  | String c s' =>
      let t := trimEnd s' in
      if is_whitespace c && String.eqb t "" then "" else String c t
  | "" => ""
  end.

Definition trim (s : string) : string := trimEnd (trimStart s).

Definition getStackTemplate (cloudformation : CloudFormation W) (stackId : string)
  : M W value :=
  let* TemplateBody := call (api_getTemplate cloudformation stackId) in
  if Js.startsWith (trim TemplateBody) "{" then lift (JSON_parse TemplateBody)
  else lift (YAML_safeLoad TemplateBody).

(** The one [fuel] bounds the depth of the recursion and, at each stack,
    the number of pages of its listing. *)
Fixpoint getStackTemplates (fuel : nat) (cloudformation : CloudFormation W)
    (stackId : string) : M W (list value) :=
  match fuel with
  | O => fun _ => OutOfFuel
  | S fuel' =>
      let* main := getStackTemplate cloudformation stackId in
      let* nested := listSubstacks fuel cloudformation stackId in
      if (List.length nested =? 0)%nat then resolve [main]
      else
        let* nestedTemplates :=
          mapM (fun n => getStackTemplates fuel' cloudformation (PhysicalResourceId n))
               nested in
        resolve ([main] ++ List.concat nestedTemplates)
  end.

(** *** Deleting a stack *)

Definition getConsoleLinkForStacksInRegion (region status : string) : string :=
  "https://" +:+ region +:+ ".console.aws.amazon.com/cloudformation/home?region="
  +:+ region +:+ "#/stacks?filter=" +:+ status.

Definition waitFor (cloudformation : CloudFormation W) (stackName event : string)
  : M W unit :=
  try_catch (call (api_waitFor cloudformation event stackName))
    (fun err =>
       let url := getConsoleLinkForStacksInRegion (config_region cloudformation) "failed" in
       throw (ServerError ("operation may have failed. Check your stacks here: " +:+ url))).

Definition awaitStackDelete (cloudformation : CloudFormation W) (stackName : string) :=
  waitFor cloudformation stackName "stackDeleteComplete".

Definition CLEANUP_IN_PROGRESS : string := "UPDATE_ROLLBACK_COMPLETE_CLEANUP_IN_PROGRESS".

(** [err.message.includes(search)]: a string is searched for the
    substring, an array for the element, and anything else has no
    [includes] to call. *)
Definition message_includes (err : object) (search : string) : outcome bool :=
  match get "message" (obj_props err) with
  | VStr m => Ok (Js.includes m search)
  | VArr xs =>
      Ok (existsb (fun x => match x with VStr s => String.eqb s search | _ => false end) xs)
  | _ => Err (new_TypeError "err.message.includes is not a function")
  end.

(** The [while (true)] of [deleteStack]; it is left by [break] or by a
    rethrown error. *)
Fixpoint deleteStack_loop (fuel : nat) (cloudformation : CloudFormation W)
    (params : DeleteStackInput) : M W unit :=
  match fuel with
  | O => fun _ => OutOfFuel
  | S fuel' =>
      try_catch (call (api_deleteStack cloudformation params))
        (fun err =>
           let* conflict := lift (message_includes err CLEANUP_IN_PROGRESS) in
           if negb conflict then throw err
           else
             (* back off, try again *)
             wait 5000 ;;
             deleteStack_loop fuel' cloudformation params)
  end.

(** [deleteStack] returns the waiter, an [async] function still to be
    called. *)
Definition deleteStack (fuel : nat) (cloudformation : CloudFormation W)
    (params : DeleteStackInput) : M W (M W unit) :=
  deleteStack_loop fuel cloudformation params ;;
  resolve (wait 5000 ;; awaitStackDelete cloudformation (ds_StackName params)).

(** *** Resources by type *)

Definition listStackResourceIdsByType (fuel : nat) (type : string)
    (cloudformation : CloudFormation W) (stackName : string) : M W (list string) :=
  let* resources := listStackResourcesByType fuel type cloudformation stackName in
  resolve (List.map PhysicalResourceId resources).

Definition listStackTables (fuel : nat) (cloudformation : CloudFormation W)
    (stackName : string) :=
  listStackResourcesByType fuel "AWS::Dynamodb::Table" cloudformation stackName.

Definition listStackTableIds (fuel : nat) (cloudformation : CloudFormation W)
    (stackName : string) :=
  listStackResourceIdsByType fuel "AWS::DynamoDB::Table" cloudformation stackName.

(** *** Stack information *)

(** [Stacks[0]]: [None] is [undefined]. *)
Definition getStackInfo (stacks : StackOperations W) (stackId : string)
  : M W (option Stack) :=
  let* Stacks := call (api_describeStacks stacks stackId) in
  resolve (List.head Stacks).

Definition getStackOutputs (stacks : StackOperations W) (stackId : string)
  : M W (list Output) :=
  let* info := getStackInfo stacks stackId in
  match info with
  | Some stack => resolve (Outputs stack)
  | None => throw (new_TypeError "Cannot destructure property 'Outputs' of undefined")
  end.

(** A [CloudResource]. *)
Record CloudResource := {
  cr_type : string;
  cr_name : string;
  cr_value : string;
}.

(** [OutputKey.match(/(Bucket|Table|Key)$/)], then [match[1].toLowerCase()]:
    the three endings exclude one another. *)
Definition output_type (OutputKey : string) : option string :=
  if Js.endsWith OutputKey "Bucket" then Some "bucket"
  else if Js.endsWith OutputKey "Table" then Some "table"
  else if Js.endsWith OutputKey "Key" then Some "key"
  else None.

(** [outputs.map(...)] leaves [undefined] where there is no match, and
    [.filter(_.identity)] drops it. *)
Definition listOutputResources (stacks : StackOperations W) (stackId : string)
  : M W (list CloudResource) :=
  let* outputs := getStackOutputs stacks stackId in
  resolve
    (List.concat
       (List.map (fun o =>
                    match output_type (OutputKey o) with
                    | Some type => [ {| cr_type := type; cr_name := OutputKey o;
                                        cr_value := OutputValue o |} ]
                    | None => []
                    end) outputs)).

Definition getApiBaseUrl (stacks : StackOperations W) (StackName : string)
  : M W string :=
  let* Stacks := call (api_describeStacks stacks StackName) in
  match List.head Stacks with
  | None => throw (new_TypeError "Cannot destructure property 'Outputs' of undefined")
  | Some stack =>
      match List.find (fun x => Js.startsWith (OutputKey x) "ServiceEndpoint")
                      (Outputs stack) with
      | Some endpoint => resolve (OutputValue endpoint)
      | None => throw (new_TypeError "Cannot read property 'OutputValue' of undefined")
      end
  end.

(** *** Creating and updating a stack *)

Definition awaitStackCreate (cloudformation : CloudFormation W) (stackName : string) :=
  waitFor cloudformation stackName "stackCreateComplete".

Definition awaitStackUpdate (cloudformation : CloudFormation W) (stackName : string) :=
  waitFor cloudformation stackName "stackUpdateComplete".

Definition createStack (cloudformation : CloudFormation W) (stacks : StackOperations W)
    (params : StackInput) : M W (M W unit) :=
  call (api_createStack stacks params) ;;
  resolve (wait 5000 ;; awaitStackCreate cloudformation (si_StackName params)).

Definition updateStack (cloudformation : CloudFormation W) (stacks : StackOperations W)
    (params : StackInput) : M W (M W unit) :=
  call (api_updateStack stacks params) ;;
  resolve (wait 5000 ;; awaitStackUpdate cloudformation (si_StackName params)).

(** [f(opts).then(wait => wait())] *)
Definition createStackAndWait (cloudformation : CloudFormation W)
    (stacks : StackOperations W) (params : StackInput) : M W unit :=
  let* wait := createStack cloudformation stacks params in wait.

Definition updateStackAndWait (cloudformation : CloudFormation W)
    (stacks : StackOperations W) (params : StackInput) : M W unit :=
  let* wait := updateStack cloudformation stacks params in wait.

Definition deleteStackAndWait (fuel : nat) (cloudformation : CloudFormation W)
    (params : DeleteStackInput) : M W unit :=
  let* wait := deleteStack fuel cloudformation params in wait.

(** *** Destroying a bucket *)

(** [Errors.ignore(err, types)] of the package [@tradle/errors]: returns
    when [err] matches one of [types], rethrows [err] otherwise.  A type
    given as an object matches when [err] holds each of its properties;
    the types used here hold strings. *)
Definition Errors_matches (err : object) (type : list (string * string)) : bool :=
  forallb (fun kv => match get kv.1 (obj_props err) with
                     | VStr s => String.eqb s kv.2
                     | _ => false
                     end) type.

Definition Errors_ignore (err : object) (types : list (list (string * string)))
  : M W unit :=
  if existsb (Errors_matches err) types then resolve tt else throw err.

(** [emptyBucket] of [./empty-bucket] is not among the sources: it is a
    parameter of [destroyBucket]. *)
Variable emptyBucket : S3 W -> string -> M W unit.

Definition destroyBucket (s3 : S3 W) (Bucket : string) : M W unit :=
  emptyBucket s3 Bucket ;;
  try_catch (call (api_deleteBucket s3 Bucket))
    (fun err =>
       Errors_ignore err [ [("code", "ResourceNotFoundException")];
                           [("code", "NoSuchBucket")] ]).

End WithWorld.

Section Pure.
Context `{Platform}.

(** *** Packing models *)

(** [s] between double quotes. *)
Definition quoted (s : string) : string :=
  let dq := String (ascii_of_nat 34) "" in dq +:+ s +:+ dq.

(** [xs[0]] *)
Definition first (xs : list value) : value :=
  match xs with
  | x :: _ => x
  | [] => VUndefined
  end.

Definition getNamespace (models lenses : list value) : value :=
  let model := if truthy (first models) then first models else first lenses in
  if truthy model then ModelsPack_getNamespace (prop "id" model) else model.

Definition pack (namespace : value) (models lenses : list value) : outcome value :=
  if negb (negb (List.length models =? 0)%nat || negb (List.length lenses =? 0)%nat) then
    Err (InvalidInput ("expected " +:+ quoted "models" +:+ " and/or " +:+ quoted "lenses"))
  else
    let namespace := if negb (truthy namespace) then getNamespace models lenses
                     else namespace in
    ModelsPack_pack namespace models lenses.

(** *** The name of the services stack *)

Definition shortenString (str : string) (maxLength : Z) : outcome string :=
  let tooLongBy := (Js.len str - maxLength)%Z in
  if (tooLongBy <=? 0)%Z then Ok str
  else if (Js.len str <? 6)%Z then Err (new_Error ("string is too short: " +:+ str))
  else Ok (Js.slice str 0 (maxLength - 6) +:+ Js.slice (sha256 str) 0 6).

(** [MY_CLOUD_STACK_NAME_REGEX = /^tdl-(.*?)-ltd-([a-zA-Z]+)$/].

    [regex_tail] matches [-ltd-([a-zA-Z]+)$] against what is left of the
    name and gives the second group.  [regex_lazy] is the lazy group
    [(.*?)]: it tries the tail at the current position first and takes one
    more character, which may not be a line terminator, only when the tail
    fails; it gives both groups. *)
Definition regex_tail (rest : string) : option string :=
  if Js.startsWith rest "-ltd-" then
    let stage := Js.drop 5 rest in
    if negb (String.eqb stage "") && Js.all_chars Js.is_letter stage
    then Some stage else None
  else None.

Fixpoint regex_lazy (rest : string) : option (string * string) :=
  match regex_tail rest with
  | Some stage => Some ("", stage)
  | None =>
      match rest with
      | "" => None
      | String c rest' =>
          if Js.is_line_terminator c then None
          else match regex_lazy rest' with
               | Some (org, stage) => Some (String c org, stage)
               | None => None
               end
      end
  end.

(** [name.match(MY_CLOUD_STACK_NAME_REGEX)], without the whole match:
    [None] is [null]. *)
Definition MY_CLOUD_STACK_NAME_REGEX_match (name : string) : option (string * string) :=
  if Js.startsWith name "tdl-" then regex_lazy (Js.drop 4 name) else None.

Definition isMyCloudStackName (name : string) : bool :=
  match MY_CLOUD_STACK_NAME_REGEX_match name with
  | Some _ => true
  | None => false
  end.

(** Gives [(shortName, stage)]; [null.slice] throws. *)
Definition parseMyCloudStackName (name : string) : outcome (string * string) :=
  match MY_CLOUD_STACK_NAME_REGEX_match name with
  | Some groups => Ok groups
  | None => Err (new_TypeError "Cannot read property 'slice' of null")
  end.

Definition getServicesStackName (stackName : string) : outcome string :=
  match parseMyCloudStackName stackName with
  | Err e => Err e
  | Ok (shortName, _) =>
      match shortenString shortName 14 with
      | Err e => Err e
      | Ok shorterName => Ok (shorterName +:+ "-srvcs") (* max length 20 chars *)
      end
  end.

(** *** Errors that crossed the wire *)

(** The enumerable properties [_.extend] and the spread copy from a
    source: the properties of an object, the elements of an array and the
    characters of a string under their indices, nothing for the rest. *)
Definition enumerable (v : value) : list (string * value) :=
  match v with
  | VObj _ props => props
  | VArr xs => imap (fun i x => (pretty i, x)) xs
  | VStr s => imap (fun i c => (pretty i, VStr (String c ""))) (String.list_ascii_of_string s)
  | _ => []
  end.

Definition normalizeError (err : value) : object :=
  let rebuilt :=
    let name := prop "name" err in
    let message :=
      match prop "message" err with
      | VUndefined => VStr "unspecified"
      | m => m
      end in
    let normalized :=
      if truthy name then
        match global_new name with
        | Some (Some o) => Some o
        | Some None (* the constructor threw *) => None
        | None => None
        end
      else None in
    let normalized :=
      match normalized with
      | Some o => o
      | None => new_Error (ToString message)
      end in
    Obj (obj_class normalized) (extend (obj_props normalized) (enumerable err)) in
  match err with
  | VObj cls props => if instanceof_Error (Obj cls props) then Obj cls props else rebuilt
  | _ => rebuilt
  end.

(** [unwrapReturnValue] calls itself on [ret.result]; [fuel] bounds the
    depth of the envelopes it goes through. *)
Fixpoint unwrapReturnValue {W} (fuel : nat) (ret : value) : M W value :=
  match fuel with
  | O => fun _ => OutOfFuel
  | S fuel' =>
      match ret with
      | VUndefined | VNull =>
          throw (new_TypeError "Cannot destructure property 'error' of 'ret'")
      | _ =>
          let error := prop "error" ret in
          let result := prop "result" ret in
          if truthy error then
            resolve (VObj "Object"
                   (set "error" (value_of (normalizeError error)) (enumerable ret)))
          else if truthy result
                  && (truthy (prop "error" result) || truthy (prop "result" result))
          then unwrapReturnValue fuel' result
          else resolve ret
      end
  end.

(** *** Strings *)

Definition splitCamelCase (str : string) : list string := Js.split_at_capitals str.

Definition splitOnCharAtIdx (str : string) (idx : Z) : string * string :=
  (Js.slice str 0 idx, Js.slice_from str (idx + 1)).

(** [xs.slice(n)] and [xs[i]] on arrays. *)
Definition Array_slice_from {A} (n : nat) (xs : list A) : list A := List.skipn n xs.

(** What [parseStackArn] returns; [None] is [undefined]. *)
Record StackArn := {
  arn_region : option string;
  arn_accountId : option string;
  arn_stackName : option string;
}.

Definition parseStackArn (arn : string) : outcome StackArn :=
  let parts := Array_slice_from 3 (Js.split arn ":") in
  let region := List.nth_error parts 0 in
  let accountId := List.nth_error parts 1 in
  match List.nth_error parts 2 with
  | None => Err (new_TypeError "Cannot read property 'split' of undefined")
  | Some more =>
      let names := Array_slice_from 1 (Js.split more "/") in
      Ok {| arn_region := region; arn_accountId := accountId;
            arn_stackName := List.nth_error names 0 |}
  end.

(** [capFirst]: [str[0]] is [undefined] when [str] is empty. *)
Definition capFirst `{Casing} (str : string) : outcome string :=
  match str with
  | "" => Err (new_TypeError "Cannot read property 'toUpperCase' of undefined")
  | String c _ => Ok (toUpperCase (String c "") +:+ Js.slice_from str 1)
  end.

(** [parts.map((part, i) => i === 0 ? part : capFirst(part))] *)
Fixpoint capitalize_rest `{Casing} (first : bool) (parts : list string)
  : outcome (list string) :=
  match parts with
  | [] => Ok []
  | part :: rest =>
      match (if first then Ok part else capFirst part) with
      | Err e => Err e
      | Ok part' =>
          match capitalize_rest false rest with
          | Err e => Err e
          | Ok rest' => Ok (part' :: rest')
          end
      end
  end.

Definition toCamelCase `{Casing} (str delimiter : string) : outcome string :=
  let parts := List.filter (fun part => negb (String.eqb part "")) (Js.split str delimiter) in
  match capitalize_rest true parts with
  | Err e => Err e
  | Ok parts' => Ok (Js.join "" parts')
  end.

(** [xor]: the reducer returns nothing. *)
Definition xor (args : list value) : value :=
  fold_left (fun acc next => VUndefined) args (VBool false).

(** *** Local or remote *)

Definition isValidProjectPath `{FileSystem} (project : string) : bool :=
  fs_existsSync (path_resolve project "serverless.yml").

(** The options of a configuration that [isLocal] reads; [None] is
    [undefined].  [co_others] holds the options it does not read. *)
Record ConfOpts := {
  co_local : option bool;
  co_remote : option bool;
  co_project : option string;
  co_others : list (string * value);
}.

Definition isLocal `{FileSystem} (opts : ConfOpts) : outcome bool :=
  let local := default false (co_local opts) in
  let remote := default false (co_remote opts) in
  if local && remote then
    Err (InvalidInput ("expected " +:+ quoted "local" +:+ " or " +:+ quoted "remote"
                       +:+ " but not both"))
  else if local then
    if negb (present (co_project opts)) then
      Err (InvalidInput ("expected " +:+ quoted "project"
                         +:+ ", the path to your local serverless project"))
    else if negb (isValidProjectPath (default "" (co_project opts))) then
      Err (InvalidInput ("expected " +:+ quoted "project"
                         +:+ " to point to serverless project dir"))
    else Ok true
  else
    match co_remote opts with
    | Some remote => Ok (negb remote)
    | None => Ok (present (co_project opts))
    end.

Definition normalizeConfOpts `{FileSystem} (opts : ConfOpts) : outcome ConfOpts :=
  match isLocal opts with
  | Err e => Err e
  | Ok local =>
      Ok {| co_local := Some local; co_remote := Some (negb local);
            co_project := co_project opts; co_others := co_others opts |}
  end.

(** *** Node flags *)

(** [Number(s)] for a string of at most one character: a digit is its
    value, the empty string and white space are 0, and anything else is
    [NaN], here [None]. *)
Definition Number_of_char (s : string) : option Z :=
  match s with
  | "" => Some 0%Z
  | String c _ =>
      let n := nat_of_ascii c in
      if (48 <=? n)%nat && (n <=? 57)%nat then Some (Z.of_nat (n - 48))
      else if is_whitespace c then Some 0%Z
      else None
  end.

(** [flags.k], [undefined] when absent *)
Definition flag (k : string) (flags : gmap string value) : value :=
  default VUndefined (flags !! k).

(** [normalizeNodeFlags] changes [flags] in place; here it returns them. *)
Definition normalizeNodeFlags `{NodeProcess} (flags : gmap string value)
  : gmap string value :=
  if negb (truthy (flag "inspect" flags) || truthy (flag "inspect-brk" flags)
           || truthy (flag "debug" flags) || truthy (flag "debug-brk" flags))
  then flags
  else
    let nodeVersion := Number_of_char (Js.slice process_version 1 2) in
    let at_least_8 := match nodeVersion with
                      | Some n => (8 <=? n)%Z
                      | None => false
                      end in
    if at_least_8 then
      let flags :=
        if truthy (flag "debug" flags)
        then <["inspect" := VBool true]> (delete "debug" flags)
        else flags in
      if truthy (flag "debug-brk" flags)
      then <["inspect-brk" := VBool true]> (delete "debug-brk" flags)
      else flags
    else
      if truthy (flag "debug" flags) || truthy (flag "debug-brk" flags)
      then <["inspect" := VBool true]> flags
      else flags.

(** *** Commands *)

(** [xs.includes(x)] on an array of strings. *)
Definition Array_includes (xs : list string) (x : string) : bool :=
  existsb (String.eqb x) xs.

Definition isRemoteOnlyCommand (commandName : string) : bool :=
  Array_includes Constants.REMOTE_ONLY_COMMANDS commandName.

Definition isSafeRemoteCommand (commandName : string) : bool :=
  Array_includes Constants.SAFE_REMOTE_COMMANDS commandName.

End Pure.

End Utils.

(* ===================================================================== *)
(** ** src/conf.ts *)
(* ===================================================================== *)

(** The prompts of [./prompts] and [confirmOrAbort]. *)
Class Prompts (W : Type) := {
  promptFn : string -> W -> outcome string * W;
  confirmOrAbort : string -> W -> outcome unit * W;
}.

(** One run of the local emulator: the two temporary files, the [sls
    invoke local] process and the reading of the output file. *)
Record LocalInvocation := {
  li_project : string;
  li_flags : string;
  li_functionName : string;
  li_input : string;
}.

Record LocalRun := {
  code : Z;
  stderr : string;
  output : string;
}.

Class Shell (W : Type) := {
  sls_invoke_local : LocalInvocation -> W -> outcome LocalRun * W;
}.

(** The files under [./conf], [./models] and [./lenses]. *)
Class ConfFiles (W : Type) := {
  read_style : W -> outcome value * W;
  read_terms : W -> outcome value * W;
  read_models : W -> outcome (list value) * W;
  read_lenses : W -> outcome (list value) * W;
  read_bot : W -> outcome value * W;
}.

Module Conf.
Import Aws.

Definition getLongFunctionName (stackName functionName : string) : string :=
  (* in case it's already expanded *)
  if (Js.lastIndexOf functionName stackName =? 0)%Z then functionName
  else stackName +:+ "-" +:+ functionName.

Definition DEPLOYABLES : list string :=
  ["bot"; "style"; "models"; "modelsPack"; "terms"].

(** [_.pick(opts, DEPLOYABLES)] *)
Definition getDeployables (opts : gmap string value) : gmap string value :=
  filter (fun kv => kv.1 ∈ DEPLOYABLES) opts.

Definition DEPLOY_ALL_OPTS : gmap string value :=
  fold_left (fun obj prop => <[prop := VBool true]> obj) DEPLOYABLES ∅.

(** [_.isEmpty] *)
Definition isEmpty (v : value) : bool :=
  match v with
  | VArr xs => (List.length xs =? 0)%nat
  | VStr s => String.eqb s ""
  | VObj _ props => (List.length props =? 0)%nat
  | _ => true
  end.

(** [opts.k], [undefined] when absent *)
Definition opt (k : string) (opts : gmap string value) : value :=
  default VUndefined (opts !! k).

Section Normalize.
Context `{Platform}.

(** [xs.join(sep)]: [null] and [undefined] elements give the empty
    string. *)
Definition Array_join (sep : string) (xs : list value) : string :=
  String.concat sep
    (List.map (fun x => match x with
                        | VUndefined | VNull => ""
                        | _ => ToString x
                        end) xs).

Definition normalizeDeployOpts (opts : gmap string value) (command : string)
  : outcome (gmap string value) :=
  if negb (isEmpty (opt "args" opts)) then
    match opt "args" opts with
    | VArr args => Err (InvalidInput ("unknown arguments: " +:+ Array_join " " args))
    | _ => Err (new_TypeError "opts.args.join is not a function")
    end
  else
    let all := truthy (opt "all" opts) || (size (getDeployables opts) =? 0)%nat in
    if all then Ok (opts ∪ DEPLOY_ALL_OPTS)
    else if (size (getDeployables opts) =? 0)%nat then
      Err (InvalidInput ("you didn't indicate anything to " +:+ command +:+ "!"))
    else Ok opts.

End Normalize.

Record InvokeOpts := {
  functionName : option string;
  arg : option value;
  local : option bool;
  noWarning : bool;
}.

(** What [invoke] returns: an object that has the key [error] or the key
    [result]; [None] is an absent key. *)
Record Envelope := {
  error : option object;
  result : option value;
}.

Section WithWorld.
Context {W : Type} `{Platform} `{Prompts W} `{Shell W} `{ConfFiles W}.

(** The fields of a [Conf] that the modelled methods read. *)
Record t := {
  stackName : option string;
  namespace : value;
  this_local : option bool;
  remote : bool;
  project : string;
  nodeFlags : list (string * bool);
  client_lambda : Lambda W;
}.

(** [this.getLongFunctionName]; an [undefined] stack name reads
    "undefined" in both places it is used. *)
Definition this_getLongFunctionName (this : t) (functionName : string) : string :=
  getLongFunctionName (default "undefined" (stackName this)) functionName.

Definition _ensureStackNameKnown (this : t) : M W unit :=
  if remote this && negb (present (stackName this)) then
    throw (InvalidInput "hm...are you sure you're in the right directory?")
  else resolve tt.

Definition _invoke (this : t) (opts : InvokeOpts) : M W value :=
  (* confirm if remote was not explicitly specified *)
  (if negb (remote this || noWarning opts)
   then call (confirmOrAbort "Targeting REMOTE deployment. Continue?")
   else resolve tt) ;;
  _ensureStackNameKnown this ;;
  let* FunctionName :=
    match functionName opts with
    | Some f => resolve (this_getLongFunctionName this f)
    | None => throw (new_TypeError "Cannot read property 'lastIndexOf' of undefined")
    end in
  let* response :=
    call (api_invoke (client_lambda this)
            {| InvocationType := "RequestResponse";
               FunctionName := FunctionName;
               req_Payload := JSON_stringify (default (VObj "Object" []) (arg opts)) |}) in
  if present (FunctionError response) || (300 <=? StatusCode response)%Z then
    let message := if present (Payload response) then Payload response
                   else FunctionError response in
    match message with
    | Some m => throw (new_Error m)
    | None => throw (new_TypeError "Cannot read property 'toString' of undefined")
    end
  else
    match Payload response with
    | Some p => lift (JSON_parse p)
    | None => throw (new_TypeError "Cannot read property 'toString' of undefined")
    end.

Definition flagsStr (nodeFlags : list (string * bool)) : string :=
  String.concat " "
    (List.map (fun kv => "--" +:+ kv.1) (List.filter (fun kv => kv.2) nodeFlags)).

Definition _invokeLocal (this : t) (opts : InvokeOpts) : M W value :=
  let arg :=
    match arg opts with
    | Some (VStr s) => VStr s
    | Some v => VStr (JSON_stringify v)
    | None => VUndefined
    end in
  let* run :=
    call (sls_invoke_local
            {| li_project := project this;
               li_flags := flagsStr (nodeFlags this);
               li_functionName := default "undefined" (functionName opts);
               li_input := JSON_stringify arg |}) in
  let res := Utils.trim (output run) in
  if negb (code run =? 0)%Z then
    throw (new_Error ("invoke failed: " +:+
                      (if negb (String.eqb res "") then res else stderr run)))
  else if String.eqb res "" then resolve (VStr res)
  else lift (JSON_parse res).

Definition invoke (this : t) (opts : InvokeOpts) : M W Envelope :=
  let local := match local opts with
               | Some b => Some b
               | None => this_local this
               end in
  (* the name that is asked for is bound to a variable of [invoke] that
     nothing reads afterwards: the two invocations are given [opts] *)
  (if negb (present (functionName opts))
   then (call (promptFn "which function?") ;; resolve tt)
   else resolve tt) ;;
  try_catch
    (let promise := if default false local then _invokeLocal this opts
                    else _invoke this opts in
     let* result := promise in
     resolve {| error := None; result := Some result |})
    (fun error => resolve {| error := Some error; result := None |}).

Definition invokeAndReturn (this : t) (opts : InvokeOpts) : M W value :=
  let* envelope := invoke this opts in
  match error envelope with
  | Some error => throw error
  | None => resolve (default VUndefined (result envelope))
  end.

(** [exec]: the envelope of [invoke], then the envelope the [cli]
    function itself returns. *)
Definition exec (this : t) (arg0 : option value) (noWarning : bool) : M W value :=
  let* res := invoke this {| functionName := Some "cli"; arg := arg0;
                             local := None; noWarning := noWarning |} in
  match error res with
  | Some error => throw (Utils.normalizeError (value_of error))
  | None =>
      match default VUndefined (result res) with
      | VUndefined | VNull =>
          throw (new_TypeError "Cannot destructure property 'error' of 'result'")
      | inner =>
          if truthy (prop "error" inner)
          then throw (Utils.normalizeError (prop "error" inner))
          else resolve (prop "result" inner)
      end
  end.

Definition getDeployItems (this : t) (opts : gmap string value)
  : M W (list (string * value)) :=
  let* opts := lift (normalizeDeployOpts opts "deploy") in
  let parts := [] in
  let* parts :=
    if truthy (opt "style" opts) then
      let* style := call read_style in resolve (set "style" style parts)
    else resolve parts in
  let* parts :=
    if truthy (opt "terms" opts) then
      (* "null" for delete *)
      let* terms := call read_terms in
      resolve (set "terms" (if truthy terms then terms else VNull) parts)
    else resolve parts in
  let* parts :=
    if truthy (opt "models" opts) then
      let* models := call read_models in
      let* lenses := call read_lenses in
      if negb (List.length models =? 0)%nat || negb (List.length lenses =? 0)%nat then
        let* modelsPack := lift (Utils.pack (namespace this) models lenses) in
        resolve (set "modelsPack" modelsPack parts)
      else resolve parts
    else resolve parts in
  let* parts :=
    if truthy (opt "bot" opts) then
      let* bot := call read_bot in resolve (set "bot" bot parts)
    else resolve parts in
  resolve parts.

Definition deploy (this : t) (opts : gmap string value) : M W value :=
  let* items := getDeployItems this opts in
  if truthy (opt "dryRun" opts) then resolve VUndefined
  else
    let* envelope := invoke this {| functionName := Some "setconf";
                                    arg := Some (VObj "Object" items);
                                    local := None; noWarning := false |} in
    match error envelope with
    | Some error => throw error
    | None => resolve (default VUndefined (result envelope))
    end.

(** *** Guards and the commands behind them *)

Definition _ensureRemote (this : t) (strict : bool) : M W unit :=
  if default false (this_local this) then
    throw (InvalidInput "not supported for local dev env")
  else if strict && negb (remote this) then
    throw (InvalidInput "please specify -r, --remote or -l, --local to indicate whether you're targeting your remote or local deployment")
  else resolve tt.

Definition requestUpdate (this : t) (tag provider : option string) : M W unit :=
  if negb (present tag) then
    throw (InvalidInput ("expected string " +:+ Utils.quoted "tag"))
  else
    _ensureRemote this false ;;
    let command := "getupdate --tag " +:+ Utils.quoted (default "" tag) in
    let command := if present provider
                   then command +:+ " --provider " +:+ default "" provider
                   else command in
    exec this (Some (VStr command)) true ;;
    resolve tt.

Definition getUpdateInfo (this : t) (tag : string) : M W value :=
  _ensureRemote this false ;;
  let* result := exec this (Some (VStr ("getupdateinfo --tag " +:+ Utils.quoted tag))) true in
  match result with
  | VUndefined | VNull =>
      throw (new_TypeError "Cannot read property 'update' of undefined")
  | _ =>
      if negb (truthy (prop "update" result)) then
        throw (Obj "NotFound" [("message", VStr ("not found: update with version: " +:+ tag))])
      else resolve result
  end.

End WithWorld.

Section Constructor.
Context `{FileSystem} `{NodeProcess}.

(** The options the constructor checks, and the fields it sets from
    them; [None] is [undefined]. *)
Record ConstructorOpts := {
  given_local : option bool;
  given_remote : option bool;
  given_project : option string;
  given_nodeFlags : option (gmap string value);
}.

Record Constructed := {
  new_local : option bool;
  new_remote : bool;
  new_project : option string;
  new_nodeFlags : gmap string value;
}.

Definition constructor (opts : ConstructorOpts) : outcome Constructed :=
  let local := default false (given_local opts) in
  let remote := default false (given_remote opts) in
  let project := given_project opts in
  let nodeFlags := default ∅ (given_nodeFlags opts) in
  if local && remote then
    Err (InvalidInput ("expected " +:+ Utils.quoted "local" +:+ " or "
                       +:+ Utils.quoted "remote" +:+ " but not both"))
  else if local && negb (present project) then
    Err (InvalidInput ("expected " +:+ Utils.quoted "project"
                       +:+ ", the path to your local serverless project"))
  else if local && negb (Utils.isValidProjectPath (default "" project)) then
    Err (InvalidInput ("expected " +:+ Utils.quoted "project"
                       +:+ " to point to serverless project dir"))
  else
    let nodeFlags := Utils.normalizeNodeFlags nodeFlags in
    if remote && negb (size nodeFlags =? 0)%nat then
      Err (InvalidInput "node debugging flags are only supported for local operations")
    else
      Ok {| new_local := given_local opts;
            new_remote := remote || negb (present project);
            new_project := project;
            new_nodeFlags := nodeFlags |}.

End Constructor.

End Conf.

(* ===================================================================== *)
(** ** The profiles of [prompts.ts] *)
(* ===================================================================== *)

(** [fs.readFileSync] of the file [~/.aws/credentials]. *)
Class CredentialsFile := {
  read_credentials : outcome string;
}.

Module Profiles.

(** The end of [PROFILE_REGEX], any characters captured and then "]" at
    the end of the line, from the start of [rest]: everything before a
    last "]", when it holds no line terminator. *)
Definition regex_capture (rest : string) : option string :=
  if Js.endsWith rest "]" then
    let captured := Js.take (String.length rest - 1) rest in
    if Js.all_chars (fun c => negb (Js.is_line_terminator c)) captured
    then Some captured
    else None
  else None.

(** The optional group of [PROFILE_REGEX], as few characters that are
    not white space as possible and then one that is, from the start of
    [s]: it ends at the first white space; what is left after it. *)
Fixpoint after_first_space (s : string) : option string :=
  match s with
  | "" => None
  | String c s' => if Utils.is_whitespace c then Some s' else after_first_space s'
  end.

(** [line.match(PROFILE_REGEX)[1]]; [None] when there is no match.  The
    expression is "[" at the start, the optional group, the captured
    characters, and "]" at the end.  The optional group is tried first,
    and given up when what follows it does not match. *)
Definition PROFILE_REGEX_match (line : string) : option string :=
  match line with
  | String "[" content =>
      match after_first_space content with
      | Some rest =>
          match regex_capture rest with
          | Some name => Some name
          | None => regex_capture content
          end
      | None => regex_capture content
      end
  | _ => None
  end.

Definition getProfileName (line : string) : outcome string :=
  match PROFILE_REGEX_match line with
  | Some name => Ok name
  | None => Err (new_TypeError "Cannot read property '1' of null")
  end.

(** [lines.map(getProfileName)]: the first line without a match throws. *)
Fixpoint getProfileNames (lines : list string) : outcome (list string) :=
  match lines with
  | [] => Ok []
  | line :: rest =>
      match getProfileName line with
      | Err e => Err e
      | Ok name =>
          match getProfileNames rest with
          | Err e => Err e
          | Ok names => Ok (name :: names)
          end
      end
  end.

(** [parseConf(conf).profiles] *)
Definition parseConf (conf : string) : outcome (list string) :=
  getProfileNames
    (List.filter (fun s => Js.startsWith s "[")
                 (Js.split conf (String (ascii_of_nat 10) ""))).

Definition getProfiles `{CredentialsFile} : outcome (list string) :=
  match read_credentials with
  | Err err => Ok ["default"]
  | Ok conf =>
      match parseConf conf with
      | Err e => Err e
      | Ok profiles =>
          Ok (if Utils.Array_includes profiles "default" then profiles
              else ["default"] ++ profiles)
      end
  end.

End Profiles.

(* ===================================================================== *)
(** ** Backends and a platform to run the code on *)
(* ===================================================================== *)

Module Scenario.
Import Aws.

(** *** A platform *)

(** [String(v)] on data; objects print as plain objects do. *)
Fixpoint ToString_data (v : value) : string :=
  match v with
  | VUndefined => "undefined"
  | VNull => "null"
  | VBool true => "true"
  | VBool false => "false"
  | VNum n => pretty n
  | VStr s => s
  | VArr xs =>
      String.concat ","
        (List.map (fun x => match x with
                            | VUndefined | VNull => ""
                            | _ => ToString_data x
                            end) xs)
  | VObj _ _ => "[object Object]"
  end.

(** [JSON.stringify] on data, without escapes in strings. *)
Fixpoint stringify (v : value) : string :=
  match v with
  | VUndefined => "undefined"
  | VNull => "null"
  | VBool true => "true"
  | VBool false => "false"
  | VNum n => pretty n
  | VStr s => Utils.quoted s
  | VArr xs => "[" +:+ String.concat "," (List.map stringify xs) +:+ "]"
  | VObj _ props =>
      "{" +:+
      String.concat ","
        (List.map (fun kv => Utils.quoted kv.1 +:+ ":" +:+ stringify kv.2) props)
      +:+ "}"
  end.

(** [JSON.parse] on the few documents the examples receive; it refuses
    any other. *)
Definition parse (s : string) : outcome value :=
  if String.eqb s "{}" then Ok (VObj "Object" [])
  else if String.eqb s "[]" then Ok (VArr [])
  else if String.eqb s "null" then Ok VNull
  else if String.eqb s "true" then Ok (VBool true)
  else if String.eqb s "false" then Ok (VBool false)
  else Err (Obj "SyntaxError" [("message", VStr ("Unexpected token in JSON: " +:+ s))]).

(** The constructors of the global object that make errors, two of its
    properties that construct nothing, and no others. *)
Definition ERROR_CONSTRUCTORS : list string :=
  ["Error"; "EvalError"; "RangeError"; "ReferenceError"; "SyntaxError";
   "TypeError"; "URIError"].

Definition NOT_CONSTRUCTORS : list string := ["console"; "process"; "Symbol"].

(** The error classes of [./errors]; they extend [Error] and are not
    properties of the global object. *)
Definition CUSTOM_ERRORS : list string :=
  ["InvalidInput"; "InvalidEnvironment"; "ServerError"; "NotFound"; "UserAborted"].

Definition elem (s : string) (l : list string) : bool := existsb (String.eqb s) l.

Definition global_lookup (name : value) : option (option object) :=
  match name with
  | VStr s =>
      if elem s ERROR_CONSTRUCTORS then Some (Some (Obj s [("message", VStr s)]))
      else if elem s NOT_CONSTRUCTORS then Some None
      else None
  | _ => None
  end.

(** [id.slice(0, id.lastIndexOf('.'))] *)
Definition namespace_of (id : value) : value :=
  match id with
  | VStr s => VStr (Js.slice s 0 (Js.lastIndexOf s "."))
  | _ => VUndefined
  end.

(** A table in place of SHA-256: the digest of the one long name the
    examples shorten and, for any other string, the digest of the empty
    string. *)
Definition digest (s : string) : string :=
  if String.eqb s "international-widgets"
  then "4befc48246782ca82ed0f01186e145e562d687c1b908e6a669345a5b7a46ef12"
  else "e3b0c44298fc1c149afbf4c8996fb92427ae41e4649b934ca495991b7852b855".

(** The platform of the examples.  Its YAML reader takes the document
    for a plain scalar. *)
Definition node : Platform := {|
  ToString := ToString_data;
  JSON_parse := parse;
  JSON_stringify := stringify;
  YAML_safeLoad := fun s => Ok (VStr s);
  sha256 := digest;
  global_new := global_lookup;
  instanceof_Error := fun o => elem (obj_class o) (ERROR_CONSTRUCTORS ++ CUSTOM_ERRORS);
  ModelsPack_getNamespace := namespace_of;
  ModelsPack_pack := fun namespace models lenses =>
    Ok (VObj "Object" [("namespace", namespace); ("models", VArr models);
                       ("lenses", VArr lenses)]);
|}.

(** *** Errors of the SDK *)

(** The SDK rejects with [AWSError]s: errors with a code and a message. *)
Record AWSError := { aws_code : string; aws_message : string }.

Definition error_of (e : AWSError) : object :=
  Obj "Error" [("message", VStr (aws_message e)); ("code", VStr (aws_code e))].

Definition unavailable {W A} : W -> outcome A * W :=
  fun w => (Err (new_Error "not available"), w).

(** A CloudFormation client none of whose methods is available. *)
Definition offline {W} (region : string) : CloudFormation W := {|
  config_region := region;
  api_listStackResources := fun _ => unavailable;
  api_listStacks := fun _ => unavailable;
  api_getTemplate := fun _ => unavailable;
  api_deleteStack := fun _ => unavailable;
  api_waitFor := fun _ _ => unavailable;
|}.

(** *** Listings served page by page *)

(** The world of a listing is the list of the requests received so far;
    the next request is answered with the next page, whatever its token. *)
Definition serve {I O} (pages : list O) (input : I) (w : list I) : outcome O * list I :=
  match nth_error pages (List.length w) with
  | Some page => (Ok page, w ++ [input])
  | None => (Err (new_Error "no more pages"), w ++ [input])
  end.

Definition resource_pages (pages : list ListStackResourcesOutput)
  : CloudFormation (list ListStackResourcesInput) := {|
  config_region := "us-east-1";
  api_listStackResources := serve pages;
  api_listStacks := fun _ => unavailable;
  api_getTemplate := fun _ => unavailable;
  api_deleteStack := fun _ => unavailable;
  api_waitFor := fun _ _ => unavailable;
|}.

Definition stack_pages (pages : list ListStacksOutput)
  : CloudFormation (list ListStacksInput) := {|
  config_region := "us-east-1";
  api_listStackResources := fun _ => unavailable;
  api_listStacks := serve pages;
  api_getTemplate := fun _ => unavailable;
  api_deleteStack := fun _ => unavailable;
  api_waitFor := fun _ _ => unavailable;
|}.

(** *** A delete call answered from a script *)

Inductive event :=
| DeleteStackCalled (params : DeleteStackInput)
| TimeoutSet (millis : Z)
| WaitForCalled (waiter stackName : string).

Definition delete_calls (log : list event) : nat :=
  List.length (List.filter (fun ev => match ev with
                                      | DeleteStackCalled _ => true
                                      | _ => false
                                      end) log).

(** The [n]-th delete call ([n] from 0) is answered by [responses n]:
    [None] is success.  The world is the log of what happened. *)
Definition scripted_delete (responses : nat -> option AWSError)
  : CloudFormation (list event) := {|
  config_region := "us-east-1";
  api_listStackResources := fun _ => unavailable;
  api_listStacks := fun _ => unavailable;
  api_getTemplate := fun _ => unavailable;
  api_deleteStack := fun params log =>
    (match responses (delete_calls log) with
     | None => Ok tt
     | Some e => Err (error_of e)
     end, log ++ [DeleteStackCalled params]);
  api_waitFor := fun waiter stackName log =>
    (Ok tt, log ++ [WaitForCalled waiter stackName]);
|}.

Definition logged_timers : Timers (list event) := {|
  setTimeout := fun millis log => log ++ [TimeoutSet millis];
|}.

(** *** Nested stacks *)

(** A client without state: every stack has the template ["{}"] and, on
    one page, the nested stacks that [children] gives it. *)
Definition nested_stack (physicalId : string) : StackResourceSummary := {|
  LogicalResourceId := physicalId;
  PhysicalResourceId := physicalId;
  ResourceType := "AWS::CloudFormation::Stack";
|}.

Definition nesting (children : string -> list string) : CloudFormation unit := {|
  config_region := "us-east-1";
  api_listStackResources := fun input w =>
    (Ok {| StackResourceSummaries := List.map nested_stack (children (lsr_StackName input));
           lsr_out_NextToken := None |}, w);
  api_listStacks := fun _ => unavailable;
  api_getTemplate := fun _ w => (Ok "{}", w);
  api_deleteStack := fun _ => unavailable;
  api_waitFor := fun _ _ => unavailable;
|}.

(** A stack that is its own nested stack. *)
Definition cyclic : CloudFormation unit := nesting (fun stackId => [stackId]).

(** A chain: the stack named by [n] letters has one nested stack, named
    by [n - 1] letters, and the stack with the empty name has none. *)
Definition chain : CloudFormation unit :=
  nesting (fun stackId => match stackId with
                          | "" => []
                          | String _ rest => [rest]
                          end).

Fixpoint chain_name (depth : nat) : string :=
  match depth with
  | O => ""
  | S d => String "s" (chain_name d)
  end.

(** *** Buckets *)

Inductive bucket_event :=
| Emptied (Bucket : string)
| DeleteBucketCalled (Bucket : string).

(** An S3 client whose [deleteBucket] answers [response]. *)
Definition scripted_s3 (response : option AWSError) : S3 (list bucket_event) := {|
  api_deleteBucket := fun Bucket log =>
    (match response with
     | None => Ok tt
     | Some e => Err (error_of e)
     end, log ++ [DeleteBucketCalled Bucket]);
|}.

(** An instance of the parameter [emptyBucket], for the examples: it logs
    the call and answers [response].  What [./empty-bucket] does is not
    among the sources, and nothing here says what it does. *)
Definition scripted_emptyBucket (response : option AWSError)
  : S3 (list bucket_event) -> string -> M (list bucket_event) unit :=
  fun _ Bucket log =>
    match response with
    | None => Returns tt (log ++ [Emptied Bucket])
    | Some e => Throws (error_of e) (log ++ [Emptied Bucket])
    end.


(** *** Example data *)

(** One page of stacks of one name. *)
Definition acme_stacks : list ListStacksOutput :=
  [ {| StackSummaries :=
         [ {| StackId := "stack/1"; StackName := "tdl-acme-ltd-dev";
              StackStatus := "DELETE_COMPLETE" |};
           {| StackId := "stack/2"; StackName := "tdl-acme-ltd-dev";
              StackStatus := "UPDATE_ROLLBACK_COMPLETE_CLEANUP_IN_PROGRESS" |};
           {| StackId := "stack/3"; StackName := "tdl-acme-ltd-dev";
              StackStatus := "UPDATE_COMPLETE" |} ];
       ls_out_NextToken := None |} ].

(** Three pages of resources; the last has no token. *)
Definition resource (logicalId type : string) : StackResourceSummary := {|
  LogicalResourceId := logicalId;
  PhysicalResourceId := "phys-" +:+ logicalId;
  ResourceType := type;
|}.

Definition page_1 : ListStackResourcesOutput := {|
  StackResourceSummaries := [resource "Logs" "AWS::S3::Bucket";
                             resource "Api" "AWS::Lambda::Function"];
  lsr_out_NextToken := Some "token-1";
|}.

Definition page_2 : ListStackResourcesOutput := {|
  StackResourceSummaries := [resource "Objects" "AWS::S3::Bucket"];
  lsr_out_NextToken := Some "token-2";
|}.

Definition page_3 : ListStackResourcesOutput := {|
  StackResourceSummaries := [resource "Events" "AWS::DynamoDB::Table";
                             resource "Secrets" "AWS::S3::Bucket"];
  lsr_out_NextToken := None;
|}.

Definition is_bucket (r : StackResourceSummary) : bool :=
  String.eqb "AWS::S3::Bucket" (ResourceType r).

(** The conflict met twice, then success; and an error that is no
    conflict. *)
Definition cleanup_conflict : AWSError := {|
  aws_code := "ValidationError";
  aws_message := "Stack tdl-acme-ltd-dev is in UPDATE_ROLLBACK_COMPLETE_CLEANUP_IN_PROGRESS state and can not be deleted.";
|}.

Definition access_denied : AWSError := {|
  aws_code := "AccessDenied";
  aws_message := "User is not authorized to perform: cloudformation:DeleteStack";
|}.

Definition conflict_twice (n : nat) : option AWSError :=
  if (n <? 2)%nat then Some cleanup_conflict else None.

Definition denied_at_once (n : nat) : option AWSError := Some access_denied.

Definition acme : DeleteStackInput := {| ds_StackName := "tdl-acme-ltd-dev" |}.

(** Envelopes as the [cli] function sends them. *)
Definition not_found_error : value :=
  VObj "Object" [("name", VStr "NotFound"); ("message", VStr "no such user")].

Definition range_error : value :=
  VObj "Object" [("name", VStr "RangeError"); ("message", VStr "too big")].

Definition failed_envelope : value :=
  VObj "Object" [("result", VObj "Object" [("error", not_found_error)])].

(** *** A configuration to invoke and deploy from *)

Inductive conf_event :=
| LambdaInvoked (request : InvocationRequest)
| ConfirmAsked (message : string)
| FunctionAsked (message : string)
| LocalRan (invocation : LocalInvocation)
| FileRead (path : string).

(** A Lambda client that answers every invocation with [response]. *)
Definition scripted_lambda (response : outcome InvocationResponse)
  : Lambda (list conf_event) := {|
  api_invoke := fun request log => (response, log ++ [LambdaInvoked request]);
|}.

(** A user who confirms, and one who declines. *)
Definition confirming : Prompts (list conf_event) := {|
  promptFn := fun message log => (Ok "cli", log ++ [FunctionAsked message]);
  confirmOrAbort := fun message log => (Ok tt, log ++ [ConfirmAsked message]);
|}.

Definition declining : Prompts (list conf_event) := {|
  promptFn := fun message log => (Ok "cli", log ++ [FunctionAsked message]);
  confirmOrAbort := fun message log =>
    (Err (Obj "UserAborted" [("message", VStr "User aborted")]),
     log ++ [ConfirmAsked message]);
|}.

(** An emulator whose every run gives [run]. *)
Definition scripted_shell (run : outcome LocalRun) : Shell (list conf_event) := {|
  sls_invoke_local := fun invocation log => (run, log ++ [LocalRan invocation]);
|}.

(** A project directory with a style, terms and a bot configuration, and
    with neither models nor lenses. *)
Definition style_json : value := VObj "Object" [("logo", VStr "acme.png")].
Definition terms_md : value := VStr "# Terms".
Definition bot_json : value := VObj "Object" [("products", VArr [])].

Definition project_files : ConfFiles (list conf_event) := {|
  read_style := fun log => (Ok style_json, log ++ [FileRead "./conf/style.json"]);
  read_terms := fun log => (Ok terms_md, log ++ [FileRead "./conf/terms-and-conditions.md"]);
  read_models := fun log => (Ok [], log ++ [FileRead "./models"]);
  read_lenses := fun log => (Ok [], log ++ [FileRead "./lenses"]);
  read_bot := fun log => (Ok bot_json, log ++ [FileRead "./conf/bot.json"]);
|}.

(** A configuration that targets the remote stack [tdl-acme-ltd-dev]. *)
Definition remote_conf (response : outcome InvocationResponse)
  : @Conf.t (list conf_event) := {|
  Conf.stackName := Some "tdl-acme-ltd-dev";
  Conf.namespace := VUndefined;
  Conf.this_local := None;
  Conf.remote := true;
  Conf.project := "";
  Conf.nodeFlags := [];
  Conf.client_lambda := scripted_lambda response;
|}.

Definition succeeded : InvocationResponse := {|
  StatusCode := 200;
  Payload := Some "{}";
  FunctionError := None;
|}.

Definition function_failed : InvocationResponse := {|
  StatusCode := 200;
  Payload := Some "Task timed out";
  FunctionError := Some "Unhandled";
|}.

Definition run_cli : Conf.InvokeOpts := {|
  Conf.functionName := Some "cli";
  Conf.arg := None;
  Conf.local := None;
  Conf.noWarning := false;
|}.

Definition no_emulator : Shell (list conf_event) :=
  scripted_shell (Err (new_Error "spawn node ENOENT")).

(** *** Backends of the string and option helpers *)

(** [toUpperCase] on ASCII letters. *)
Definition upper_char (c : ascii) : ascii :=
  let n := nat_of_ascii c in
  if (97 <=? n)%nat && (n <=? 122)%nat then ascii_of_nat (n - 32) else c.

Fixpoint upper (s : string) : string :=
  match s with
  | "" => ""
  | String c s' => String (upper_char c) (upper s')
  end.

Definition ascii_casing : Casing := {| toUpperCase := upper |}.

(** A file system that holds one serverless project, at [dir]. *)
Definition one_project (dir : string) : FileSystem := {|
  fs_existsSync path := String.eqb path (dir +:+ "/serverless.yml");
  path_resolve base file := base +:+ "/" +:+ file;
|}.

Definition node_version (version : string) : NodeProcess := {|
  process_version := version;
|}.

(** *** Creating, updating and describing stacks *)

Inductive stack_event :=
| CreateStackCalled (params : StackInput)
| UpdateStackCalled (params : StackInput)
| Slept (millis : Z)
| Polled (waiter stackName : string).

Definition stack_timers : Timers (list stack_event) := {|
  setTimeout := fun millis log => log ++ [Slept millis];
|}.

Definition answer_of (response : option AWSError) : outcome unit :=
  match response with
  | None => Ok tt
  | Some e => Err (error_of e)
  end.

(** [describeStacks] answers with [answer]. *)
Definition scripted_stacks {W} (answer : list Stack) : StackOperations W := {|
  api_describeStacks := fun _ w => (Ok answer, w);
  api_createStack := fun _ => unavailable;
  api_updateStack := fun _ => unavailable;
|}.

(** [createStack] and [updateStack] answer with [response], [None] being
    success, and are logged. *)
Definition logged_stacks (response : option AWSError)
  : StackOperations (list stack_event) := {|
  api_describeStacks := fun _ => unavailable;
  api_createStack := fun params log =>
    (answer_of response, log ++ [CreateStackCalled params]);
  api_updateStack := fun params log =>
    (answer_of response, log ++ [UpdateStackCalled params]);
|}.

(** A client whose waiters answer with [response]. *)
Definition logged_waiter (region : string) (response : option AWSError)
  : CloudFormation (list stack_event) := {|
  config_region := region;
  api_listStackResources := fun _ => unavailable;
  api_listStacks := fun _ => unavailable;
  api_getTemplate := fun _ => unavailable;
  api_deleteStack := fun _ => unavailable;
  api_waitFor := fun waiter stackName log =>
    (answer_of response, log ++ [Polled waiter stackName]);
|}.

Definition output (key value : string) : Output :=
  {| OutputKey := key; OutputValue := value |}.

Definition acme_stack : Stack := {|
  Outputs := [output "ServiceEndpoint" "https://api.acme.example/dev";
              output "ObjectsBucket" "tdl-acme-ltd-dev-objects";
              output "StackName" "tdl-acme-ltd-dev";
              output "EventsTable" "tdl-acme-ltd-dev-events";
              output "EncryptionKey" "key-1"];
|}.

Definition acme_params : StackInput := {|
  si_StackName := "tdl-acme-ltd-dev";
  si_rest := [("TemplateURL", VStr "https://templates.acme.example/main.json")];
|}.

Definition waiter_timeout : AWSError := {|
  aws_code := "ResourceNotReady";
  aws_message := "Resource is not in the state stackCreateComplete";
|}.

(** A client whose only method in use is [getTemplate], which answers
    with [body]. *)
Definition template_body (body : string) : CloudFormation unit := {|
  config_region := "us-east-1";
  api_listStackResources := fun _ => unavailable;
  api_listStacks := fun _ => unavailable;
  api_getTemplate := fun _ w => (Ok body, w);
  api_deleteStack := fun _ => unavailable;
  api_waitFor := fun _ _ => unavailable;
|}.

(** *** A local configuration *)

Definition no_lambda {W} : Lambda W := {|
  api_invoke := fun _ => unavailable;
|}.

Definition local_conf : @Conf.t (list conf_event) := {|
  Conf.stackName := None;
  Conf.namespace := VUndefined;
  Conf.this_local := Some true;
  Conf.remote := false;
  Conf.project := "/home/acme/serverless";
  Conf.nodeFlags := [];
  Conf.client_lambda := no_lambda;
|}.

(** *** Credentials files *)

Definition credentials (conf : outcome string) : CredentialsFile := {|
  read_credentials := conf;
|}.

End Scenario.

(* ===================================================================== *)
(** ** Vocabulary of the properties *)
(* ===================================================================== *)

Module Spec.
Import Aws.

(** [s] ends with [suffix]; [s] begins with [prefix]. *)
Definition ends_with (s suffix : string) : Prop := exists p, s = p +:+ suffix.
Definition begins_with (s prefix : string) : Prop := exists r, s = prefix +:+ r.

(** The updateable statuses, in the words of the specification. *)
Definition updateable (status : string) : Prop :=
  ends_with status "_COMPLETE" /\ ~ begins_with status "DELETE_".

(** [s] is a stack summary that the client's [listStacks] can answer. *)
Definition listed {W} (cloudformation : CloudFormation W) (s : StackSummary) : Prop :=
  exists input w out w',
    api_listStacks cloudformation input w = (Ok out, w') /\
    In s (StackSummaries out).

(** What the listings collect from pages. *)
Definition collected_resources (filter : StackResourceSummary -> bool)
    (pages : list ListStackResourcesOutput) : list StackResourceSummary :=
  List.concat (List.map (fun p => List.filter filter (StackResourceSummaries p)) pages).

Definition collected_stacks (filter : StackSummary -> bool)
    (pages : list ListStacksOutput) : list Utils.StackInfo :=
  List.concat
    (List.map (fun p => List.map (fun s => {| Utils.id := StackId s; Utils.name := StackName s |})
                                 (List.filter filter (StackSummaries p))) pages).

(** The requests that follow pages: each carries the token of the page
    before it. *)
Definition next_resource_requests (StackName : string)
    (pages : list ListStackResourcesOutput) : list ListStackResourcesInput :=
  List.map (fun p => {| lsr_StackName := StackName;
                        lsr_NextToken := lsr_out_NextToken p |}) pages.

Definition next_stack_requests (pages : list ListStacksOutput) : list ListStacksInput :=
  List.map (fun p => {| StackStatusFilter := StackStatusFilter Utils.listStacksOpts_initial;
                        ls_NextToken := ls_out_NextToken p |}) pages.

(** The transient conflict: the error's message mentions the cleanup that
    is still in progress. *)
Definition conflict (e : Scenario.AWSError) : Prop :=
  Js.includes (Scenario.aws_message e) Utils.CLEANUP_IN_PROGRESS = true.

(** [k] failed attempts: [k] times a delete call and a timeout of 5000
    milliseconds. *)
Fixpoint attempts (k : nat) (params : DeleteStackInput) : list Scenario.event :=
  match k with
  | O => []
  | S k' => Scenario.DeleteStackCalled params :: Scenario.TimeoutSet 5000
            :: attempts k' params
  end.


(** The message [new Error] is given when nothing is found under the
    name. *)
Definition fallback_message `{Platform} (props : list (string * value)) : string :=
  ToString (match get "message" props with
            | VUndefined => VStr "unspecified"
            | m => m
            end).

(** Which of the two invocations [invoke] makes, the request [_invoke]
    sends, and the confirmation it asks for first. *)
Definition targets_local {W} (this : @Conf.t W) (opts : Conf.InvokeOpts) : bool :=
  default false (match Conf.local opts with
                 | Some b => Some b
                 | None => Conf.this_local this
                 end).

Definition underlying {W} `{Platform} `{Prompts W} `{Shell W}
    (this : @Conf.t W) (opts : Conf.InvokeOpts) : M W value :=
  if targets_local this opts then Conf._invokeLocal this opts
  else Conf._invoke this opts.

Definition request {W} `{Platform} (this : @Conf.t W) (functionName : string)
    (arg : option value) : InvocationRequest :=
  {| InvocationType := "RequestResponse";
     FunctionName := Conf.this_getLongFunctionName this functionName;
     req_Payload := JSON_stringify (default (VObj "Object" []) arg) |}.

Definition confirmation {W} `{Prompts W} (this : @Conf.t W) (opts : Conf.InvokeOpts)
  : M W unit :=
  if negb (Conf.remote this || Conf.noWarning opts)
  then call (confirmOrAbort "Targeting REMOTE deployment. Continue?")
  else resolve tt.

(** An envelope has the key [error] or the key [result], not both. *)
Definition exactly_one (envelope : Conf.Envelope) : Prop :=
  (is_Some (Conf.error envelope) /\ Conf.result envelope = None) \/
  (Conf.error envelope = None /\ is_Some (Conf.result envelope)).

(** A computation that needs no fuel: it returns or throws from every
    world. *)
Definition ends {W A} (m : M W A) : Prop := forall w, m w <> OutOfFuel.

(** A string in which [c] does not occur, one that begins with a capital
    letter, and one with no capital letter after its first character. *)
Definition free_of (c : string) (s : string) : Prop := Js.includes s c = false.

Definition capitalised (part : string) : Prop :=
  exists c rest, part = String c rest /\ Js.is_upper c = true.

Definition one_word (part : string) : Prop :=
  Js.all_chars (fun c => negb (Js.is_upper c)) (Js.drop 1 part) = true.

(** A resource that some page of [listStackResources] for the stack holds. *)
Definition served {W} (cloudformation : CloudFormation W) (StackName : string)
    (r : StackResourceSummary) : Prop :=
  exists opts w out w',
    api_listStackResources cloudformation opts w = (Ok out, w') /\
    lsr_StackName opts = StackName /\
    In r (StackResourceSummaries out).

(** The outputs that name a bucket, a table or a key. *)
Definition names_a_resource (OutputKey : string) : bool :=
  Js.endsWith OutputKey "Bucket" || Js.endsWith OutputKey "Table"
  || Js.endsWith OutputKey "Key".

Definition resource_of (o : Output) (r : Utils.CloudResource) : Prop :=
  Utils.cr_name r = OutputKey o /\ Utils.cr_value r = OutputValue o /\
  ((Utils.cr_type r = "bucket" /\ ends_with (OutputKey o) "Bucket") \/
   (Utils.cr_type r = "table" /\ ends_with (OutputKey o) "Table") \/
   (Utils.cr_type r = "key" /\ ends_with (OutputKey o) "Key")).

(** A request followed by a wait of 5 seconds and by a waiter: what
    [operation] does from [w], by the answers of the two. *)
Definition failed_stacks_link (region : string) : string :=
  "https://" +:+ region +:+ ".console.aws.amazon.com/cloudformation/home?region="
  +:+ region +:+ "#/stacks?filter=failed".

Definition requests_then_waits {W} `{Timers W} (request : W -> outcome unit * W)
    (cloudformation : CloudFormation W) (waiter stackName : string)
    (operation : M W unit) (w : W) : Prop :=
  match request w with
  | (Err e, w1) => operation w = Throws e w1
  | (Ok _, w1) =>
      match api_waitFor cloudformation waiter stackName (setTimeout 5000 w1) with
      | (Ok _, w2) => operation w = Returns tt w2
      | (Err _, w2) =>
          operation w
          = Throws (ServerError ("operation may have failed. Check your stacks here: "
                                 +:+ failed_stacks_link (config_region cloudformation)))
                   w2
      end
  end.

(** How deep objects are nested in a value, through their properties. *)
Fixpoint depth (v : value) : nat :=
  match v with
  | VObj _ props =>
      S ((fix deepest (props : list (string * value)) : nat :=
            match props with
            | [] => 0
            | (_, x) :: rest => Nat.max (depth x) (deepest rest)
            end) props)
  | _ => 0
  end.

(** A value that holds an error or a result. *)
Definition is_envelope (v : value) : bool :=
  truthy (prop "error" v) || truthy (prop "result" v).

(** The envelopes on the way from a return value to its innermost result. *)
Fixpoint results (n : nat) (v : value) : value :=
  match n with
  | O => v
  | S n' => results n' (prop "result" v)
  end.

(** The values at which [unwrapReturnValue] goes on to the result: they
    hold no error, and their result is itself an envelope. *)
Definition goes_deeper (v : value) : bool :=
  negb (truthy (prop "error" v))
  && (truthy (prop "result" v) && is_envelope (prop "result" v)).

(** [unwrapped] is what [ret] unwraps to, [n] levels down: at each of the
    [n] levels above, the value goes deeper; the [n]-th result does not,
    and [unwrapped] is that result, with its error normalized when it
    holds one. *)
Definition unwrapped_at `{Platform} (ret : value) (n : nat) (unwrapped : value) : Prop :=
  (forall i, i < n -> goes_deeper (results i ret) = true) /\
  goes_deeper (results n ret) = false /\
  let inner := results n ret in
  unwrapped
  = if truthy (prop "error" inner) then
      VObj "Object"
        (set "error" (value_of (Utils.normalizeError (prop "error" inner)))
             (Utils.enumerable inner))
    else inner.

(** What [exec] asks [invoke] for. *)
Definition cli (arg0 : option value) (noWarning : bool) : Conf.InvokeOpts :=
  {| Conf.functionName := Some "cli"; Conf.arg := arg0;
     Conf.local := None; Conf.noWarning := noWarning |}.

(** The lines of a credentials file: the header of a profile, with or
    without a word before the name, and any other line. *)
Inductive line :=
| Profile (name : string)
| Prefixed (prefix name : string)
| Other (text : string).

Definition LF : string := String "010" "".
Definition CR : string := String "013" "".

Definition render (l : line) : string :=
  match l with
  | Profile name => "[" +:+ name +:+ "]"
  | Prefixed prefix name => "[" +:+ prefix +:+ " " +:+ name +:+ "]"
  | Other text => text
  end.

Definition no_space (s : string) : bool :=
  Js.all_chars (fun c => negb (Utils.is_whitespace c)) s.

Definition one_line (s : string) : bool :=
  Js.all_chars (fun c => negb (Js.is_line_terminator c)) s.

Definition well_formed (l : line) : bool :=
  match l with
  | Profile name => no_space name
  | Prefixed prefix name => no_space prefix && one_line name
  | Other text => negb (Js.startsWith text "[") && negb (Js.includes text LF)
  end.

Definition profiles_of (lines : list line) : list string :=
  List.concat (List.map (fun l => match l with
                                  | Profile name | Prefixed _ name => [name]
                                  | Other _ => []
                                  end) lines).

End Spec.

(* ===================================================================== *)
(** * Properties *)
(* ===================================================================== *)

(** ** Strings *)

Section StringFacts.

Lemma app_cons (c : ascii) (a b : string) : String c a +:+ b = String c (a +:+ b).
Proof. reflexivity. Qed.

Lemma app_nil_l (b : string) : "" +:+ b = b.
Proof. reflexivity. Qed.

Lemma str_length_app (a b : string) :
  String.length (a +:+ b) = String.length a + String.length b.
Proof. induction a as [|c a IH]; simpl; [reflexivity | now rewrite IH]. Qed.

Lemma app_assoc_str (a b c : string) : (a +:+ b) +:+ c = a +:+ (b +:+ c).
Proof.
  induction a as [|x a IH]; [reflexivity |].
  rewrite !app_cons. f_equal. exact IH.
Qed.

Lemma app_empty_r (a : string) : a +:+ "" = a.
Proof.
  induction a as [|x a IH]; [reflexivity |].
  rewrite app_cons. f_equal. exact IH.
Qed.

Lemma take_drop (n : nat) (s : string) : Js.take n s +:+ Js.drop n s = s.
Proof.
  revert s; induction n as [|n IH]; intros [|c s]; simpl;
    rewrite ?app_cons, ?app_nil_l; try reflexivity.
  now rewrite IH.
Qed.

Lemma take_length (n : nat) (s : string) :
  String.length (Js.take n s) = Nat.min n (String.length s).
Proof.
  revert s; induction n as [|n IH]; intros [|c s]; simpl; try reflexivity.
  now rewrite IH.
Qed.

Lemma drop_app (p s : string) : Js.drop (String.length p) (p +:+ s) = s.
Proof.
  induction p as [|c p IH]; [rewrite app_nil_l; now destruct s |].
  rewrite app_cons. simpl. exact IH.
Qed.

Lemma take_app (p s : string) : Js.take (String.length p) (p +:+ s) = p.
Proof.
  induction p as [|c p IH]; [rewrite app_nil_l; now destruct s |].
  rewrite app_cons. simpl. now rewrite IH.
Qed.

Lemma startsWith_spec (s p : string) :
  Js.startsWith s p = true <-> exists r, s = p +:+ r.
Proof.
  revert s; induction p as [|a p IH]; intros s; simpl.
  - split; [intros _; now exists s | reflexivity].
  - destruct s as [|b s].
    + split; [discriminate | intros [r Hr]; rewrite app_cons in Hr; discriminate].
    + destruct (Ascii.eqb_spec a b) as [->|Hne].
      * rewrite IH. split; intros [r Hr]; exists r.
        -- rewrite app_cons. now rewrite Hr.
        -- rewrite app_cons in Hr. now injection Hr.
      * split; [discriminate |].
        intros [r Hr]. rewrite app_cons in Hr. injection Hr. congruence.
Qed.

Lemma startsWith_app (p r : string) : Js.startsWith (p +:+ r) p = true.
Proof. apply startsWith_spec. now exists r. Qed.

Lemma endsWith_spec (s suffix : string) :
  Js.endsWith s suffix = true <-> exists p, s = p +:+ suffix.
Proof.
  unfold Js.endsWith, Js.len. split.
  - destruct (Z.ltb_spec (Z.of_nat (String.length s) - Z.of_nat (String.length suffix)) 0)
      as [Hlt|Hge]; [discriminate |].
    intros Heq. apply String.eqb_eq in Heq.
    exists (Js.take (Z.to_nat (Z.of_nat (String.length s) - Z.of_nat (String.length suffix))) s).
    rewrite <- Heq at 2. symmetry. apply take_drop.
  - intros [p ->]. rewrite str_length_app.
    replace (Z.of_nat (String.length p + String.length suffix)
             - Z.of_nat (String.length suffix))%Z with (Z.of_nat (String.length p)) by lia.
    destruct (Z.ltb_spec (Z.of_nat (String.length p)) 0) as [Hlt|Hge]; [lia |].
    rewrite Nat2Z.id, drop_app. apply String.eqb_refl.
Qed.

End StringFacts.

Example endsWith_complete : Js.endsWith "UPDATE_ROLLBACK_COMPLETE" "_COMPLETE" = true.
Proof. reflexivity. Qed.

Example endsWith_in_progress :
  Js.endsWith "UPDATE_ROLLBACK_COMPLETE_CLEANUP_IN_PROGRESS" "_COMPLETE" = false.
Proof. reflexivity. Qed.

Example lastIndexOf_last : Js.lastIndexOf "a-b-a" "a" = 4%Z.
Proof. reflexivity. Qed.

Example lastIndexOf_empty : Js.lastIndexOf "abc" "" = 3%Z.
Proof. reflexivity. Qed.

Example lastIndexOf_missing : Js.lastIndexOf "abc" "x" = (-1)%Z.
Proof. reflexivity. Qed.

Example slice_negative : Js.slice "abcdef" (-2) 6 = "ef".
Proof. reflexivity. Qed.

Example trim_both : Utils.trim "  { }  " = "{ }".
Proof. reflexivity. Qed.

(** ** Running the monad *)

Ltac run :=
  unfold bind, call, resolve, throw, try_catch, lift in *; simpl in *.

(** ** Updateable statuses and [getStackId] *)

Section Updateable.
Import Aws.

Lemma isUpdateableStatus_spec (status : string) :
  Utils.isUpdateableStatus status = true <-> Spec.updateable status.
Proof.
  unfold Utils.isUpdateableStatus, Spec.updateable, Spec.ends_with, Spec.begins_with.
  rewrite andb_true_iff, negb_true_iff, endsWith_spec.
  rewrite <- startsWith_spec, not_true_iff_false. reflexivity.
Qed.

(** A status of work under way is not updateable. *)
Lemma in_progress_not_updateable (p : string) :
  Utils.isUpdateableStatus (p +:+ "_IN_PROGRESS") = false.
Proof.
  apply not_true_iff_false. rewrite isUpdateableStatus_spec.
  intros [[q Hq] _].
  assert (Hlen : String.length (p +:+ "_IN_PROGRESS") = String.length (q +:+ "_COMPLETE"))
    by now rewrite Hq.
  rewrite !str_length_app in Hlen. simpl in Hlen.
  assert (Hd : Js.drop (String.length q) (q +:+ "_COMPLETE") = "_COMPLETE")
    by apply drop_app.
  rewrite <- Hq in Hd.
  replace (String.length q) with (String.length (p +:+ "_IN") ) in Hd
    by (rewrite str_length_app; simpl; lia).
  replace (p +:+ "_IN_PROGRESS") with ((p +:+ "_IN") +:+ "_PROGRESS") in Hd
    by now rewrite app_assoc_str.
  rewrite drop_app in Hd. discriminate.
Qed.

Context {W : Type}.

Lemma listStacks_loop_sound (cloudformation : CloudFormation W)
    (filter : StackSummary -> bool) (fuel : nat) :
  forall opts acc w res w',
    Utils.listStacks_loop fuel cloudformation filter opts acc w = Returns res w' ->
    forall info, In info res ->
      In info acc \/
      exists s, Spec.listed cloudformation s /\ filter s = true /\
                info = {| Utils.id := StackId s; Utils.name := StackName s |}.
Proof.
  induction fuel as [|fuel IH]; intros opts acc w res w' Hrun info Hin; [discriminate |].
  simpl in Hrun. run.
  destruct (api_listStacks cloudformation opts w) as [[out|e] w1] eqn:Hcall;
    [| discriminate].
  assert (Hnew : forall i,
             In i (acc ++ List.map (fun s => {| Utils.id := StackId s; Utils.name := StackName s |})
                                   (List.filter filter (StackSummaries out))) ->
             In i acc \/
             exists s, Spec.listed cloudformation s /\ filter s = true /\
                       i = {| Utils.id := StackId s; Utils.name := StackName s |}).
  { intros i Hi. apply in_app_or in Hi as [Hi|Hi]; [now left | right].
    apply in_map_iff in Hi as (s & <- & Hs). apply filter_In in Hs as [Hs Hf].
    exists s. split; [| now split].
    now exists opts, w, out, w1. }
  destruct (present (ls_out_NextToken out)).
  - apply (IH _ _ _ _ _ Hrun) in Hin as [Hin|Hin]; [now apply Hnew | now right].
  - injection Hrun as <- <-. now apply Hnew.
Qed.

Lemma getStackId_sound (cloudformation : CloudFormation W) (fuel : nat)
    (stackName : string) (w w' : W) (i : string) :
  Utils.getStackId fuel cloudformation stackName w = Returns (Some i) w' ->
  exists s, Spec.listed cloudformation s /\ StackId s = i /\ StackName s = stackName /\
            Utils.isUpdateableStatus (StackStatus s) = true.
Proof.
  unfold Utils.getStackId, Utils.listStacks. run.
  destruct (Utils.listStacks_loop _ _ _ _ _ _) as [stacks w1| |] eqn:Hloop; try discriminate.
  destruct stacks as [|info rest]; [discriminate |].
  intros Hret. injection Hret as <- <-.
  destruct (listStacks_loop_sound _ _ _ _ _ _ _ _ Hloop info (or_introl eq_refl))
    as [[]|(s & Hs & Hf & ->)].
  apply andb_true_iff in Hf as [Hn Hu]. apply String.eqb_eq in Hn.
  exists s. now repeat split.
Qed.

End Updateable.

(** C7.  A status is updateable exactly when it ends with ["_COMPLETE"] and
    does not begin with ["DELETE_"]; and an id that [getStackId] returns is
    the id of a listed stack that has the name asked for and whose status
    is updateable, so neither a deletion status nor one of work in
    progress. *)
Theorem isUpdateableStatus_and_getStackId :
  (forall status : string,
      Utils.isUpdateableStatus status = true <-> Spec.updateable status) /\
  (forall (W : Type) (cloudformation : Aws.CloudFormation W) (fuel : nat)
          (stackName : string) (w w' : W) (i : string),
      Utils.getStackId fuel cloudformation stackName w = Returns (Some i) w' ->
      exists s, Spec.listed cloudformation s /\
                Aws.StackId s = i /\ Aws.StackName s = stackName /\
                Spec.updateable (Aws.StackStatus s) /\
                ~ Spec.begins_with (Aws.StackStatus s) "DELETE_" /\
                ~ Spec.ends_with (Aws.StackStatus s) "_IN_PROGRESS").
Proof.
  split; [exact isUpdateableStatus_spec |].
  intros W cloudformation fuel stackName w w' i Hrun.
  destruct (getStackId_sound _ _ _ _ _ _ Hrun) as (s & Hs & Hid & Hname & Hu).
  exists s. repeat split; try assumption.
  - now apply isUpdateableStatus_spec.
  - now apply isUpdateableStatus_spec.
  - now apply isUpdateableStatus_spec in Hu as [_ Hd].
  - intros [p Hp]. rewrite Hp, in_progress_not_updateable in Hu. discriminate.
Qed.

Lemma isUpdateableStatus_and_getStackId_witness :
  Utils.getStackId 1 (Scenario.stack_pages Scenario.acme_stacks) "tdl-acme-ltd-dev" []
  = Returns (Some "stack/3") [Utils.listStacksOpts_initial] /\
  exists s, Spec.listed (Scenario.stack_pages Scenario.acme_stacks) s /\
            Aws.StackId s = "stack/3" /\ Aws.StackName s = "tdl-acme-ltd-dev" /\
            Spec.updateable (Aws.StackStatus s) /\
            ~ Spec.begins_with (Aws.StackStatus s) "DELETE_" /\
            ~ Spec.ends_with (Aws.StackStatus s) "_IN_PROGRESS".
Proof.
  split; [reflexivity |].
  apply (proj2 isUpdateableStatus_and_getStackId _ _ 1 _ [] [Utils.listStacksOpts_initial]).
  reflexivity.
Defined.

(** ** The name of the services stack *)

Section ServicesStackName.

Lemma take_all (n : nat) (s : string) : String.length s <= n -> Js.take n s = s.
Proof.
  revert s; induction n as [|n IH]; intros [|c s]; simpl; intros Hle;
    try reflexivity; [lia |].
  rewrite IH; [reflexivity | lia].
Qed.

Lemma slice_prefix (s : string) (n : Z) :
  (0 <= n)%Z -> Js.slice s 0 n = Js.take (Z.to_nat n) s.
Proof.
  intros Hn. unfold Js.slice, Js.clamp_index.
  change (0 <? 0)%Z with false. cbv iota.
  destruct (Z.ltb_spec n 0) as [Hlt|_]; [lia |].
  assert (H0 : Z.min 0 (Js.len s) = 0%Z) by (unfold Js.len; lia).
  rewrite H0, Z.sub_0_r. change (Z.to_nat 0) with 0. simpl Js.drop.
  destruct (Z.le_ge_cases n (Js.len s)) as [Hle|Hge].
  - rewrite Z.min_l, Z.max_l by lia. reflexivity.
  - rewrite Z.min_r, Z.max_l by (unfold Js.len in *; lia).
    unfold Js.len in *. rewrite Nat2Z.id.
    rewrite !take_all by lia. reflexivity.
Qed.

Lemma regex_tail_sound (rest stage : string) :
  Utils.regex_tail rest = Some stage ->
  rest = "-ltd-" +:+ stage /\ stage <> "" /\ Js.all_chars Js.is_letter stage = true.
Proof.
  unfold Utils.regex_tail.
  destruct (Js.startsWith rest "-ltd-") eqn:Hp; [| discriminate].
  apply startsWith_spec in Hp as [r ->].
  change 5 with (String.length "-ltd-"). rewrite drop_app.
  destruct (String.eqb_spec r "") as [->|Hne]; simpl; [discriminate |].
  destruct (Js.all_chars Js.is_letter r) eqn:Hl; [| discriminate].
  intros [= <-]. now repeat split.
Qed.

Lemma regex_lazy_unfold (rest : string) :
  Utils.regex_lazy rest =
  match Utils.regex_tail rest with
  | Some stage => Some ("", stage)
  | None =>
      match rest with
      | "" => None
      | String c rest' =>
          if Js.is_line_terminator c then None
          else match Utils.regex_lazy rest' with
               | Some (org, stage) => Some (String c org, stage)
               | None => None
               end
      end
  end.
Proof. destruct rest; reflexivity. Qed.

Lemma regex_lazy_sound (rest org stage : string) :
  Utils.regex_lazy rest = Some (org, stage) ->
  rest = org +:+ "-ltd-" +:+ stage /\ stage <> "" /\
  Js.all_chars Js.is_letter stage = true /\
  Js.all_chars (fun c => negb (Js.is_line_terminator c)) org = true.
Proof.
  revert org; induction rest as [|c rest IH]; intros org; rewrite regex_lazy_unfold.
  - destruct (Utils.regex_tail "") as [st|] eqn:Ht; [| discriminate].
    intros [= <- <-]. apply regex_tail_sound in Ht as (? & ? & ?). now repeat split.
  - destruct (Utils.regex_tail (String c rest)) as [st|] eqn:Ht.
    + intros [= <- <-]. apply regex_tail_sound in Ht as (? & ? & ?). now repeat split.
    + destruct (Js.is_line_terminator c) eqn:Hc; [discriminate |].
      destruct (Utils.regex_lazy rest) as [[org' stage']|] eqn:Hrec; [| discriminate].
      intros [= <- <-]. destruct (IH _ eq_refl) as (-> & ? & ? & Horg).
      repeat split; try assumption. simpl. now rewrite Hc, Horg.
Qed.

Lemma regex_match_sound (name org stage : string) :
  Utils.MY_CLOUD_STACK_NAME_REGEX_match name = Some (org, stage) ->
  name = "tdl-" +:+ org +:+ "-ltd-" +:+ stage /\ stage <> "" /\
  Js.all_chars Js.is_letter stage = true.
Proof.
  unfold Utils.MY_CLOUD_STACK_NAME_REGEX_match.
  destruct (Js.startsWith name "tdl-") eqn:Hp; [| discriminate].
  apply startsWith_spec in Hp as [r ->].
  change 4 with (String.length "tdl-"). rewrite drop_app.
  intros Hl. apply regex_lazy_sound in Hl as (-> & ? & ? & _). now repeat split.
Qed.

Context `{Platform}.

Lemma shortenString_14 (org : string) :
  exists shorter,
    Utils.shortenString org 14 = Ok shorter /\
    shorter = (if (String.length org <=? 14)%nat then org
               else Js.take 8 org +:+ Js.take 6 (sha256 org)) /\
    String.length shorter <= 14.
Proof.
  unfold Utils.shortenString, Js.len.
  destruct (Nat.leb_spec (String.length org) 14) as [Hle|Hgt].
  - destruct (Z.leb_spec (Z.of_nat (String.length org) - 14) 0) as [_|Hc]; [| lia].
    exists org. now repeat split.
  - destruct (Z.leb_spec (Z.of_nat (String.length org) - 14) 0) as [Hc|_]; [lia |].
    destruct (Z.ltb_spec (Z.of_nat (String.length org)) 6) as [Hc|_]; [lia |].
    eexists. split; [reflexivity |].
    rewrite !slice_prefix by lia. simpl Z.to_nat.
    change (Z.to_nat (14 - 6)) with 8. change (Pos.to_nat 6) with 6.
    split; [reflexivity |].
    rewrite str_length_app, !take_length. lia.
Qed.

End ServicesStackName.

Section ServicesStackNameClaim.

(** Every name built on the convention passes the test of the regular
    expression. *)
Lemma regex_lazy_complete (org stage : string) :
  stage <> "" -> Js.all_chars Js.is_letter stage = true ->
  Js.all_chars (fun c => negb (Js.is_line_terminator c)) org = true ->
  Utils.regex_lazy (org +:+ "-ltd-" +:+ stage) <> None.
Proof.
  intros Hne Hl. induction org as [|c org IH]; intros Horg; rewrite regex_lazy_unfold.
  - rewrite app_nil_l. unfold Utils.regex_tail.
    rewrite startsWith_app. change 5 with (String.length "-ltd-"). rewrite drop_app.
    destruct (String.eqb_spec stage "") as [?|_]; [contradiction |].
    simpl. now rewrite Hl.
  - rewrite app_cons.
    destruct (Utils.regex_tail _); [discriminate |].
    simpl in Horg. apply andb_true_iff in Horg as [Hc Horg].
    apply negb_true_iff in Hc. rewrite Hc.
    specialize (IH Horg).
    destruct (Utils.regex_lazy (org +:+ "-ltd-" +:+ stage)) as [[? ?]|];
      [discriminate | contradiction].
Qed.

Lemma isMyCloudStackName_complete (org stage : string) :
  stage <> "" -> Js.all_chars Js.is_letter stage = true ->
  Js.all_chars (fun c => negb (Js.is_line_terminator c)) org = true ->
  Utils.isMyCloudStackName ("tdl-" +:+ org +:+ "-ltd-" +:+ stage) = true.
Proof.
  intros Hne Hl Horg.
  unfold Utils.isMyCloudStackName, Utils.MY_CLOUD_STACK_NAME_REGEX_match.
  rewrite startsWith_app. change 4 with (String.length "tdl-"). rewrite drop_app.
  pose proof (regex_lazy_complete org stage Hne Hl Horg) as Hc.
  now destruct (Utils.regex_lazy _).
Qed.

Context `{Platform}.

(** C9.  For a stack name that matches [tdl-<org>-ltd-<stage>], the name of
    the services stack is [<org>-srvcs] when [<org>] has at most 14
    characters, and otherwise the first 8 characters of [<org>] followed by
    the first 6 of its hash and by [-srvcs]; it has at most 20 characters,
    ends with [-srvcs], and the same name always gives the same result. *)
Theorem getServicesStackName_shape (stackName : string) :
  Utils.isMyCloudStackName stackName = true ->
  exists org stage shorter,
    stackName = "tdl-" +:+ org +:+ "-ltd-" +:+ stage /\
    Utils.getServicesStackName stackName = Ok (shorter +:+ "-srvcs") /\
    shorter = (if (String.length org <=? 14)%nat then org
               else Js.take 8 org +:+ Js.take 6 (sha256 org)) /\
    String.length shorter <= 14 /\
    String.length (shorter +:+ "-srvcs") <= 20 /\
    Js.endsWith (shorter +:+ "-srvcs") "-srvcs" = true /\
    (forall other, other = stackName ->
                   Utils.getServicesStackName other = Ok (shorter +:+ "-srvcs")).
Proof.
  unfold Utils.isMyCloudStackName.
  destruct (Utils.MY_CLOUD_STACK_NAME_REGEX_match stackName) as [[org stage]|] eqn:Hm;
    [intros _ | discriminate].
  destruct (regex_match_sound _ _ _ Hm) as (Hname & _ & _).
  destruct (shortenString_14 org) as (shorter & Hs & Hshape & Hlen).
  assert (Hget : Utils.getServicesStackName stackName = Ok (shorter +:+ "-srvcs")).
  { unfold Utils.getServicesStackName, Utils.parseMyCloudStackName. now rewrite Hm, Hs. }
  exists org, stage, shorter. repeat split; try assumption.
  - rewrite str_length_app. simpl. lia.
  - apply endsWith_spec. now exists shorter.
  - now intros other ->.
Qed.

End ServicesStackNameClaim.

Lemma getServicesStackName_shape_witness :
  Utils.isMyCloudStackName "tdl-international-widgets-ltd-dev" = true /\
  exists org stage shorter,
    "tdl-international-widgets-ltd-dev" = "tdl-" +:+ org +:+ "-ltd-" +:+ stage /\
    @Utils.getServicesStackName Scenario.node "tdl-international-widgets-ltd-dev"
    = Ok (shorter +:+ "-srvcs") /\
    shorter = (if (String.length org <=? 14)%nat then org
               else Js.take 8 org +:+ Js.take 6 (@sha256 Scenario.node org)) /\
    String.length shorter <= 14 /\
    String.length (shorter +:+ "-srvcs") <= 20 /\
    Js.endsWith (shorter +:+ "-srvcs") "-srvcs" = true /\
    (forall other, other = "tdl-international-widgets-ltd-dev" ->
                   @Utils.getServicesStackName Scenario.node other
                   = Ok (shorter +:+ "-srvcs")).
Proof.
  split; [reflexivity |].
  apply (@getServicesStackName_shape Scenario.node). reflexivity.
Defined.

Example getServicesStackName_long :
  @Utils.getServicesStackName Scenario.node "tdl-international-widgets-ltd-dev"
  = Ok "internat4befc4-srvcs".
Proof. reflexivity. Qed.

Example getServicesStackName_short :
  @Utils.getServicesStackName Scenario.node "tdl-acme-ltd-dev" = Ok "acme-srvcs".
Proof. reflexivity. Qed.

Example parse_lazy :
  Utils.MY_CLOUD_STACK_NAME_REGEX_match "tdl-a-ltd-b-ltd-c" = Some ("a-ltd-b", "c").
Proof. reflexivity. Qed.

Example parse_not_a_stack_name : Utils.isMyCloudStackName "tdl-acme-ltd-" = false.
Proof. reflexivity. Qed.

(** ** Long function names *)

(** Expanding twice is expanding once exactly when the stack name occurs
    last at the start of the name, or of the name once expanded. *)
Lemma getLongFunctionName_twice (stackName functionName : string) :
  Conf.getLongFunctionName stackName (Conf.getLongFunctionName stackName functionName)
  = Conf.getLongFunctionName stackName functionName
  <->
  Js.lastIndexOf functionName stackName = 0%Z \/
  Js.lastIndexOf (stackName +:+ "-" +:+ functionName) stackName = 0%Z.
Proof.
  unfold Conf.getLongFunctionName.
  destruct (Z.eqb_spec (Js.lastIndexOf functionName stackName) 0) as [Hf|Hf].
  - rewrite Hf. simpl. tauto.
  - destruct (Z.eqb_spec (Js.lastIndexOf (stackName +:+ "-" +:+ functionName) stackName) 0)
      as [Hl|Hl]; [tauto |].
    split; [| tauto].
    intros Heq. exfalso.
    assert (Hlen : String.length (stackName +:+ "-" +:+ stackName +:+ "-" +:+ functionName)
                   = String.length (stackName +:+ "-" +:+ functionName))
      by now rewrite Heq.
    rewrite !str_length_app in Hlen. simpl in Hlen. lia.
Qed.

(** C10.  The function name ["sync-prod"] of the stack ["prod"] is expanded
    to ["prod-sync-prod"], which begins with the stack name, and expanding
    that name again prefixes it a second time: the last occurrence of the
    stack name in it is not at the start. *)
Theorem getLongFunctionName_prefixes_twice :
  Conf.getLongFunctionName "prod" "sync-prod" = "prod-sync-prod" /\
  Js.startsWith "prod-sync-prod" "prod" = true /\
  Js.lastIndexOf "prod-sync-prod" "prod" = 10%Z /\
  Conf.getLongFunctionName "prod" "prod-sync-prod" = "prod-prod-sync-prod".
Proof. repeat split. Qed.

(** ** Paginated listings *)

Section Pagination.
Import Aws.

Lemma serve_next {I O} (done todo : list O) (page : O) (input : I) (w : list I) :
  List.length w = List.length done ->
  Scenario.serve (done ++ page :: todo) input w = (Ok page, w ++ [input]).
Proof.
  intros Hlen. unfold Scenario.serve.
  rewrite Hlen, nth_error_app2, Nat.sub_diag by lia. reflexivity.
Qed.

Lemma listStackResources_loop_pages (filter : StackResourceSummary -> bool)
    (last : ListStackResourcesOutput) (rest : list ListStackResourcesOutput) :
  present (lsr_out_NextToken last) = false ->
  forall (todo done : list ListStackResourcesOutput) (fuel : nat)
         (opts : ListStackResourcesInput) (acc : list StackResourceSummary)
         (w : list ListStackResourcesInput),
    Forall (fun p => present (lsr_out_NextToken p) = true) todo ->
    List.length w = List.length done ->
    List.length todo < fuel ->
    Utils.listStackResources_loop fuel
      (Scenario.resource_pages (done ++ todo ++ last :: rest)) filter opts acc w
    = Returns (acc ++ Spec.collected_resources filter (todo ++ [last]))
              (w ++ opts :: Spec.next_resource_requests (lsr_StackName opts) todo).
Proof.
  intros Hlast todo.
  induction todo as [|page todo IH]; intros done fuel opts acc w Htodo Hlen Hfuel;
    (destruct fuel as [|fuel]; [simpl in Hfuel; lia |]); simpl; run.
  - rewrite (serve_next done rest last opts w Hlen), Hlast. simpl.
    unfold Spec.collected_resources. simpl. now rewrite app_nil_r.
  - rewrite (serve_next done (todo ++ last :: rest) page opts w Hlen).
    inversion Htodo as [|? ? Hpage Htodo']; subst. rewrite Hpage. simpl.
    replace (done ++ page :: todo ++ last :: rest)
      with ((done ++ [page]) ++ todo ++ last :: rest) by now rewrite <- app_assoc.
    rewrite (IH (done ++ [page])); try assumption.
    + simpl. unfold Spec.collected_resources. simpl.
      rewrite <- !app_assoc. reflexivity.
    + rewrite !length_app. simpl. lia.
    + simpl in Hfuel. lia.
Qed.

Lemma listStackResources_loop_short (filter : StackResourceSummary -> bool)
    (tail : list ListStackResourcesOutput) :
  forall (todo done : list ListStackResourcesOutput) (fuel : nat)
         (opts : ListStackResourcesInput) (acc : list StackResourceSummary)
         (w : list ListStackResourcesInput),
    Forall (fun p => present (lsr_out_NextToken p) = true) todo ->
    List.length w = List.length done ->
    fuel <= List.length todo ->
    Utils.listStackResources_loop fuel
      (Scenario.resource_pages (done ++ todo ++ tail)) filter opts acc w
    = OutOfFuel.
Proof.
  intros todo.
  induction todo as [|page todo IH]; intros done fuel opts acc w Htodo Hlen Hfuel;
    (destruct fuel as [|fuel]; [reflexivity |]); simpl in Hfuel; [lia |].
  simpl; run.
  rewrite (serve_next done (todo ++ tail) page opts w Hlen).
  inversion Htodo as [|? ? Hpage Htodo']; subst. rewrite Hpage. simpl.
  replace (done ++ page :: todo ++ tail)
    with ((done ++ [page]) ++ todo ++ tail) by now rewrite <- app_assoc.
  apply IH; try assumption; [rewrite !length_app; simpl; lia | lia].
Qed.

Lemma listStacks_loop_pages (filter : StackSummary -> bool)
    (last : ListStacksOutput) (rest : list ListStacksOutput) :
  present (ls_out_NextToken last) = false ->
  forall (todo done : list ListStacksOutput) (fuel : nat)
         (opts : ListStacksInput) (acc : list Utils.StackInfo)
         (w : list ListStacksInput),
    StackStatusFilter opts = StackStatusFilter Utils.listStacksOpts_initial ->
    Forall (fun p => present (ls_out_NextToken p) = true) todo ->
    List.length w = List.length done ->
    List.length todo < fuel ->
    Utils.listStacks_loop fuel
      (Scenario.stack_pages (done ++ todo ++ last :: rest)) filter opts acc w
    = Returns (acc ++ Spec.collected_stacks filter (todo ++ [last]))
              (w ++ opts :: Spec.next_stack_requests todo).
Proof.
  intros Hlast todo.
  induction todo as [|page todo IH]; intros done fuel opts acc w Hopts Htodo Hlen Hfuel;
    (destruct fuel as [|fuel]; [simpl in Hfuel; lia |]); simpl; run.
  - rewrite (serve_next done rest last opts w Hlen), Hlast. simpl.
    unfold Spec.collected_stacks. simpl. now rewrite app_nil_r.
  - rewrite (serve_next done (todo ++ last :: rest) page opts w Hlen).
    inversion Htodo as [|? ? Hpage Htodo']; subst. rewrite Hpage. simpl.
    replace (done ++ page :: todo ++ last :: rest)
      with ((done ++ [page]) ++ todo ++ last :: rest) by now rewrite <- app_assoc.
    rewrite (IH (done ++ [page])); try assumption.
    + simpl. unfold Spec.collected_stacks. simpl. rewrite Hopts.
      rewrite <- !app_assoc. reflexivity.
    + rewrite !length_app. simpl. lia.
    + simpl in Hfuel. lia.
Qed.

Lemma listStacks_loop_short (filter : StackSummary -> bool)
    (tail : list ListStacksOutput) :
  forall (todo done : list ListStacksOutput) (fuel : nat)
         (opts : ListStacksInput) (acc : list Utils.StackInfo)
         (w : list ListStacksInput),
    Forall (fun p => present (ls_out_NextToken p) = true) todo ->
    List.length w = List.length done ->
    fuel <= List.length todo ->
    Utils.listStacks_loop fuel
      (Scenario.stack_pages (done ++ todo ++ tail)) filter opts acc w
    = OutOfFuel.
Proof.
  intros todo.
  induction todo as [|page todo IH]; intros done fuel opts acc w Htodo Hlen Hfuel;
    (destruct fuel as [|fuel]; [reflexivity |]); simpl in Hfuel; [lia |].
  simpl; run.
  rewrite (serve_next done (todo ++ tail) page opts w Hlen).
  inversion Htodo as [|? ? Hpage Htodo']; subst. rewrite Hpage. simpl.
  replace (done ++ page :: todo ++ tail)
    with ((done ++ [page]) ++ todo ++ tail) by now rewrite <- app_assoc.
  apply IH; try assumption; [rewrite !length_app; simpl; lia | lia].
Qed.

End Pagination.

(** C8.  When the backend serves the pages [init ++ [last]] one request
    after the other, every page of [init] carrying a continuation token and
    [last] none, [listStackResources] and [listStacks] return the filtered
    items of these pages, concatenated in the order of the pages; the first
    request carries no token and each further request the token of the page
    before it; and the listing ends with the request that [last] answers,
    not before it and whatever pages might follow. *)
Theorem paginated_listings :
  (forall (filter : Aws.StackResourceSummary -> bool) (StackName : string)
          (init : list Aws.ListStackResourcesOutput) (last : Aws.ListStackResourcesOutput)
          (rest : list Aws.ListStackResourcesOutput) (fuel : nat),
      Forall (fun p => Aws.present (Aws.lsr_out_NextToken p) = true) init ->
      Aws.present (Aws.lsr_out_NextToken last) = false ->
      (List.length init < fuel ->
       Utils.listStackResources fuel (Scenario.resource_pages (init ++ last :: rest))
         StackName filter []
       = Returns (Spec.collected_resources filter (init ++ [last]))
                 ({| Aws.lsr_StackName := StackName; Aws.lsr_NextToken := None |}
                  :: Spec.next_resource_requests StackName init)) /\
      (fuel <= List.length init ->
       Utils.listStackResources fuel (Scenario.resource_pages (init ++ last :: rest))
         StackName filter []
       = OutOfFuel)) /\
  (forall (filter : Aws.StackSummary -> bool)
          (init : list Aws.ListStacksOutput) (last : Aws.ListStacksOutput)
          (rest : list Aws.ListStacksOutput) (fuel : nat),
      Forall (fun p => Aws.present (Aws.ls_out_NextToken p) = true) init ->
      Aws.present (Aws.ls_out_NextToken last) = false ->
      (List.length init < fuel ->
       Utils.listStacks fuel (Scenario.stack_pages (init ++ last :: rest)) filter []
       = Returns (Spec.collected_stacks filter (init ++ [last]))
                 (Utils.listStacksOpts_initial :: Spec.next_stack_requests init)) /\
      (fuel <= List.length init ->
       Utils.listStacks fuel (Scenario.stack_pages (init ++ last :: rest)) filter []
       = OutOfFuel)).
Proof.
  split.
  - intros filter StackName init last rest fuel Hinit Hlast. split; intros Hfuel.
    + unfold Utils.listStackResources.
      now rewrite (listStackResources_loop_pages filter last rest Hlast init []).
    + unfold Utils.listStackResources.
      now apply (listStackResources_loop_short filter (last :: rest) init []).
  - intros filter init last rest fuel Hinit Hlast. split; intros Hfuel.
    + unfold Utils.listStacks.
      now rewrite (listStacks_loop_pages filter last rest Hlast init []).
    + unfold Utils.listStacks.
      now apply (listStacks_loop_short filter (last :: rest) init []).
Qed.

Lemma paginated_listings_witness :
  Forall (fun p => Aws.present (Aws.lsr_out_NextToken p) = true)
         [Scenario.page_1; Scenario.page_2] /\
  Aws.present (Aws.lsr_out_NextToken Scenario.page_3) = false /\
  2 < 3 /\
  Utils.listStackResources 3
    (Scenario.resource_pages ([Scenario.page_1; Scenario.page_2] ++ Scenario.page_3 :: []))
    "tdl-acme-ltd-dev" Scenario.is_bucket []
  = Returns [Scenario.resource "Logs" "AWS::S3::Bucket";
             Scenario.resource "Objects" "AWS::S3::Bucket";
             Scenario.resource "Secrets" "AWS::S3::Bucket"]
            [ {| Aws.lsr_StackName := "tdl-acme-ltd-dev"; Aws.lsr_NextToken := None |};
              {| Aws.lsr_StackName := "tdl-acme-ltd-dev";
                 Aws.lsr_NextToken := Some "token-1" |};
              {| Aws.lsr_StackName := "tdl-acme-ltd-dev";
                 Aws.lsr_NextToken := Some "token-2" |} ].
Proof.
  assert (Hinit : Forall (fun p => Aws.present (Aws.lsr_out_NextToken p) = true)
                         [Scenario.page_1; Scenario.page_2])
    by (repeat constructor).
  split; [exact Hinit |]. split; [reflexivity |]. split; [lia |].
  apply (proj1 (proj1 paginated_listings Scenario.is_bucket "tdl-acme-ltd-dev"
                  [Scenario.page_1; Scenario.page_2] Scenario.page_3 [] 3
                  Hinit eq_refl)).
  simpl. lia.
Defined.

(** ** Deleting a stack *)

Section DeleteStack.
Import Aws.

Variable responses : nat -> option Scenario.AWSError.
Variable params : DeleteStackInput.

Let cloudformation := Scenario.scripted_delete responses.
Let deleteStack_loop := @Utils.deleteStack_loop _ Scenario.logged_timers.
Let deleteStack := @Utils.deleteStack _ Scenario.logged_timers.

Lemma delete_calls_app (l1 l2 : list Scenario.event) :
  Scenario.delete_calls (l1 ++ l2) = Scenario.delete_calls l1 + Scenario.delete_calls l2.
Proof. unfold Scenario.delete_calls. now rewrite List.filter_app, length_app. Qed.

Lemma deleteStack_loop_conflict (fuel : nat) (log : list Scenario.event)
    (e : Scenario.AWSError) :
  responses (Scenario.delete_calls log) = Some e ->
  Spec.conflict e ->
  deleteStack_loop (S fuel) cloudformation params log
  = deleteStack_loop fuel cloudformation params
      (log ++ [Scenario.DeleteStackCalled params; Scenario.TimeoutSet 5000]).
Proof.
  intros Hr Hc. unfold deleteStack_loop, cloudformation. simpl. run.
  rewrite Hr. unfold Utils.message_includes. simpl.
  unfold Spec.conflict in Hc. rewrite Hc. simpl.
  now rewrite <- app_assoc.
Qed.

Lemma deleteStack_loop_success (fuel : nat) (log : list Scenario.event) :
  responses (Scenario.delete_calls log) = None ->
  deleteStack_loop (S fuel) cloudformation params log
  = Returns tt (log ++ [Scenario.DeleteStackCalled params]).
Proof.
  intros Hr. unfold deleteStack_loop, cloudformation. simpl. run. now rewrite Hr.
Qed.

Lemma deleteStack_loop_other (fuel : nat) (log : list Scenario.event)
    (e : Scenario.AWSError) :
  responses (Scenario.delete_calls log) = Some e ->
  ~ Spec.conflict e ->
  deleteStack_loop (S fuel) cloudformation params log
  = Throws (Scenario.error_of e) (log ++ [Scenario.DeleteStackCalled params]).
Proof.
  intros Hr Hc. unfold deleteStack_loop, cloudformation. simpl. run.
  rewrite Hr. unfold Utils.message_includes. simpl.
  unfold Spec.conflict in Hc. apply not_true_is_false in Hc. now rewrite Hc.
Qed.

Lemma deleteStack_loop_retries (k : nat) :
  forall (fuel : nat) (log : list Scenario.event),
    (forall i, i < k ->
               exists e, responses (Scenario.delete_calls log + i) = Some e /\ Spec.conflict e) ->
    deleteStack_loop (k + fuel) cloudformation params log
    = deleteStack_loop fuel cloudformation params (log ++ Spec.attempts k params).
Proof.
  induction k as [|k IH]; intros fuel log Hk.
  - change (0 + fuel) with fuel. simpl Spec.attempts. now rewrite app_nil_r.
  - destruct (Hk 0 ltac:(lia)) as (e & He & Hc). rewrite Nat.add_0_r in He.
    change (S k + fuel) with (S (k + fuel)).
    rewrite (deleteStack_loop_conflict _ _ e He Hc), IH.
    + simpl Spec.attempts. now rewrite <- app_assoc.
    + intros i Hi. destruct (Hk (S i) ltac:(lia)) as (e' & He' & Hc').
      exists e'. split; [| exact Hc'].
      rewrite delete_calls_app.
      change (Scenario.delete_calls [Scenario.DeleteStackCalled params;
                                     Scenario.TimeoutSet 5000]) with 1.
      now replace (Scenario.delete_calls log + 1 + i) with (Scenario.delete_calls log + S i)
        by lia.
Qed.

Lemma delete_calls_attempts (k : nat) :
  Scenario.delete_calls (Spec.attempts k params) = k.
Proof.
  induction k as [|k IH]; [reflexivity |].
  simpl. unfold Scenario.delete_calls in *. simpl. now rewrite IH.
Qed.

End DeleteStack.

(** C3.  When the first [k] delete calls are answered with the conflict
    and the next one is not, [deleteStack] makes [k + 1] delete calls with a
    timeout of 5000 milliseconds after each of the first [k], and nothing
    else.  If the last answer is success it returns the waiter, which, once
    called, waits 5000 milliseconds and then for [stackDeleteComplete]; if
    it is another error, it throws that error, so at the first attempt when
    [k] is 0. *)
Theorem deleteStack_retries_on_conflict :
  forall (responses : nat -> option Scenario.AWSError) (params : Aws.DeleteStackInput)
         (k fuel : nat),
    (forall i, i < k -> exists e, responses i = Some e /\ Spec.conflict e) ->
    k < fuel ->
    (responses k = None ->
     exists waiter,
       @Utils.deleteStack _ Scenario.logged_timers fuel
         (Scenario.scripted_delete responses) params []
       = Returns waiter (Spec.attempts k params ++ [Scenario.DeleteStackCalled params]) /\
       forall log,
         waiter log
         = Returns tt (log ++ [Scenario.TimeoutSet 5000;
                               Scenario.WaitForCalled "stackDeleteComplete"
                                                      (Aws.ds_StackName params)])) /\
    (forall e, responses k = Some e -> ~ Spec.conflict e ->
     @Utils.deleteStack _ Scenario.logged_timers fuel
       (Scenario.scripted_delete responses) params []
     = Throws (Scenario.error_of e)
              (Spec.attempts k params ++ [Scenario.DeleteStackCalled params])).
Proof.
  intros responses params k fuel Hk Hfuel.
  replace fuel with (k + S (fuel - S k)) by lia.
  assert (Hloop : @Utils.deleteStack_loop _ Scenario.logged_timers (k + S (fuel - S k))
                    (Scenario.scripted_delete responses) params []
                  = @Utils.deleteStack_loop _ Scenario.logged_timers (S (fuel - S k))
                      (Scenario.scripted_delete responses) params
                      (Spec.attempts k params)).
  { now rewrite (deleteStack_loop_retries responses params k). }
  split.
  - intros Hok. eexists. split.
    + unfold Utils.deleteStack, bind. rewrite Hloop.
      rewrite deleteStack_loop_success
        by now rewrite delete_calls_attempts.
      reflexivity.
    + intros log. unfold Utils.awaitStackDelete, Utils.waitFor, Utils.wait. run.
      now rewrite <- app_assoc.
  - intros e He Hc. unfold Utils.deleteStack, bind. rewrite Hloop.
    rewrite (deleteStack_loop_other _ _ _ _ e)
      by (try assumption; now rewrite delete_calls_attempts).
    reflexivity.
Qed.

Lemma deleteStack_retries_on_conflict_witness :
  (forall i, i < 2 -> exists e, Scenario.conflict_twice i = Some e /\ Spec.conflict e) /\
  2 < 3 /\
  Scenario.conflict_twice 2 = None /\
  exists waiter,
    @Utils.deleteStack _ Scenario.logged_timers 3
      (Scenario.scripted_delete Scenario.conflict_twice) Scenario.acme []
    = Returns waiter
        [Scenario.DeleteStackCalled Scenario.acme; Scenario.TimeoutSet 5000;
         Scenario.DeleteStackCalled Scenario.acme; Scenario.TimeoutSet 5000;
         Scenario.DeleteStackCalled Scenario.acme] /\
    forall log,
      waiter log
      = Returns tt (log ++ [Scenario.TimeoutSet 5000;
                            Scenario.WaitForCalled "stackDeleteComplete" "tdl-acme-ltd-dev"]).
Proof.
  assert (Hk : forall i, i < 2 ->
                 exists e, Scenario.conflict_twice i = Some e /\ Spec.conflict e).
  { intros i Hi. exists Scenario.cleanup_conflict.
    destruct i as [|[|i]]; [split; reflexivity | split; reflexivity | lia]. }
  split; [exact Hk |]. split; [lia |]. split; [reflexivity |].
  exact (proj1 (deleteStack_retries_on_conflict Scenario.conflict_twice Scenario.acme 2 3
                  Hk ltac:(lia)) eq_refl).
Defined.

Example deleteStack_other_error :
  @Utils.deleteStack _ Scenario.logged_timers 3
    (Scenario.scripted_delete Scenario.denied_at_once) Scenario.acme []
  = Throws (Scenario.error_of Scenario.access_denied)
           [Scenario.DeleteStackCalled Scenario.acme].
Proof. reflexivity. Qed.

(** While the conflict lasts, the loop goes on: no fuel is enough. *)
Lemma deleteStack_conflict_forever (fuel : nat) :
  @Utils.deleteStack _ Scenario.logged_timers fuel
    (Scenario.scripted_delete (fun _ => Some Scenario.cleanup_conflict)) Scenario.acme []
  = OutOfFuel.
Proof.
  unfold Utils.deleteStack, bind.
  replace fuel with (fuel + 0) by lia.
  rewrite (deleteStack_loop_retries _ Scenario.acme fuel); [reflexivity |].
  intros i _. exists Scenario.cleanup_conflict. split; reflexivity.
Qed.

(** ** Templates through nested stacks *)

Section NestedStacks.
Import Aws.
Context `{Platform}.

Variable template : value.
Hypothesis parse_empty_object : JSON_parse "{}" = Ok template.

Lemma filter_nested_stacks (ids : list string) :
  List.filter (fun r => String.eqb "AWS::CloudFormation::Stack" (ResourceType r))
              (List.map Scenario.nested_stack ids)
  = List.map Scenario.nested_stack ids.
Proof.
  induction ids as [|i ids IH]; [reflexivity |].
  cbn [List.map List.filter].
  change (String.eqb "AWS::CloudFormation::Stack" (ResourceType (Scenario.nested_stack i)))
    with true.
  cbv iota. now rewrite IH.
Qed.

Lemma getStackTemplate_nesting (children : string -> list string) (stackId : string) :
  Utils.getStackTemplate (Scenario.nesting children) stackId tt = Returns template tt.
Proof. unfold Utils.getStackTemplate. run. now rewrite parse_empty_object. Qed.

Lemma listSubstacks_nesting (children : string -> list string) (fuel : nat)
    (stackId : string) :
  Utils.listSubstacks (S fuel) (Scenario.nesting children) stackId tt
  = Returns (List.map Scenario.nested_stack (children stackId)) tt.
Proof.
  unfold Utils.listSubstacks, Utils.listStackResourcesByType, Utils.listStackResources.
  simpl. run. now rewrite filter_nested_stacks.
Qed.

(** One step of the recursion on a client without state. *)
Lemma getStackTemplates_nesting (children : string -> list string) (fuel : nat)
    (stackId : string) :
  Utils.getStackTemplates (S fuel) (Scenario.nesting children) stackId tt
  = match children stackId with
    | [] => Returns [template] tt
    | ids =>
        match mapM (fun n => Utils.getStackTemplates fuel (Scenario.nesting children)
                               (PhysicalResourceId n))
                   (List.map Scenario.nested_stack ids) tt with
        | Returns nestedTemplates w => Returns (template :: List.concat nestedTemplates) w
        | Throws e w => Throws e w
        | OutOfFuel => OutOfFuel
        end
    end.
Proof.
  cbn [Utils.getStackTemplates]. unfold bind at 1.
  rewrite getStackTemplate_nesting. unfold bind at 1.
  rewrite listSubstacks_nesting.
  destruct (children stackId) as [|i ids]; [reflexivity |].
  reflexivity.
Qed.

Lemma getStackTemplates_cyclic (fuel : nat) (stackId : string) :
  Utils.getStackTemplates fuel Scenario.cyclic stackId tt = OutOfFuel.
Proof.
  induction fuel as [|fuel IH]; [reflexivity |].
  unfold Scenario.cyclic in *. rewrite getStackTemplates_nesting.
  simpl. unfold bind at 1. simpl. now rewrite IH.
Qed.

Lemma getStackTemplates_chain (fuel : nat) :
  forall depth,
    Utils.getStackTemplates fuel Scenario.chain (Scenario.chain_name depth) tt
    = if (depth <? fuel)%nat then Returns (List.repeat template (S depth)) tt
      else OutOfFuel.
Proof.
  induction fuel as [|fuel IH]; intros depth; [reflexivity |].
  unfold Scenario.chain in *. rewrite getStackTemplates_nesting.
  destruct depth as [|depth]; [reflexivity |].
  simpl Scenario.chain_name. cbv iota. simpl List.map. simpl mapM.
  unfold bind at 1. simpl PhysicalResourceId. rewrite IH.
  change (S depth <? S fuel)%nat with (depth <? fuel)%nat.
  destruct (depth <? fuel)%nat; [| reflexivity].
  run. now rewrite app_nil_r.
Qed.

End NestedStacks.

(** C6, as the code has it.  [getStackTemplates] follows the nesting as
    deep as it goes and has no bound of its own: on a chain of [depth]
    stacks nested in one another it returns the [depth + 1] templates,
    which takes recursion of that depth, for every [depth]; and on a stack
    nested in itself no depth of recursion is enough. *)
Theorem getStackTemplates_depth_unbounded :
  forall (P : Platform) (template : value),
    JSON_parse "{}" = Ok template ->
    forall depth fuel,
      (depth < fuel ->
       Utils.getStackTemplates fuel Scenario.chain (Scenario.chain_name depth) tt
       = Returns (List.repeat template (S depth)) tt) /\
      (fuel <= depth ->
       Utils.getStackTemplates fuel Scenario.chain (Scenario.chain_name depth) tt
       = OutOfFuel) /\
      (forall stackId,
          Utils.getStackTemplates fuel Scenario.cyclic stackId tt = OutOfFuel).
Proof.
  intros P template Hparse depth fuel.
  rewrite (getStackTemplates_chain template Hparse).
  repeat split.
  - intros Hlt. apply Nat.ltb_lt in Hlt. now rewrite Hlt.
  - intros Hle. apply Nat.ltb_ge in Hle. now rewrite Hle.
  - intros stackId. exact (getStackTemplates_cyclic template Hparse fuel stackId).
Qed.

Lemma getStackTemplates_depth_unbounded_witness :
  @JSON_parse Scenario.node "{}" = Ok (VObj "Object" []) /\
  3 < 4 /\
  @Utils.getStackTemplates unit Scenario.node 4 Scenario.chain "sss" tt
  = Returns [VObj "Object" []; VObj "Object" []; VObj "Object" []; VObj "Object" []] tt.
Proof.
  split; [reflexivity |]. split; [lia |].
  apply (proj1 (getStackTemplates_depth_unbounded Scenario.node (VObj "Object" [])
                  eq_refl 3 4)).
  lia.
Defined.

(** C6, as stated, fails: on a stack that is listed as its own nested
    stack the traversal never ends. *)
Lemma getStackTemplates_cyclic_diverges :
  ~ exists fuel,
      @Utils.getStackTemplates unit Scenario.node fuel Scenario.cyclic "tdl-acme-ltd-dev" tt
      <> OutOfFuel.
Proof.
  intros [fuel Hfuel]. apply Hfuel.
  exact (@getStackTemplates_cyclic Scenario.node (VObj "Object" []) eq_refl fuel _).
Qed.

(** ** Destroying a bucket *)

Section DestroyBucket.
Import Aws.
Context {W : Type}.
Variable emptyBucket : S3 W -> string -> M W unit.
Variable s3 : S3 W.
Variable Bucket : string.






End DestroyBucket.



Example destroyBucket_emptying_denied :
  Utils.destroyBucket (Scenario.scripted_emptyBucket (Some Scenario.access_denied))
    (Scenario.scripted_s3 None) "logs" []
  = Throws (Scenario.error_of Scenario.access_denied) [Scenario.Emptied "logs"].
Proof. reflexivity. Qed.

Example destroyBucket_access_denied :
  Utils.destroyBucket (Scenario.scripted_emptyBucket None)
    (Scenario.scripted_s3 (Some Scenario.access_denied)) "logs" []
  = Throws (Scenario.error_of Scenario.access_denied)
           [Scenario.Emptied "logs"; Scenario.DeleteBucketCalled "logs"].
Proof. reflexivity. Qed.

(** ** Errors that crossed the wire *)

Section Properties_of_objects.

Lemma get_set_eq (k : string) (v : value) (props : list (string * value)) :
  get k (set k v props) = v.
Proof.
  induction props as [|[k' v'] props IH]; simpl.
  - now rewrite String.eqb_refl.
  - destruct (String.eqb_spec k k') as [->|Hne]; simpl.
    + now rewrite String.eqb_refl.
    + destruct (String.eqb_spec k k'); [contradiction | exact IH].
Qed.

Lemma get_set_ne (k k' : string) (v : value) (props : list (string * value)) :
  k <> k' -> get k (set k' v props) = get k props.
Proof.
  intros Hne. induction props as [|[k0 v0] props IH]; simpl.
  - destruct (String.eqb_spec k k'); [contradiction | reflexivity].
  - destruct (String.eqb_spec k' k0) as [->|Hne0]; simpl.
    + destruct (String.eqb_spec k k0); [contradiction | reflexivity].
    + destruct (String.eqb_spec k k0); [reflexivity | exact IH].
Qed.

Lemma extend_cons (target : list (string * value)) (k : string) (v : value)
    (source : list (string * value)) :
  extend target ((k, v) :: source) = extend (set k v target) source.
Proof. reflexivity. Qed.

Lemma get_extend_absent (k : string) (source : list (string * value)) :
  forall target, ~ In k (List.map fst source) -> get k (extend target source) = get k target.
Proof.
  induction source as [|[k' v'] source IH]; intros target Hk; [reflexivity |].
  rewrite extend_cons, IH.
  - apply get_set_ne. intros ->. apply Hk. now left.
  - intros Hin. apply Hk. now right.
Qed.

(** [_.extend] copies every property of a source without repeated keys. *)
Lemma get_extend_present (k : string) (v : value) (source : list (string * value)) :
  forall target,
    List.NoDup (List.map fst source) -> In (k, v) source ->
    get k (extend target source) = v.
Proof.
  induction source as [|[k' v'] source IH]; intros target Hnd Hin; [destruct Hin |].
  simpl in Hnd. inversion Hnd as [|? ? Hfresh Hnd']; subst.
  rewrite extend_cons. destruct Hin as [[= -> ->]|Hin].
  - rewrite get_extend_absent by exact Hfresh. apply get_set_eq.
  - now apply IH.
Qed.

End Properties_of_objects.

Section NormalizeError.
Context `{Platform}.

Lemma normalizeError_instance (cls : string) (props : list (string * value)) :
  instanceof_Error (Obj cls props) = true ->
  Utils.normalizeError (VObj cls props) = Obj cls props.
Proof. intros Hi. unfold Utils.normalizeError. now rewrite Hi. Qed.

Lemma normalizeError_constructed (cls : string) (props : list (string * value))
    (o : object) :
  instanceof_Error (Obj cls props) = false ->
  truthy (get "name" props) = true ->
  global_new (get "name" props) = Some (Some o) ->
  Utils.normalizeError (VObj cls props)
  = Obj (obj_class o) (extend (obj_props o) props).
Proof.
  intros Hi Ht Hg. unfold Utils.normalizeError. rewrite Hi. simpl.
  now rewrite Ht, Hg.
Qed.

Lemma normalizeError_generic (cls : string) (props : list (string * value)) :
  instanceof_Error (Obj cls props) = false ->
  truthy (get "name" props) = false \/
  global_new (get "name" props) = None \/
  global_new (get "name" props) = Some None ->
  Utils.normalizeError (VObj cls props)
  = Obj "Error" (extend [("message", VStr (Spec.fallback_message props))] props).
Proof.
  intros Hi Hn. unfold Utils.normalizeError, Spec.fallback_message. rewrite Hi. simpl.
  destruct (truthy (get "name" props)); [| reflexivity].
  destruct Hn as [Hn|[Hn|Hn]]; [discriminate | now rewrite Hn | now rewrite Hn].
Qed.

Lemma normalizeError_keeps_properties (cls : string) (props : list (string * value))
    (k : string) (v : value) :
  instanceof_Error (Obj cls props) = false ->
  List.NoDup (List.map fst props) -> In (k, v) props ->
  get k (obj_props (Utils.normalizeError (VObj cls props))) = v.
Proof.
  intros Hi Hnd Hin. unfold Utils.normalizeError. rewrite Hi. simpl.
  now apply get_extend_present.
Qed.

End NormalizeError.

(** C5, as the code has it.  An instance of [Error] is returned as it is.
    Any other object is rebuilt from its [name]: when the name is that of a
    property of the global object that can be constructed, the result is
    what that constructor makes; when there is no name, no such property,
    or the construction throws, the result is a plain [Error] with the
    object's message, or ["unspecified"].  Either way the properties of
    the object are then copied onto the result.  This is what
    [unwrapReturnValue] puts in place of a truthy [error]. *)
Theorem normalizeError_by_global_name :
  forall (P : Platform) (cls : string) (props : list (string * value)),
    (instanceof_Error (Obj cls props) = true ->
     Utils.normalizeError (VObj cls props) = Obj cls props) /\
    (instanceof_Error (Obj cls props) = false ->
     (forall o,
         truthy (get "name" props) = true ->
         global_new (get "name" props) = Some (Some o) ->
         Utils.normalizeError (VObj cls props)
         = Obj (obj_class o) (extend (obj_props o) props)) /\
     (truthy (get "name" props) = false \/
      global_new (get "name" props) = None \/
      global_new (get "name" props) = Some None ->
      Utils.normalizeError (VObj cls props)
      = Obj "Error" (extend [("message", VStr (Spec.fallback_message props))] props)) /\
     (List.NoDup (List.map fst props) ->
      forall k v, In (k, v) props ->
                  get k (obj_props (Utils.normalizeError (VObj cls props))) = v)) /\
    (forall (W : Type) (fuel : nat) (rest : list (string * value)) (w : W),
        truthy (get "error" rest) = true ->
        Utils.unwrapReturnValue (S fuel) (VObj cls rest) w
        = Returns (VObj "Object"
                     (set "error" (value_of (Utils.normalizeError (get "error" rest))) rest))
                  w).
Proof.
  intros P cls props. split; [apply normalizeError_instance |]. split.
  - intros Hi. split; [| split].
    + intros o. now apply normalizeError_constructed.
    + now apply normalizeError_generic.
    + intros Hnd k v. now apply normalizeError_keeps_properties.
  - intros W fuel rest w Ht. simpl. now rewrite Ht.
Qed.

Lemma normalizeError_by_global_name_witness :
  @instanceof_Error Scenario.node
    (Obj "Object" [("name", VStr "RangeError"); ("message", VStr "too big")]) = false /\
  truthy (get "name" [("name", VStr "RangeError"); ("message", VStr "too big")]) = true /\
  @global_new Scenario.node (get "name" [("name", VStr "RangeError"); ("message", VStr "too big")])
  = Some (Some (Obj "RangeError" [("message", VStr "RangeError")])) /\
  @Utils.normalizeError Scenario.node Scenario.range_error
  = Obj "RangeError" [("message", VStr "too big"); ("name", VStr "RangeError")].
Proof.
  split; [reflexivity |]. split; [reflexivity |]. split; [reflexivity |].
  exact (proj1 (proj1 (proj2 (normalizeError_by_global_name Scenario.node "Object"
                                [("name", VStr "RangeError"); ("message", VStr "too big")]))
                      eq_refl)
               _ eq_refl eq_refl).
Defined.

(** C5, as stated, fails both ways: the error of kind [NotFound] that the
    remote function sent comes out of the envelope as a plain [Error], and
    an object named [RangeError], which is no kind of the taxonomy, comes
    out as an instance of the global constructor of that name. *)
Lemma normalizeError_loses_the_kind :
  @Utils.unwrapReturnValue Scenario.node unit 2 Scenario.failed_envelope tt
  = Returns (VObj "Object"
               [("error", VObj "Error" [("message", VStr "no such user");
                                        ("name", VStr "NotFound")])]) tt /\
  obj_class (@Utils.normalizeError Scenario.node Scenario.not_found_error) = "Error" /\
  obj_class (@Utils.normalizeError Scenario.node Scenario.range_error) = "RangeError".
Proof. repeat split. Qed.

(** ** Deploy options *)

Section DeployOpts.
Context `{Platform}.

Lemma DEPLOY_ALL_OPTS_lookup (d : string) :
  d ∈ Conf.DEPLOYABLES -> Conf.DEPLOY_ALL_OPTS !! d = Some (VBool true).
Proof.
  intros Hd. unfold Conf.DEPLOYABLES in Hd.
  repeat (apply elem_of_cons in Hd as [->|Hd]; [reflexivity |]).
  now apply elem_of_nil in Hd.
Qed.

Lemma getDeployables_none (opts : gmap string value) :
  size (Conf.getDeployables opts) = 0 <->
  forall d, d ∈ Conf.DEPLOYABLES -> opts !! d = None.
Proof.
  unfold Conf.getDeployables. rewrite map_size_empty_iff, map_empty_filter. split.
  - intros Hall d Hd. destruct (opts !! d) as [v|] eqn:Hv; [| reflexivity].
    exfalso. exact (Hall d v Hv Hd).
  - intros Hnone d v Hv Hd. simpl in Hd. rewrite (Hnone d Hd) in Hv. discriminate.
Qed.

Lemma normalizeDeployOpts_without_args (opts : gmap string value) (command : string) :
  Conf.isEmpty (Conf.opt "args" opts) = true ->
  Conf.normalizeDeployOpts opts command
  = Ok (if truthy (Conf.opt "all" opts)
           || (size (Conf.getDeployables opts) =? 0)%nat
        then opts ∪ Conf.DEPLOY_ALL_OPTS
        else opts).
Proof.
  intros Hargs. unfold Conf.normalizeDeployOpts. rewrite Hargs. simpl.
  destruct (truthy (Conf.opt "all" opts)); simpl; [reflexivity |].
  now destruct (size (Conf.getDeployables opts) =? 0)%nat.
Qed.

Lemma union_all_lookup (opts : gmap string value) (d : string) :
  d ∈ Conf.DEPLOYABLES ->
  (opts ∪ Conf.DEPLOY_ALL_OPTS) !! d = Some (default (VBool true) (opts !! d)).
Proof.
  intros Hd. destruct (opts !! d) as [v|] eqn:Hv; simpl.
  - now apply lookup_union_Some_l.
  - rewrite lookup_union_r by exact Hv. now apply DEPLOY_ALL_OPTS_lookup.
Qed.

Lemma opt_union_all (opts : gmap string value) (d : string) :
  d ∈ Conf.DEPLOYABLES -> opts !! d = None ->
  Conf.opt d (opts ∪ Conf.DEPLOY_ALL_OPTS) = VBool true.
Proof.
  intros Hd Hnone. unfold Conf.opt. rewrite union_all_lookup by exact Hd.
  now rewrite Hnone.
Qed.

Context {W : Type} `{ConfFiles W}.

(** With no deployable named in the options, every deployable is read. *)
Lemma getDeployItems_everything (this : @Conf.t W) (opts : gmap string value)
    (style terms bot : value) (models lenses : list value) (w w1 w2 w3 w4 w5 : W) :
  Conf.isEmpty (Conf.opt "args" opts) = true ->
  (forall d, d ∈ Conf.DEPLOYABLES -> opts !! d = None) ->
  read_style w = (Ok style, w1) ->
  read_terms w1 = (Ok terms, w2) ->
  read_models w2 = (Ok models, w3) ->
  read_lenses w3 = (Ok lenses, w4) ->
  read_bot w4 = (Ok bot, w5) ->
  Conf.getDeployItems this opts w
  = if negb (List.length models =? 0)%nat || negb (List.length lenses =? 0)%nat then
      match Utils.pack (Conf.namespace this) models lenses with
      | Ok modelsPack =>
          Returns [("style", style); ("terms", if truthy terms then terms else VNull);
                   ("modelsPack", modelsPack); ("bot", bot)] w5
      | Err e => Throws e w4
      end
    else
      Returns [("style", style); ("terms", if truthy terms then terms else VNull);
               ("bot", bot)] w5.
Proof.
  intros Hargs Hnone Hstyle Hterms Hmodels Hlenses Hbot.
  unfold Conf.getDeployItems.
  rewrite (normalizeDeployOpts_without_args _ _ Hargs).
  apply getDeployables_none in Hnone as Hsize. rewrite Hsize, orb_true_r.
  unfold lift, bind at 1, resolve at 1.
  rewrite (opt_union_all opts "style"), (opt_union_all opts "terms"),
    (opt_union_all opts "models"), (opt_union_all opts "bot");
    try (apply Hnone); try (unfold Conf.DEPLOYABLES; set_solver).
  simpl truthy. cbv iota.
  unfold bind, call, resolve. rewrite Hstyle, Hterms, Hmodels, Hlenses.
  destruct (negb (List.length models =? 0)%nat || negb (List.length lenses =? 0)%nat).
  - unfold lift. destruct (Utils.pack _ _ _) as [mp|e]; simpl.
    + unfold resolve. now rewrite Hbot.
    + reflexivity.
  - unfold resolve. now rewrite Hbot.
Qed.

End DeployOpts.

(** C2, as the code has it.  Options without arguments are never refused.
    When [all] is set, or when the options name no deployable at all, they
    are completed: each deployable the options do not name is selected,
    and each one they name keeps the value they give it.  Otherwise they
    are returned as they are.  So a request that selects nothing deploys
    everything: [getDeployItems] then reads the style, the terms and the
    bot configuration, and packs the models when there are models or
    lenses. *)
Theorem normalizeDeployOpts_defaults_to_all :
  forall (P : Platform) (opts : gmap string value) (command : string),
    Conf.isEmpty (Conf.opt "args" opts) = true ->
    (exists normalized,
        Conf.normalizeDeployOpts opts command = Ok normalized /\
        (truthy (Conf.opt "all" opts) = true \/
         (forall d, d ∈ Conf.DEPLOYABLES -> opts !! d = None) ->
         forall d, d ∈ Conf.DEPLOYABLES ->
                   normalized !! d = Some (default (VBool true) (opts !! d))) /\
        (truthy (Conf.opt "all" opts) = false ->
         (exists d, d ∈ Conf.DEPLOYABLES /\ opts !! d <> None) ->
         normalized = opts)) /\
    (forall (W : Type) (files : ConfFiles W) (this : @Conf.t W)
            (style terms bot : value) (models lenses : list value)
            (w w1 w2 w3 w4 w5 : W),
        (forall d, d ∈ Conf.DEPLOYABLES -> opts !! d = None) ->
        read_style w = (Ok style, w1) ->
        read_terms w1 = (Ok terms, w2) ->
        read_models w2 = (Ok models, w3) ->
        read_lenses w3 = (Ok lenses, w4) ->
        read_bot w4 = (Ok bot, w5) ->
        Conf.getDeployItems this opts w
        = if negb (List.length models =? 0)%nat || negb (List.length lenses =? 0)%nat then
            match Utils.pack (Conf.namespace this) models lenses with
            | Ok modelsPack =>
                Returns [("style", style);
                         ("terms", if truthy terms then terms else VNull);
                         ("modelsPack", modelsPack); ("bot", bot)] w5
            | Err e => Throws e w4
            end
          else
            Returns [("style", style);
                     ("terms", if truthy terms then terms else VNull);
                     ("bot", bot)] w5).
Proof.
  intros P opts command Hargs. split.
  - eexists. split; [apply (normalizeDeployOpts_without_args _ _ Hargs) |]. split.
    + intros Hall d Hd.
      assert (Hcond : truthy (Conf.opt "all" opts)
                      || (size (Conf.getDeployables opts) =? 0)%nat = true).
      { destruct Hall as [Hall|Hnone]; [now rewrite Hall |].
        apply getDeployables_none in Hnone. rewrite Hnone. apply orb_true_r. }
      rewrite Hcond. now apply union_all_lookup.
    + intros Hall (d & Hd & Hsome). rewrite Hall. simpl.
      destruct (Nat.eqb_spec (size (Conf.getDeployables opts)) 0) as [Hsize|_];
        [| reflexivity].
      exfalso. apply Hsome. now apply getDeployables_none.
  - intros W files this style terms bot models lenses w w1 w2 w3 w4 w5 Hnone.
    now apply getDeployItems_everything.
Qed.

Lemma normalizeDeployOpts_defaults_to_all_witness :
  Conf.isEmpty (Conf.opt "args" ({[ "all" := VBool true ]} : gmap string value)) = true /\
  exists normalized,
    @Conf.normalizeDeployOpts Scenario.node {[ "all" := VBool true ]} "deploy"
    = Ok normalized /\
    forall d, d ∈ Conf.DEPLOYABLES -> normalized !! d = Some (VBool true).
Proof.
  assert (Hargs : Conf.isEmpty (Conf.opt "args"
                                   ({[ "all" := VBool true ]} : gmap string value)) = true)
    by reflexivity.
  split; [exact Hargs |].
  destruct (proj1 (normalizeDeployOpts_defaults_to_all Scenario.node
                     {[ "all" := VBool true ]} "deploy" Hargs))
    as (normalized & Hn & Hall & _).
  exists normalized. split; [exact Hn |].
  intros d Hd. rewrite (Hall (or_introl eq_refl) d Hd).
  unfold Conf.DEPLOYABLES in Hd.
  repeat (apply elem_of_cons in Hd as [->|Hd]; [reflexivity |]).
  now apply elem_of_nil in Hd.
Defined.

(** C2, as stated, fails.  A request that selects nothing and does not set
    [all] is not refused: it is completed to select every deployable, and
    its items are all those of the project.  And with [all] set, a
    deployable that the options switch off stays off. *)
Lemma deploy_nothing_selected_deploys_all :
  @Conf.normalizeDeployOpts Scenario.node ∅ "deploy" = Ok Conf.DEPLOY_ALL_OPTS /\
  @Conf.getDeployItems _ Scenario.node Scenario.project_files
    (Scenario.remote_conf (Ok Scenario.succeeded)) ∅ []
  = Returns [("style", Scenario.style_json); ("terms", Scenario.terms_md);
             ("bot", Scenario.bot_json)]
            [Scenario.FileRead "./conf/style.json";
             Scenario.FileRead "./conf/terms-and-conditions.md";
             Scenario.FileRead "./models"; Scenario.FileRead "./lenses";
             Scenario.FileRead "./conf/bot.json"] /\
  exists normalized,
    @Conf.normalizeDeployOpts Scenario.node
      {[ "all" := VBool true; "bot" := VBool false ]} "deploy" = Ok normalized /\
    normalized !! "bot" = Some (VBool false).
Proof.
  split; [reflexivity |]. split; [vm_compute; reflexivity |].
  eexists. split; [reflexivity |]. reflexivity.
Qed.

(** ** Invoking a function *)

Section Invoke.
Import Aws.
Context {W : Type} `{Platform} `{Prompts W} `{Shell W}.
Variable this : @Conf.t W.
Variable opts : Conf.InvokeOpts.

Lemma ends_resolve {A} (a : A) : Spec.ends (resolve (W := W) a).
Proof. intros w. discriminate. Qed.

Lemma ends_throw {A} (e : object) : Spec.ends (throw (W := W) (A := A) e).
Proof. intros w. discriminate. Qed.

Lemma ends_call {A} (f : W -> outcome A * W) : Spec.ends (call f).
Proof. intros w. unfold call. now destruct (f w) as [[a|e] w']. Qed.

Lemma ends_lift {A} (o : outcome A) : Spec.ends (lift (W := W) o).
Proof. destruct o; [apply ends_resolve | apply ends_throw]. Qed.

Lemma ends_bind {A B} (m : M W A) (k : A -> M W B) :
  Spec.ends m -> (forall a, Spec.ends (k a)) -> Spec.ends (bind m k).
Proof.
  intros Hm Hk w. unfold bind. specialize (Hm w).
  destruct (m w) as [a w'|e w'|]; [apply Hk | discriminate | contradiction].
Qed.

Ltac ends :=
  repeat first
    [ apply ends_resolve | apply ends_throw | apply ends_call | apply ends_lift
    | apply ends_bind; [| intros ?]
    | match goal with
      | |- Spec.ends (if ?b then _ else _) => destruct b
      | |- Spec.ends (match ?x with _ => _ end) => destruct x
      end ].

Lemma _invoke_ends : Spec.ends (Conf._invoke this opts).
Proof. unfold Conf._invoke, Conf._ensureStackNameKnown. ends. Qed.

Lemma _invokeLocal_ends : Spec.ends (Conf._invokeLocal this opts).
Proof. unfold Conf._invokeLocal. ends. Qed.

Lemma underlying_ends : Spec.ends (Spec.underlying this opts).
Proof.
  unfold Spec.underlying.
  destruct (Spec.targets_local this opts); [apply _invokeLocal_ends | apply _invoke_ends].
Qed.

Hypothesis named : present (Conf.functionName opts) = true.

Lemma invoke_unfold (w : W) :
  Conf.invoke this opts w
  = match Spec.underlying this opts w with
    | Returns v w' => Returns {| Conf.error := None; Conf.result := Some v |} w'
    | Throws e w' => Returns {| Conf.error := Some e; Conf.result := None |} w'
    | OutOfFuel => OutOfFuel
    end.
Proof.
  unfold Conf.invoke, Spec.underlying, Spec.targets_local.
  rewrite named. simpl. unfold bind at 1, resolve at 1, try_catch, bind, resolve.
  destruct (default false _).
  - now destruct (Conf._invokeLocal this opts w).
  - now destruct (Conf._invoke this opts w).
Qed.

Lemma invokeAndReturn_unfold (w : W) :
  Conf.invokeAndReturn this opts w = Spec.underlying this opts w.
Proof.
  unfold Conf.invokeAndReturn, bind. rewrite invoke_unfold.
  now destruct (Spec.underlying this opts w).
Qed.

Lemma invoke_envelope (w : W) :
  exists envelope w',
    Conf.invoke this opts w = Returns envelope w' /\ Spec.exactly_one envelope.
Proof.
  rewrite invoke_unfold. pose proof (underlying_ends w) as Hends.
  destruct (Spec.underlying this opts w) as [v w'|e w'|]; [| | contradiction].
  - eexists _, _. split; [reflexivity |]. right. simpl. eauto.
  - eexists _, _. split; [reflexivity |]. left. simpl. eauto.
Qed.

(** What [_invoke] makes of the response, once the confirmation is past
    and the stack name is known. *)
Lemma _invoke_response (f : string) (response : InvocationResponse) (w w0 w1 : W) :
  Conf.functionName opts = Some f ->
  Spec.confirmation this opts w = Returns tt w0 ->
  Conf.remote this && negb (present (Conf.stackName this)) = false ->
  api_invoke (Conf.client_lambda this) (Spec.request this f (Conf.arg opts)) w0
  = (Ok response, w1) ->
  Conf._invoke this opts w
  = if present (FunctionError response) || (300 <=? StatusCode response)%Z then
      match (if present (Payload response) then Payload response
             else FunctionError response) with
      | Some m => Throws (new_Error m) w1
      | None => Throws (new_TypeError "Cannot read property 'toString' of undefined") w1
      end
    else
      match Payload response with
      | Some p => lift (JSON_parse p) w1
      | None => Throws (new_TypeError "Cannot read property 'toString' of undefined") w1
      end.
Proof.
  intros Hf Hconfirm Hstack Hcall.
  unfold Conf._invoke, Conf._ensureStackNameKnown.
  unfold Spec.confirmation in Hconfirm. unfold Spec.request in Hcall.
  unfold bind at 1. rewrite Hconfirm.
  unfold bind at 1. rewrite Hstack. unfold resolve at 1.
  rewrite Hf. unfold bind at 1, resolve at 1.
  unfold bind at 1, call at 1. rewrite Hcall.
  destruct (present (FunctionError response) || (300 <=? StatusCode response)%Z).
  - now destruct (if present (Payload response) then _ else _).
  - now destruct (Payload response).
Qed.

End Invoke.

(** C1.  Given a function name, [invoke] never throws: it returns an
    envelope that has [error] or [result] and not both.  When the local or
    remote invocation behind it throws, the envelope holds what was thrown
    and [invokeAndReturn] throws it; when it returns, the envelope holds
    what was returned and [invokeAndReturn] returns it.  In particular a
    remote response with a function error or a status of 300 or more gives
    [error], and any other response gives the parsed payload as
    [result]. *)
Theorem invoke_returns_an_envelope :
  forall (W : Type) (P : Platform) (prompts : Prompts W) (shell : Shell W)
         (this : @Conf.t W) (opts : Conf.InvokeOpts) (w : W),
    Aws.present (Conf.functionName opts) = true ->
    (exists envelope w',
        Conf.invoke this opts w = Returns envelope w' /\ Spec.exactly_one envelope) /\
    (forall e w',
        Spec.underlying this opts w = Throws e w' ->
        Conf.invoke this opts w
        = Returns {| Conf.error := Some e; Conf.result := None |} w' /\
        Conf.invokeAndReturn this opts w = Throws e w') /\
    (forall v w',
        Spec.underlying this opts w = Returns v w' ->
        Conf.invoke this opts w
        = Returns {| Conf.error := None; Conf.result := Some v |} w' /\
        Conf.invokeAndReturn this opts w = Returns v w') /\
    (forall f response w0 w1,
        Spec.targets_local this opts = false ->
        Conf.functionName opts = Some f ->
        Spec.confirmation this opts w = Returns tt w0 ->
        Conf.remote this && negb (Aws.present (Conf.stackName this)) = false ->
        Aws.api_invoke (Conf.client_lambda this) (Spec.request this f (Conf.arg opts)) w0
        = (Ok response, w1) ->
        (Aws.present (Aws.FunctionError response) = true \/
         (300 <= Aws.StatusCode response)%Z ->
         exists e,
           Conf.invoke this opts w
           = Returns {| Conf.error := Some e; Conf.result := None |} w1 /\
           Conf.invokeAndReturn this opts w = Throws e w1) /\
        (Aws.present (Aws.FunctionError response) = false ->
         (Aws.StatusCode response < 300)%Z ->
         forall p v,
           Aws.Payload response = Some p -> JSON_parse p = Ok v ->
           Conf.invoke this opts w
           = Returns {| Conf.error := None; Conf.result := Some v |} w1 /\
           Conf.invokeAndReturn this opts w = Returns v w1)).
Proof.
  intros W P prompts shell this opts w Hnamed.
  assert (Hthrows : forall e w',
             Spec.underlying this opts w = Throws e w' ->
             Conf.invoke this opts w
             = Returns {| Conf.error := Some e; Conf.result := None |} w' /\
             Conf.invokeAndReturn this opts w = Throws e w').
  { intros e w' Hu.
    rewrite (invokeAndReturn_unfold this opts Hnamed), (invoke_unfold this opts Hnamed).
    now rewrite Hu. }
  assert (Hreturns : forall v w',
             Spec.underlying this opts w = Returns v w' ->
             Conf.invoke this opts w
             = Returns {| Conf.error := None; Conf.result := Some v |} w' /\
             Conf.invokeAndReturn this opts w = Returns v w').
  { intros v w' Hu.
    rewrite (invokeAndReturn_unfold this opts Hnamed), (invoke_unfold this opts Hnamed).
    now rewrite Hu. }
  split; [now apply invoke_envelope |].
  split; [exact Hthrows |]. split; [exact Hreturns |].
  intros f response w0 w1 Hremote Hf Hconfirm Hstack Hcall.
  assert (Hu : Spec.underlying this opts w = Conf._invoke this opts w)
    by (unfold Spec.underlying; now rewrite Hremote).
  rewrite (_invoke_response this opts f response w w0 w1 Hf Hconfirm Hstack Hcall) in Hu.
  split.
  - intros Hfailed.
    assert (Hcond : Aws.present (Aws.FunctionError response)
                    || (300 <=? Aws.StatusCode response)%Z = true).
    { destruct Hfailed as [-> | Hs]; [reflexivity |].
      apply Z.leb_le in Hs. rewrite Hs. apply orb_true_r. }
    rewrite Hcond in Hu.
    destruct (if Aws.present (Aws.Payload response) then _ else _) as [m|];
      eexists; apply Hthrows; exact Hu.
  - intros Hok Hstatus p v Hp Hv.
    apply Z.ltb_lt in Hstatus. rewrite Z.ltb_antisym in Hstatus.
    apply negb_true_iff in Hstatus.
    rewrite Hok, Hstatus, Hp, Hv in Hu. apply Hreturns. exact Hu.
Qed.

Lemma invoke_returns_an_envelope_witness :
  Aws.present (Conf.functionName Scenario.run_cli) = true /\
  @Spec.underlying _ Scenario.node Scenario.confirming Scenario.no_emulator
    (Scenario.remote_conf (Ok Scenario.function_failed)) Scenario.run_cli []
  = Throws (new_Error "Task timed out")
           [Scenario.LambdaInvoked
              {| Aws.InvocationType := "RequestResponse";
                 Aws.FunctionName := "tdl-acme-ltd-dev-cli";
                 Aws.req_Payload := "{}" |}] /\
  @Conf.invoke _ Scenario.node Scenario.confirming Scenario.no_emulator
    (Scenario.remote_conf (Ok Scenario.function_failed)) Scenario.run_cli []
  = Returns {| Conf.error := Some (new_Error "Task timed out"); Conf.result := None |}
            [Scenario.LambdaInvoked
               {| Aws.InvocationType := "RequestResponse";
                  Aws.FunctionName := "tdl-acme-ltd-dev-cli";
                  Aws.req_Payload := "{}" |}] /\
  @Conf.invokeAndReturn _ Scenario.node Scenario.confirming Scenario.no_emulator
    (Scenario.remote_conf (Ok Scenario.function_failed)) Scenario.run_cli []
  = Throws (new_Error "Task timed out")
           [Scenario.LambdaInvoked
              {| Aws.InvocationType := "RequestResponse";
                 Aws.FunctionName := "tdl-acme-ltd-dev-cli";
                 Aws.req_Payload := "{}" |}].
Proof.
  split; [reflexivity |]. split; [reflexivity |].
  exact (proj1 (proj2 (invoke_returns_an_envelope _ Scenario.node Scenario.confirming
                         Scenario.no_emulator
                         (Scenario.remote_conf (Ok Scenario.function_failed))
                         Scenario.run_cli [] eq_refl))
               _ _ eq_refl).
Defined.

Example invoke_success :
  @Conf.invoke _ Scenario.node Scenario.confirming Scenario.no_emulator
    (Scenario.remote_conf (Ok Scenario.succeeded)) Scenario.run_cli []
  = Returns {| Conf.error := None; Conf.result := Some (VObj "Object" []) |}
            [Scenario.LambdaInvoked
               {| Aws.InvocationType := "RequestResponse";
                  Aws.FunctionName := "tdl-acme-ltd-dev-cli";
                  Aws.req_Payload := "{}" |}].
Proof. reflexivity. Qed.

Example invoke_sdk_rejects :
  @Conf.invoke _ Scenario.node Scenario.confirming Scenario.no_emulator
    (Scenario.remote_conf (Err (Scenario.error_of Scenario.access_denied)))
    Scenario.run_cli []
  = Returns {| Conf.error := Some (Scenario.error_of Scenario.access_denied);
               Conf.result := None |}
            [Scenario.LambdaInvoked
               {| Aws.InvocationType := "RequestResponse";
                  Aws.FunctionName := "tdl-acme-ltd-dev-cli";
                  Aws.req_Payload := "{}" |}].
Proof. reflexivity. Qed.

(** A deploy that selects nothing sends every item to [setconf]. *)
Example deploy_nothing_selected :
  exists items,
    @Conf.deploy _ Scenario.node Scenario.confirming Scenario.no_emulator
      Scenario.project_files (Scenario.remote_conf (Ok Scenario.succeeded)) ∅ []
    = Returns (VObj "Object" [])
        [Scenario.FileRead "./conf/style.json";
         Scenario.FileRead "./conf/terms-and-conditions.md";
         Scenario.FileRead "./models"; Scenario.FileRead "./lenses";
         Scenario.FileRead "./conf/bot.json";
         Scenario.LambdaInvoked
           {| Aws.InvocationType := "RequestResponse";
              Aws.FunctionName := "tdl-acme-ltd-dev-setconf";
              Aws.req_Payload := items |}].
Proof. eexists. vm_compute. reflexivity. Qed.

(* ===================================================================== *)
(** * Further properties *)
(* ===================================================================== *)

(** ** Shortening a string *)

Section ShortenString.
Context `{Platform}.

Lemma len_nonneg (s : string) : (0 <= Js.len s)%Z.
Proof. unfold Js.len. lia. Qed.

Lemma len_app (a b : string) : Js.len (a +:+ b) = (Js.len a + Js.len b)%Z.
Proof. unfold Js.len. rewrite str_length_app. lia. Qed.

Lemma len_take (n : nat) (s : string) :
  Js.len (Js.take n s) = Z.min (Z.of_nat n) (Js.len s).
Proof. unfold Js.len. rewrite take_length. lia. Qed.

(** [str.slice(0, stop)] with [stop] counted from the end. *)
Lemma slice_prefix_from_end (s : string) (n : Z) :
  (n < 0)%Z -> Js.slice s 0 n = Js.take (Z.to_nat (Js.len s + n)) s.
Proof.
  intros Hn. unfold Js.slice, Js.clamp_index.
  change (0 <? 0)%Z with false. cbv iota.
  destruct (Z.ltb_spec n 0) as [_|Hge]; [| lia].
  assert (H0 : Z.min 0 (Js.len s) = 0%Z) by (pose proof (len_nonneg s); lia).
  rewrite H0, Z.sub_0_r. change (Z.to_nat 0) with 0. simpl Js.drop.
  f_equal. lia.
Qed.

Lemma shortenString_fits (str : string) (maxLength : Z) :
  (Js.len str <= maxLength)%Z -> Utils.shortenString str maxLength = Ok str.
Proof.
  intros Hfit. unfold Utils.shortenString.
  destruct (Z.leb_spec (Js.len str - maxLength) 0); [reflexivity | lia].
Qed.

Lemma shortenString_cut (str : string) (maxLength : Z) :
  (maxLength < Js.len str)%Z -> (6 <= Js.len str)%Z ->
  Utils.shortenString str maxLength
  = Ok (Js.slice str 0 (maxLength - 6) +:+ Js.slice (sha256 str) 0 6).
Proof.
  intros Hlong Hsix. unfold Utils.shortenString.
  destruct (Z.leb_spec (Js.len str - maxLength) 0); [lia |].
  destruct (Z.ltb_spec (Js.len str) 6); [lia | reflexivity].
Qed.

Lemma shortenString_throws (str : string) (maxLength : Z) :
  (exists e, Utils.shortenString str maxLength = Err e) <->
  (maxLength < Js.len str < 6)%Z.
Proof.
  unfold Utils.shortenString.
  destruct (Z.leb_spec (Js.len str - maxLength) 0) as [Hfit|Hlong].
  - split; [intros [e He]; discriminate | lia].
  - destruct (Z.ltb_spec (Js.len str) 6) as [Hshort|Hsix].
    + split; [lia | eauto].
    + split; [intros [e He]; discriminate | lia].
Qed.

End ShortenString.

(** X1.  With a limit of 6 or more, [shortenString] always returns, and
    what it returns is no longer than the limit: the string itself when it
    fits, and otherwise its first [maxLength - 6] characters followed by
    the first 6 of its hash. *)
Theorem shortenString_within_limit :
  forall (P : Platform) (str : string) (maxLength : Z),
    (6 <= maxLength)%Z ->
    exists shorter,
      Utils.shortenString str maxLength = Ok shorter /\
      (Js.len shorter <= maxLength)%Z /\
      (Js.len str <= maxLength -> shorter = str)%Z /\
      (maxLength < Js.len str ->
       shorter = Js.take (Z.to_nat (maxLength - 6)) str +:+ Js.take 6 (sha256 str))%Z.
Proof.
  intros P str maxLength Hmax.
  destruct (Z.le_gt_cases (Js.len str) maxLength) as [Hfit|Hlong].
  - exists str. rewrite shortenString_fits by exact Hfit.
    repeat split; [exact Hfit | lia].
  - eexists. rewrite shortenString_cut by lia.
    rewrite !slice_prefix by lia. change (Z.to_nat 6) with 6.
    split; [reflexivity |]. split; [| split; [lia | reflexivity]].
    rewrite len_app, !len_take. pose proof (len_nonneg (sha256 str)). lia.
Qed.

Lemma shortenString_within_limit_witness :
  (6 <= 10)%Z /\
  exists shorter,
    @Utils.shortenString Scenario.node "international-widgets" 10 = Ok shorter /\
    (Js.len shorter <= 10)%Z /\
    (Js.len "international-widgets" <= 10 -> shorter = "international-widgets")%Z /\
    (10 < Js.len "international-widgets" ->
     shorter = Js.take (Z.to_nat (10 - 6)) "international-widgets"
               +:+ Js.take 6 (@sha256 Scenario.node "international-widgets"))%Z.
Proof.
  split; [lia |].
  apply (shortenString_within_limit Scenario.node "international-widgets" 10). lia.
Defined.

Example shortenString_to_10 :
  @Utils.shortenString Scenario.node "international-widgets" 10 = Ok "inte4befc4".
Proof. reflexivity. Qed.

(** X2.  [shortenString] throws exactly when the string is longer than the
    limit and shorter than 6 characters.  With a limit under 6, a string of
    6 characters or more is not shortened at all: the end index of the
    slice is negative and counts from the end, so the result is longer than
    the string by the limit. *)
Theorem shortenString_under_6 :
  forall (P : Platform) (str : string) (maxLength : Z),
    ((exists e, Utils.shortenString str maxLength = Err e) <->
     (maxLength < Js.len str < 6)%Z) /\
    ((0 <= maxLength < 6)%Z -> (6 <= Js.len str)%Z -> (6 <= Js.len (sha256 str))%Z ->
     exists longer,
       Utils.shortenString str maxLength = Ok longer /\
       Js.len longer = (Js.len str + maxLength)%Z).
Proof.
  intros P str maxLength. split; [apply shortenString_throws |].
  intros Hmax Hstr Hhash. eexists. rewrite shortenString_cut by lia.
  split; [reflexivity |].
  rewrite slice_prefix_from_end by lia. rewrite slice_prefix by lia.
  rewrite len_app, !len_take. change (Z.to_nat 6) with 6. lia.
Qed.

Lemma shortenString_under_6_witness :
  (0 <= 2 < 6)%Z /\ (6 <= Js.len "abcdefgh")%Z /\
  (6 <= Js.len (@sha256 Scenario.node "abcdefgh"))%Z /\
  exists longer,
    @Utils.shortenString Scenario.node "abcdefgh" 2 = Ok longer /\
    Js.len longer = (Js.len "abcdefgh" + 2)%Z.
Proof.
  assert (H1 : (0 <= 2 < 6)%Z) by lia.
  assert (H2 : (6 <= Js.len "abcdefgh")%Z) by (unfold Js.len; simpl; lia).
  assert (H3 : (6 <= Js.len (@sha256 Scenario.node "abcdefgh"))%Z)
    by (unfold Js.len; simpl; lia).
  split; [exact H1 |]. split; [exact H2 |]. split; [exact H3 |].
  exact (proj2 (shortenString_under_6 Scenario.node "abcdefgh" 2) H1 H2 H3).
Defined.

Example shortenString_lengthens :
  @Utils.shortenString Scenario.node "abcdefgh" 2 = Ok "abcde3b0c4".
Proof. reflexivity. Qed.

(** ** Cutting strings *)

Section Cutting.

Lemma drop_length (n : nat) (s : string) :
  String.length (Js.drop n s) = String.length s - n.
Proof.
  revert s; induction n as [|n IH]; intros [|c s]; simpl; try reflexivity; try lia.
  apply IH.
Qed.

Lemma length_0 (s : string) : String.length s = 0 -> s = "".
Proof. now destruct s. Qed.

Lemma slice_from_drop (s : string) (n : Z) :
  (0 <= n)%Z -> Js.slice_from s n = Js.drop (Z.to_nat n) s.
Proof.
  intros Hn. unfold Js.slice_from, Js.slice, Js.clamp_index.
  pose proof (len_nonneg s) as Hlen.
  destruct (Z.ltb_spec n 0) as [Hneg|_]; [lia |].
  destruct (Z.ltb_spec (Js.len s) 0) as [Hneg|_]; [lia |].
  rewrite Z.min_id.
  destruct (Z.le_gt_cases n (Js.len s)) as [Hin|Hout].
  - rewrite (Z.min_l n) by lia. apply take_all.
    rewrite drop_length. unfold Js.len in *. lia.
  - rewrite (Z.min_r n) by lia.
    replace (Z.to_nat (Z.max (Js.len s - Js.len s) 0)) with 0 by lia.
    simpl Js.take. symmetry. apply length_0.
    rewrite drop_length. unfold Js.len in *. lia.
Qed.

Lemma drop_S (n : nat) (s : string) :
  n < String.length s ->
  exists c, Js.drop n s = String c (Js.drop (S n) s).
Proof.
  revert s; induction n as [|n IH]; intros [|c s] Hn; simpl in *; try lia.
  - now exists c.
  - apply IH. lia.
Qed.

End Cutting.

(** X3.  [splitOnCharAtIdx] at an index inside the string gives what is
    before the character at that index and what is after it: the two
    halves with that one character between them are the string again, and
    the first half has [idx] characters. *)
Theorem splitOnCharAtIdx_around_index :
  forall (str : string) (idx : Z),
    (0 <= idx < Js.len str)%Z ->
    exists c,
      str = (Utils.splitOnCharAtIdx str idx).1
            +:+ String c (Utils.splitOnCharAtIdx str idx).2 /\
      Js.len (Utils.splitOnCharAtIdx str idx).1 = idx.
Proof.
  intros str idx Hidx. unfold Utils.splitOnCharAtIdx. simpl.
  rewrite slice_prefix by lia. rewrite slice_from_drop by lia.
  destruct (drop_S (Z.to_nat idx) str) as [c Hc]; [unfold Js.len in Hidx; lia |].
  exists c. replace (Z.to_nat (idx + 1)) with (S (Z.to_nat idx)) by lia.
  rewrite <- Hc, take_drop. split; [reflexivity |].
  rewrite len_take. lia.
Qed.

Lemma splitOnCharAtIdx_around_index_witness :
  (0 <= 3 < Js.len "key=value")%Z /\
  exists c,
    "key=value" = (Utils.splitOnCharAtIdx "key=value" 3).1
                  +:+ String c (Utils.splitOnCharAtIdx "key=value" 3).2 /\
    Js.len (Utils.splitOnCharAtIdx "key=value" 3).1 = 3%Z.
Proof.
  assert (H : (0 <= 3 < Js.len "key=value")%Z) by (unfold Js.len; simpl; lia).
  split; [exact H |].
  exact (splitOnCharAtIdx_around_index "key=value" 3 H).
Defined.

Example splitOnCharAtIdx_key_value :
  Utils.splitOnCharAtIdx "key=value" 3 = ("key", "value").
Proof. reflexivity. Qed.

(** ** Splitting strings *)

Section Splitting.

Lemma includes_char_cons (c x : ascii) (s : string) :
  Js.includes (String x s) (String c "")
  = Ascii.eqb c x || Js.includes s (String c "").
Proof. simpl. now destruct (Ascii.eqb c x), s. Qed.

Lemma includes_char_app (c : ascii) (a b : string) :
  Js.includes (a +:+ b) (String c "")
  = Js.includes a (String c "") || Js.includes b (String c "").
Proof.
  induction a as [|x a IH].
  - rewrite app_nil_l. reflexivity.
  - rewrite app_cons, !includes_char_cons, IH. now rewrite orb_assoc.
Qed.

Lemma split_from_nonempty (sep : string) (skip : nat) (s : string) :
  Js.split_from sep skip s <> [].
Proof.
  revert skip; induction s as [|x s IH]; intros skip; simpl; [discriminate |].
  destruct skip as [|k]; [| apply IH].
  destruct (Js.startsWith (String x s) sep); [discriminate |].
  unfold Js.push. now destruct (Js.split_from sep 0 s).
Qed.

(** A string in which the separator does not occur is one part. *)
Lemma split_from_free (sep s : string) :
  Js.includes s sep = false -> Js.split_from sep 0 s = [s].
Proof.
  induction s as [|x s IH]; intros Hfree; [reflexivity |].
  simpl in Hfree. apply orb_false_elim in Hfree as [Hstart Hrest].
  cbn [Js.split_from]. rewrite Hstart, IH by exact Hrest. reflexivity.
Qed.

(** The part before the first separator. *)
Lemma split_from_prefix (c : ascii) (a b : string) :
  Js.includes a (String c "") = false ->
  Js.split_from (String c "") 0 (a +:+ b)
  = match Js.split_from (String c "") 0 b with
    | part :: rest => (a +:+ part) :: rest
    | [] => [a]
    end.
Proof.
  induction a as [|x a IH]; intros Hfree.
  - rewrite app_nil_l. pose proof (split_from_nonempty (String c "") 0 b).
    now destruct (Js.split_from (String c "") 0 b).
  - rewrite includes_char_cons in Hfree.
    apply orb_false_elim in Hfree as [Hx Hfree].
    rewrite app_cons. cbn [Js.split_from Js.startsWith]. rewrite Hx.
    rewrite IH by exact Hfree.
    pose proof (split_from_nonempty (String c "") 0 b).
    now destruct (Js.split_from (String c "") 0 b).
Qed.

Lemma split_from_separator (c : ascii) (b : string) :
  Js.split_from (String c "") 0 (String c b)
  = "" :: Js.split_from (String c "") 0 b.
Proof. cbn [Js.split_from Js.startsWith]. now rewrite Ascii.eqb_refl. Qed.

Lemma split_char_cons (c : ascii) (a b : string) :
  Js.includes a (String c "") = false ->
  Js.split (a +:+ String c "" +:+ b) (String c "")
  = a :: Js.split b (String c "").
Proof.
  intros Hfree. unfold Js.split.
  rewrite split_from_prefix by exact Hfree.
  change (String c "" +:+ b) with (String c b).
  rewrite split_from_separator. now rewrite app_empty_r.
Qed.

Lemma split_char_free (c : ascii) (a : string) :
  Js.includes a (String c "") = false -> Js.split a (String c "") = [a].
Proof. intros Hfree. unfold Js.split. now apply split_from_free. Qed.

End Splitting.

(** X4.  [parseStackArn] reads back the region, the account and the stack
    name of a stack ARN,
    [arn:<partition>:<service>:<region>:<account>:<kind>/<name>/<id>],
    whatever these are, as long as no ":" occurs in the fields and no "/"
    in the kind and the name. *)
Theorem parseStackArn_reads_back :
  forall partition service region accountId kind stackName id,
    Spec.free_of ":" partition -> Spec.free_of ":" service ->
    Spec.free_of ":" region -> Spec.free_of ":" accountId ->
    Spec.free_of ":" kind -> Spec.free_of ":" stackName -> Spec.free_of ":" id ->
    Spec.free_of "/" kind -> Spec.free_of "/" stackName ->
    Utils.parseStackArn
      ("arn" +:+ ":" +:+ partition +:+ ":" +:+ service +:+ ":" +:+ region +:+ ":"
       +:+ accountId +:+ ":" +:+ kind +:+ "/" +:+ stackName +:+ "/" +:+ id)
    = Ok {| Utils.arn_region := Some region;
            Utils.arn_accountId := Some accountId;
            Utils.arn_stackName := Some stackName |}.
Proof.
  unfold Spec.free_of.
  intros partition service region accountId kind stackName id
         Hp Hs Hr Ha Hk Hn Hi Hk' Hn'.
  unfold Utils.parseStackArn.
  rewrite (split_char_cons ":" "arn") by reflexivity.
  rewrite (split_char_cons ":" partition) by exact Hp.
  rewrite (split_char_cons ":" service) by exact Hs.
  rewrite (split_char_cons ":" region) by exact Hr.
  rewrite (split_char_cons ":" accountId) by exact Ha.
  rewrite (split_char_free ":").
  2: { rewrite !includes_char_app, Hk, Hn, Hi. reflexivity. }
  cbn [Utils.Array_slice_from skipn nth_error].
  rewrite (split_char_cons "/" kind) by exact Hk'.
  rewrite (split_char_cons "/" stackName) by exact Hn'.
  reflexivity.
Qed.

Lemma parseStackArn_reads_back_witness :
  Utils.parseStackArn
    ("arn" +:+ ":" +:+ "aws" +:+ ":" +:+ "cloudformation" +:+ ":" +:+ "us-east-1" +:+ ":"
     +:+ "123456789012" +:+ ":" +:+ "stack" +:+ "/" +:+ "tdl-acme-ltd-dev" +:+ "/"
     +:+ "d8d99a40-c13f-11e8")
  = Ok {| Utils.arn_region := Some "us-east-1";
          Utils.arn_accountId := Some "123456789012";
          Utils.arn_stackName := Some "tdl-acme-ltd-dev" |}.
Proof.
  apply (parseStackArn_reads_back "aws" "cloudformation" "us-east-1" "123456789012"
           "stack" "tdl-acme-ltd-dev" "d8d99a40-c13f-11e8"); reflexivity.
Defined.

Example parseStackArn_without_colons :
  Utils.parseStackArn "tdl-acme-ltd-dev"
  = Err (new_TypeError "Cannot read property 'split' of undefined").
Proof. reflexivity. Qed.

(** ** Camel case *)

Section CamelCase.

Lemma join_cons (part : string) (rest : list string) :
  Js.join "" (part :: rest) = part +:+ Js.join "" rest.
Proof.
  unfold Js.join. destruct rest as [|next rest]; simpl.
  - now rewrite app_empty_r.
  - reflexivity.
Qed.

(** What [split_before_upper] returns: a first part with no capital
    letter, then parts that each begin with one and hold no other. *)
Lemma split_before_upper_parts (s : string) :
  exists first rest,
    Js.split_before_upper s = first :: rest /\
    Js.all_chars (fun c => negb (Js.is_upper c)) first = true /\
    Forall (fun part => Spec.capitalised part /\ Spec.one_word part) rest /\
    first +:+ Js.join "" rest = s.
Proof.
  induction s as [|c s (first & rest & Hsplit & Hfirst & Hrest & Hjoin)].
  - exists "", []. repeat split; constructor.
  - cbn [Js.split_before_upper]. rewrite Hsplit. cbn [Js.push].
    destruct (Js.is_upper c) eqn:Hc.
    + exists "", (String c first :: rest). split; [reflexivity |].
      split; [reflexivity |]. split.
      * constructor; [| exact Hrest]. split; [now exists c, first | exact Hfirst].
      * rewrite join_cons, app_nil_l, app_cons. now rewrite Hjoin.
    + exists (String c first), rest. split; [reflexivity |]. split.
      * simpl. now rewrite Hc, Hfirst.
      * split; [exact Hrest |]. rewrite app_cons. now rewrite Hjoin.
Qed.

Lemma capitalize_rest_nonempty `{Casing} (first : bool) (parts : list string) :
  Forall (fun part => part <> "") parts ->
  exists parts', Utils.capitalize_rest first parts = Ok parts'.
Proof.
  intros Hparts. revert first.
  induction Hparts as [|part parts Hpart _ IH]; intros first; [now exists [] |].
  cbn [Utils.capitalize_rest].
  destruct (IH false) as [rest' ->].
  destruct first; [now eexists |].
  destruct part as [|c part]; [congruence |]. now eexists.
Qed.

Lemma filter_nonempty (parts : list string) :
  Forall (fun part => part <> "")
         (List.filter (fun part => negb (String.eqb part "")) parts).
Proof.
  apply List.Forall_forall. intros part Hin.
  apply List.filter_In in Hin as [_ Hne].
  intros ->. discriminate.
Qed.

Lemma fold_left_undefined (args : list value) (acc : value) :
  args <> [] -> fold_left (fun _ _ => VUndefined) args acc = VUndefined.
Proof.
  revert acc; induction args as [|a args IH]; intros acc Hne; [congruence |].
  simpl. destruct args as [|b args]; [reflexivity |]. now apply IH.
Qed.

End CamelCase.

(** X5.  [splitCamelCase] cuts a string before each capital letter after
    its first character and nowhere else: the parts put together are the
    string, every part after the first begins with a capital letter, and
    no part has a capital letter after its first character.  No part of a
    string that is not empty is empty. *)
Theorem splitCamelCase_cuts_at_capitals :
  forall str : string,
    Js.join "" (Utils.splitCamelCase str) = str /\
    Forall Spec.one_word (Utils.splitCamelCase str) /\
    Forall Spec.capitalised (List.tail (Utils.splitCamelCase str)) /\
    (str <> "" -> Forall (fun part => part <> "") (Utils.splitCamelCase str)).
Proof.
  intros [|c s]; unfold Utils.splitCamelCase.
  - repeat split; [repeat constructor | constructor | congruence].
  - cbn [Js.split_at_capitals].
    destruct (split_before_upper_parts s) as (first & rest & -> & Hfirst & Hrest & Hjoin).
    cbn [Js.push List.tail]. split; [| split; [| split]].
    + rewrite join_cons, app_cons. now rewrite Hjoin.
    + constructor; [exact Hfirst |].
      eapply List.Forall_impl; [| exact Hrest]. now intros part [_ Hword].
    + eapply List.Forall_impl; [| exact Hrest]. now intros part [Hcap _].
    + intros _. constructor; [discriminate |].
      eapply List.Forall_impl; [| exact Hrest].
      intros part [(x & r & -> & _) _]. discriminate.
Qed.

Example splitCamelCase_example :
  Utils.splitCamelCase "myCloudStackName" = ["my"; "Cloud"; "Stack"; "Name"]
  /\ Utils.splitCamelCase "ABc" = ["A"; "Bc"].
Proof. split; reflexivity. Qed.

(** X6.  [toCamelCase] never throws: the empty parts, on which [capFirst]
    would fail, are filtered out before it is called.  A string in which
    the delimiter does not occur is returned as it is. *)
Theorem toCamelCase_total :
  forall (C : Casing) (str delimiter : string),
    (exists camel, Utils.toCamelCase str delimiter = Ok camel) /\
    (Js.includes str delimiter = false -> Utils.toCamelCase str delimiter = Ok str).
Proof.
  intros C str delimiter. split.
  - unfold Utils.toCamelCase.
    destruct (capitalize_rest_nonempty true _
                (filter_nonempty (Js.split str delimiter))) as [parts' ->].
    now eexists.
  - intros Hfree. unfold Utils.toCamelCase, Js.split.
    destruct delimiter as [|d delimiter]; [now destruct str |].
    rewrite split_from_free by exact Hfree.
    destruct str as [|c str]; reflexivity.
Qed.

Lemma toCamelCase_total_witness :
  Js.includes "stack" " " = false /\
  @Utils.toCamelCase Scenario.ascii_casing "stack" " " = Ok "stack".
Proof.
  split; [reflexivity |].
  apply (proj2 (toCamelCase_total Scenario.ascii_casing "stack" " ")). reflexivity.
Defined.

Example toCamelCase_example :
  @Utils.toCamelCase Scenario.ascii_casing "my  cloud stack " " " = Ok "myCloudStack".
Proof. reflexivity. Qed.

(** X7.  [xor] never returns a truthy value: its reducer returns nothing,
    so the result is [false] without arguments and [undefined] with any. *)
Theorem xor_never_truthy :
  forall args : list value,
    truthy (Utils.xor args) = false /\
    Utils.xor args = match args with [] => VBool false | _ :: _ => VUndefined end.
Proof.
  intros args. unfold Utils.xor. destruct args as [|a args]; [now split |].
  rewrite fold_left_undefined by discriminate. now split.
Qed.

(** ** Local or remote *)

Section LocalOrRemote.
Context `{FileSystem}.

Lemma present_project (project : option string) :
  Aws.present project = true -> exists dir, project = Some dir.
Proof. destruct project as [dir|]; [now exists dir | discriminate]. Qed.

Lemma isLocal_asked (opts : Utils.ConfOpts) (local : bool) :
  Utils.co_local opts = Some true ->
  Utils.isLocal opts = Ok local ->
  local = true /\ Utils.co_remote opts <> Some true /\
  exists dir, Utils.co_project opts = Some dir /\ Utils.isValidProjectPath dir = true.
Proof.
  unfold Utils.isLocal. intros ->. simpl.
  destruct (Utils.co_remote opts) as [[|]|]; simpl; try discriminate.
  all: destruct (Aws.present (Utils.co_project opts)) eqn:Hp; simpl; try discriminate.
  all: apply present_project in Hp as [dir Hdir]; rewrite Hdir; simpl.
  all: destruct (Utils.isValidProjectPath dir) eqn:Hvalid; simpl; try discriminate.
  all: intros [= <-]; split; [reflexivity |]; split; [congruence | now exists dir].
Qed.

Lemma isLocal_not_asked (opts : Utils.ConfOpts) :
  Utils.co_local opts <> Some true ->
  Utils.isLocal opts
  = Ok (match Utils.co_remote opts with
        | Some remote => negb remote
        | None => Aws.present (Utils.co_project opts)
        end).
Proof.
  unfold Utils.isLocal. intros Hlocal.
  destruct (Utils.co_local opts) as [[|]|]; [congruence | |];
    now destruct (Utils.co_remote opts).
Qed.

End LocalOrRemote.

(** X8.  The options [normalizeConfOpts] returns say local or remote, one
    and not the other, and are otherwise the options given.  They say
    local when local was asked for, and then remote was not and the
    project holds a serverless.yml; when local was not asked for, they say
    the opposite of remote if that was given, and otherwise local exactly
    when a project was given. *)
Theorem normalizeConfOpts_one_target :
  forall (F : FileSystem) (opts normalized : Utils.ConfOpts),
    Utils.normalizeConfOpts opts = Ok normalized ->
    exists local : bool,
      Utils.co_local normalized = Some local /\
      Utils.co_remote normalized = Some (negb local) /\
      Utils.co_project normalized = Utils.co_project opts /\
      Utils.co_others normalized = Utils.co_others opts /\
      (Utils.co_local opts = Some true ->
       local = true /\ Utils.co_remote opts <> Some true /\
       exists dir, Utils.co_project opts = Some dir /\
                   Utils.isValidProjectPath dir = true) /\
      (Utils.co_local opts <> Some true ->
       local = match Utils.co_remote opts with
               | Some remote => negb remote
               | None => Aws.present (Utils.co_project opts)
               end).
Proof.
  intros F opts normalized. unfold Utils.normalizeConfOpts.
  destruct (Utils.isLocal opts) as [local|e] eqn:Hlocal; [| discriminate].
  intros [= <-]. exists local. simpl. repeat split; try reflexivity.
  - now apply (isLocal_asked opts local).
  - apply (isLocal_asked opts local); assumption.
  - apply (isLocal_asked opts local); assumption.
  - intros Hnot. rewrite isLocal_not_asked in Hlocal by exact Hnot. congruence.
Qed.

Lemma normalizeConfOpts_one_target_witness :
  let opts := {| Utils.co_local := Some true; Utils.co_remote := None;
                 Utils.co_project := Some "/home/acme/serverless";
                 Utils.co_others := [("region", VStr "us-east-1")] |} in
  exists local : bool,
    local = true /\
    @Utils.normalizeConfOpts (Scenario.one_project "/home/acme/serverless") opts
    = Ok {| Utils.co_local := Some local; Utils.co_remote := Some (negb local);
            Utils.co_project := Utils.co_project opts;
            Utils.co_others := Utils.co_others opts |}.
Proof.
  intros opts.
  destruct (normalizeConfOpts_one_target
              (Scenario.one_project "/home/acme/serverless") opts
              {| Utils.co_local := Some true; Utils.co_remote := Some false;
                 Utils.co_project := Some "/home/acme/serverless";
                 Utils.co_others := [("region", VStr "us-east-1")] |} eq_refl)
    as (local & Hl & _).
  exists local. simpl in Hl. split; [congruence |].
  injection Hl as <-. reflexivity.
Defined.

(** X9.  [normalizeConfOpts] does not check the project when local was
    not asked for: with remote given as false, or with no remote and a
    project, the result says local whatever the project is.  When the
    project is missing, or holds no serverless.yml, the options returned
    are ones that [normalizeConfOpts] itself rejects. *)
Theorem normalizeConfOpts_unchecked_project :
  forall (F : FileSystem) (opts : Utils.ConfOpts),
    Utils.co_local opts <> Some true ->
    (Utils.co_remote opts = Some false \/
     (Utils.co_remote opts = None /\ Aws.present (Utils.co_project opts) = true)) ->
    exists normalized,
      Utils.normalizeConfOpts opts = Ok normalized /\
      Utils.co_local normalized = Some true /\
      ((Aws.present (Utils.co_project opts) = false \/
        Utils.isValidProjectPath (default "" (Utils.co_project opts)) = false) ->
       exists e, Utils.normalizeConfOpts normalized = Err e).
Proof.
  intros F opts Hnot Hremote. unfold Utils.normalizeConfOpts at 1.
  rewrite isLocal_not_asked by exact Hnot.
  assert (Hlocal : match Utils.co_remote opts with
                   | Some remote => negb remote
                   | None => Aws.present (Utils.co_project opts)
                   end = true).
  { destruct Hremote as [-> | [-> ->]]; reflexivity. }
  rewrite Hlocal. eexists. split; [reflexivity |]. split; [reflexivity |].
  intros Hproject. unfold Utils.normalizeConfOpts, Utils.isLocal. simpl.
  destruct Hproject as [-> | Hvalid]; simpl; [now eexists |].
  destruct (Aws.present (Utils.co_project opts)); simpl; [| now eexists].
  rewrite Hvalid. simpl. now eexists.
Qed.

Lemma normalizeConfOpts_unchecked_project_witness :
  let opts := {| Utils.co_local := None; Utils.co_remote := Some false;
                 Utils.co_project := None; Utils.co_others := [] |} in
  exists normalized,
    @Utils.normalizeConfOpts (Scenario.one_project "/home/acme/serverless") opts
    = Ok normalized /\
    Utils.co_local normalized = Some true /\
    exists e,
      @Utils.normalizeConfOpts (Scenario.one_project "/home/acme/serverless") normalized
      = Err e.
Proof.
  intros opts.
  destruct (normalizeConfOpts_unchecked_project
              (Scenario.one_project "/home/acme/serverless") opts
              ltac:(discriminate) (or_introl eq_refl))
    as (normalized & Hn & Hl & He).
  exists normalized. split; [exact Hn |]. split; [exact Hl |].
  apply He. left. reflexivity.
Defined.

(** ** Node flags *)

Section NodeFlags.
Context `{NodeProcess}.

Lemma flag_insert (k : string) (v : value) (flags : gmap string value) :
  Utils.flag k (<[k := v]> flags) = v.
Proof. unfold Utils.flag. now rewrite lookup_insert_eq. Qed.

Lemma flag_insert_ne (k k' : string) (v : value) (flags : gmap string value) :
  k <> k' -> Utils.flag k' (<[k := v]> flags) = Utils.flag k' flags.
Proof. intros Hne. unfold Utils.flag. now rewrite lookup_insert_ne. Qed.

Lemma flag_delete (k : string) (flags : gmap string value) :
  Utils.flag k (delete k flags) = VUndefined.
Proof. unfold Utils.flag. now rewrite lookup_delete_eq. Qed.

Lemma flag_delete_ne (k k' : string) (flags : gmap string value) :
  k <> k' -> Utils.flag k' (delete k flags) = Utils.flag k' flags.
Proof. intros Hne. unfold Utils.flag. now rewrite lookup_delete_ne. Qed.

End NodeFlags.

Ltac flags :=
  repeat first
    [ rewrite flag_insert
    | rewrite flag_delete
    | rewrite flag_insert_ne by discriminate
    | rewrite flag_delete_ne by discriminate ].

Section NodeVersion.

Lemma slice_second_char (v d : ascii) (rest : string) :
  Js.slice (String v (String d rest)) 1 2 = String d "".
Proof.
  unfold Js.slice, Js.clamp_index.
  assert (Hlen : Js.len (String v (String d rest)) = (2 + Js.len rest)%Z)
    by (unfold Js.len; simpl String.length; lia).
  rewrite Hlen. pose proof (len_nonneg rest) as Hrest.
  change (1 <? 0)%Z with false. change (2 <? 0)%Z with false. cbv iota.
  rewrite (Z.min_l 1), (Z.min_l 2) by lia. reflexivity.
Qed.

Lemma normalizeNodeFlags_old `{NodeProcess} (flags : gmap string value) :
  (match Utils.Number_of_char (Js.slice process_version 1 2) with
   | Some n => (8 <=? n)%Z
   | None => false
   end) = false ->
  truthy (Utils.flag "debug" flags) || truthy (Utils.flag "debug-brk" flags) = true ->
  Utils.normalizeNodeFlags flags = <["inspect" := VBool true]> flags.
Proof.
  intros Hold Hdebug. unfold Utils.normalizeNodeFlags. rewrite Hold, Hdebug.
  apply orb_true_iff in Hdebug as [Hd | Hd]; rewrite Hd;
    now rewrite ?orb_true_r.
Qed.

End NodeVersion.

(** X10.  [normalizeNodeFlags] turns the old debugging flags into the new
    ones: when [debug] is set, [inspect] is set afterwards, and when
    [debug-brk] is set, [inspect] or [inspect-brk] is.  Without [debug]
    and [debug-brk] the flags are left as they are, and no other flag than
    these four is ever touched. *)
Theorem normalizeNodeFlags_debug_to_inspect :
  forall (P : NodeProcess) (flags : gmap string value),
    (truthy (Utils.flag "debug" flags) = false ->
     truthy (Utils.flag "debug-brk" flags) = false ->
     Utils.normalizeNodeFlags flags = flags) /\
    (truthy (Utils.flag "debug" flags) = true ->
     truthy (Utils.flag "inspect" (Utils.normalizeNodeFlags flags)) = true) /\
    (truthy (Utils.flag "debug-brk" flags) = true ->
     truthy (Utils.flag "inspect" (Utils.normalizeNodeFlags flags))
     || truthy (Utils.flag "inspect-brk" (Utils.normalizeNodeFlags flags)) = true) /\
    (forall k, k <> "debug" -> k <> "debug-brk" -> k <> "inspect" -> k <> "inspect-brk" ->
               Utils.normalizeNodeFlags flags !! k = flags !! k).
Proof.
  intros P flags. unfold Utils.normalizeNodeFlags. cbv zeta.
  destruct (Utils.Number_of_char (Js.slice process_version 1 2)) as [n|];
    [destruct (8 <=? n)%Z |].
  all: destruct (truthy (Utils.flag "debug" flags)) eqn:Hd; flags.
  all: destruct (truthy (Utils.flag "debug-brk" flags)) eqn:Hb.
  all: destruct (truthy (Utils.flag "inspect" flags)) eqn:Hi.
  all: destruct (truthy (Utils.flag "inspect-brk" flags)) eqn:Hib.
  all: cbn [negb orb].
  all: repeat split; intros; try discriminate; try reflexivity.
  all: flags; rewrite ?Hi, ?Hib; try reflexivity.
  all: repeat first [ rewrite lookup_insert_ne by congruence
                    | rewrite lookup_delete_ne by congruence ]; reflexivity.
Qed.

Lemma normalizeNodeFlags_debug_to_inspect_witness :
  truthy (Utils.flag "debug" {[ "debug" := VBool true ]}) = true /\
  truthy (Utils.flag "inspect"
            (@Utils.normalizeNodeFlags (Scenario.node_version "v8.10.0")
               {[ "debug" := VBool true ]})) = true.
Proof.
  assert (Hdebug : truthy (Utils.flag "debug" {[ "debug" := VBool true ]}) = true)
    by reflexivity.
  split; [exact Hdebug |].
  exact (proj1 (proj2 (normalizeNodeFlags_debug_to_inspect
                         (Scenario.node_version "v8.10.0")
                         {[ "debug" := VBool true ]})) Hdebug).
Defined.

(** X11.  [normalizeNodeFlags] reads one digit of the version of Node, the
    character after the "v".  When that is 8 or 9, no [debug] and no
    [debug-brk] is left set.  When it is 1, as for the versions 10 to 19,
    Node is taken to be older than 8: the flags given are kept, and
    [inspect] is added for [debug] and for [debug-brk] alike. *)
Theorem normalizeNodeFlags_reads_one_digit :
  forall (P : NodeProcess) (flags : gmap string value) (d : ascii) (rest : string),
    process_version = String "v" (String d rest) ->
    ((d = "8"%char \/ d = "9"%char) ->
     truthy (Utils.flag "debug" (Utils.normalizeNodeFlags flags)) = false /\
     truthy (Utils.flag "debug-brk" (Utils.normalizeNodeFlags flags)) = false) /\
    (d = "1"%char ->
     truthy (Utils.flag "debug" flags) || truthy (Utils.flag "debug-brk" flags) = true ->
     Utils.normalizeNodeFlags flags = <["inspect" := VBool true]> flags).
Proof.
  intros P flags d rest Hversion. split.
  - intros Hd. unfold Utils.normalizeNodeFlags. cbv zeta.
    rewrite Hversion, slice_second_char.
    assert (Hnew : match Utils.Number_of_char (String d "") with
                   | Some n => (8 <=? n)%Z
                   | None => false
                   end = true) by (destruct Hd as [-> | ->]; reflexivity).
    rewrite Hnew.
    destruct (truthy (Utils.flag "debug" flags)) eqn:Hdebug; flags.
    all: destruct (truthy (Utils.flag "debug-brk" flags)) eqn:Hbrk.
    all: destruct (truthy (Utils.flag "inspect" flags)) eqn:Hi.
    all: destruct (truthy (Utils.flag "inspect-brk" flags)) eqn:Hib.
    all: cbn [negb orb]; flags; rewrite ?Hdebug, ?Hbrk; now split.
  - intros -> Hdebug. apply normalizeNodeFlags_old; [| exact Hdebug].
    now rewrite Hversion, slice_second_char.
Qed.

Lemma normalizeNodeFlags_reads_one_digit_witness :
  @process_version (Scenario.node_version "v12.16.1") = String "v" (String "1" "2.16.1") /\
  @Utils.normalizeNodeFlags (Scenario.node_version "v12.16.1")
     {[ "debug-brk" := VBool true ]}
  = <["inspect" := VBool true]> {[ "debug-brk" := VBool true ]}.
Proof.
  split; [reflexivity |].
  apply (proj2 (normalizeNodeFlags_reads_one_digit
                  (Scenario.node_version "v12.16.1")
                  {[ "debug-brk" := VBool true ]} "1" "2.16.1" eq_refl));
    reflexivity.
Defined.

(** ** Constructing a configuration *)

Ltac booleans :=
  cbn [from_option andb orb negb]; unfold id; cbn [andb orb negb].

(** X12.  What the constructor of [Conf] lets through.  A configuration
    that is local is not remote, and its project holds a serverless.yml.
    One asked to be remote is remote and has no node flags at all.  One
    asked to be neither is remote exactly when it has no project, so with
    a project alone it is neither local nor remote. *)
Theorem constructor_local_or_remote :
  forall (F : FileSystem) (P : NodeProcess)
         (opts : Conf.ConstructorOpts) (conf : Conf.Constructed),
    Conf.constructor opts = Ok conf ->
    (Conf.new_local conf = Some true ->
     Conf.new_remote conf = false /\
     exists dir, Conf.new_project conf = Some dir /\
                 Utils.isValidProjectPath dir = true) /\
    (Conf.given_remote opts = Some true ->
     Conf.new_remote conf = true /\ Conf.new_nodeFlags conf = ∅) /\
    (Conf.given_local opts <> Some true -> Conf.given_remote opts <> Some true ->
     Conf.new_local conf <> Some true /\
     Conf.new_remote conf = negb (Aws.present (Conf.given_project opts))).
Proof.
  intros F P opts conf. unfold Conf.constructor. cbv zeta.
  destruct (Conf.given_local opts) as [[|]|];
    destruct (Conf.given_remote opts) as [[|]|]; booleans.
  all: try discriminate.
  all: try (destruct (Aws.present (Conf.given_project opts)) eqn:Hp;
            booleans; [| discriminate];
            apply present_project in Hp as [dir Hdir]; rewrite Hdir;
            booleans;
            destruct (Utils.isValidProjectPath dir) eqn:Hvalid;
            booleans; [| discriminate]).
  all: try (destruct (size _ =? 0)%nat eqn:Hsize; booleans; [| discriminate];
            apply Nat.eqb_eq, map_size_empty_iff in Hsize).
  all: intros [= <-]; cbn.
  all: repeat split; try congruence; try discriminate; eauto.
Qed.

Lemma constructor_local_or_remote_witness :
  let opts := {| Conf.given_local := None; Conf.given_remote := None;
                 Conf.given_project := Some "/home/acme/serverless";
                 Conf.given_nodeFlags := None |} in
  exists conf,
    @Conf.constructor (Scenario.one_project "/home/acme/serverless")
                      (Scenario.node_version "v8.10.0") opts = Ok conf /\
    Conf.new_local conf <> Some true /\ Conf.new_remote conf = false.
Proof.
  intros opts. eexists. split; [reflexivity |].
  apply (proj2 (proj2 (constructor_local_or_remote
                         (Scenario.one_project "/home/acme/serverless")
                         (Scenario.node_version "v8.10.0") opts _ eq_refl)));
    discriminate.
Defined.

(** ** Resources by type *)

Section ResourcesByType.
Import Aws.
Context {W : Type}.

Lemma listStackResources_loop_sound (cloudformation : CloudFormation W)
    (filter : StackResourceSummary -> bool) (fuel : nat) :
  forall opts acc w res w',
    Utils.listStackResources_loop fuel cloudformation filter opts acc w
    = Returns res w' ->
    forall r, In r res ->
      In r acc \/
      (filter r = true /\ Spec.served cloudformation (lsr_StackName opts) r).
Proof.
  induction fuel as [|fuel IH]; intros opts acc w res w' Hrun r Hin; [discriminate |].
  simpl in Hrun. run.
  destruct (api_listStackResources cloudformation opts w) as [[out|e] w1] eqn:Hcall;
    [| discriminate].
  assert (Hnew : forall x,
             In x (acc ++ List.filter filter (StackResourceSummaries out)) ->
             In x acc \/
             (filter x = true /\ Spec.served cloudformation (lsr_StackName opts) x)).
  { intros x Hx. apply in_app_or in Hx as [Hx|Hx]; [now left | right].
    apply filter_In in Hx as [Hx Hf]. split; [exact Hf |].
    now exists opts, w, out, w1. }
  destruct (present (lsr_out_NextToken out)).
  - apply (IH _ _ _ _ _ Hrun) in Hin as [Hin|Hin]; [now apply Hnew | now right].
  - injection Hrun as <- <-. now apply Hnew.
Qed.

End ResourcesByType.

(** X13.  Whatever the CloudFormation client answers, the resources that
    [listStackResourcesByType] returns are of the type asked for, and each
    was on a page that the client served for this stack; the ids that
    [listStackResourceIdsByType] returns are the physical ids of such
    resources. *)
Theorem listStackResourcesByType_sound :
  forall (W : Type) (cloudformation : Aws.CloudFormation W) (fuel : nat)
         (type stackName : string) (w : W),
    (forall resources w',
        Utils.listStackResourcesByType fuel type cloudformation stackName w
        = Returns resources w' ->
        Forall (fun r => Aws.ResourceType r = type /\
                         Spec.served cloudformation stackName r) resources) /\
    (forall ids w',
        Utils.listStackResourceIdsByType fuel type cloudformation stackName w
        = Returns ids w' ->
        Forall (fun i => exists r, i = Aws.PhysicalResourceId r /\
                                   Aws.ResourceType r = type /\
                                   Spec.served cloudformation stackName r) ids).
Proof.
  intros W cloudformation fuel type stackName w.
  assert (Hsound : forall resources w',
             Utils.listStackResourcesByType fuel type cloudformation stackName w
             = Returns resources w' ->
             Forall (fun r => Aws.ResourceType r = type /\
                              Spec.served cloudformation stackName r) resources).
  { intros resources w' Hrun. apply List.Forall_forall. intros r Hin.
    unfold Utils.listStackResourcesByType, Utils.listStackResources in Hrun.
    destruct (listStackResources_loop_sound _ _ _ _ _ _ _ _ Hrun r Hin)
      as [[] | [Htype Hserved]].
    apply String.eqb_eq in Htype. now split. }
  split; [exact Hsound |].
  intros ids w' Hrun. unfold Utils.listStackResourceIdsByType in Hrun. run.
  destruct (Utils.listStackResourcesByType fuel type cloudformation stackName w)
    as [resources w1 | e w1 |] eqn:Hlist; try discriminate.
  injection Hrun as <- <-.
  apply List.Forall_forall. intros i Hin.
  apply in_map_iff in Hin as (r & <- & Hr).
  pose proof (Hsound resources w1 eq_refl) as Hall.
  rewrite List.Forall_forall in Hall. destruct (Hall r Hr) as [Htype Hserved].
  now exists r.
Qed.

Lemma listStackResourcesByType_sound_witness :
  Forall (fun r => Aws.ResourceType r = "AWS::S3::Bucket" /\
                   Spec.served
                     (Scenario.resource_pages
                        [Scenario.page_1; Scenario.page_2; Scenario.page_3])
                     "tdl-acme-ltd-dev" r)
         (Spec.collected_resources
            (fun r => String.eqb "AWS::S3::Bucket" (Aws.ResourceType r))
            [Scenario.page_1; Scenario.page_2; Scenario.page_3]).
Proof.
  apply (proj1 (listStackResourcesByType_sound _
                  (Scenario.resource_pages
                     [Scenario.page_1; Scenario.page_2; Scenario.page_3])
                  5 "AWS::S3::Bucket" "tdl-acme-ltd-dev" []) _
               [ {| Aws.lsr_StackName := "tdl-acme-ltd-dev"; Aws.lsr_NextToken := None |};
                 {| Aws.lsr_StackName := "tdl-acme-ltd-dev";
                    Aws.lsr_NextToken := Aws.lsr_out_NextToken Scenario.page_1 |};
                 {| Aws.lsr_StackName := "tdl-acme-ltd-dev";
                    Aws.lsr_NextToken := Aws.lsr_out_NextToken Scenario.page_2 |} ]).
  reflexivity.
Defined.

Section Tables.
Import Aws.

Lemma listStackResourcesByType_pages (type stackName : string)
    (todo : list ListStackResourcesOutput) (last : ListStackResourcesOutput)
    (fuel : nat) :
  Forall (fun p => present (lsr_out_NextToken p) = true) todo ->
  present (lsr_out_NextToken last) = false ->
  List.length todo < fuel ->
  Utils.listStackResourcesByType fuel type
    (Scenario.resource_pages (todo ++ [last])) stackName []
  = Returns (Spec.collected_resources
               (fun r => String.eqb type (ResourceType r)) (todo ++ [last]))
            ({| lsr_StackName := stackName; lsr_NextToken := None |}
               :: Spec.next_resource_requests stackName todo).
Proof.
  intros Htodo Hlast Hfuel.
  unfold Utils.listStackResourcesByType, Utils.listStackResources.
  exact (listStackResources_loop_pages _ last [] Hlast todo [] fuel _ [] []
           Htodo eq_refl Hfuel).
Qed.

Lemma collected_resources_none (filter : StackResourceSummary -> bool)
    (pages : list ListStackResourcesOutput) :
  Forall (fun p => Forall (fun r => filter r = false) (StackResourceSummaries p)) pages ->
  Spec.collected_resources filter pages = [].
Proof.
  unfold Spec.collected_resources.
  induction 1 as [|p pages Hp _ IH]; [reflexivity |].
  simpl. rewrite IH, app_nil_r.
  induction Hp as [|r rs Hr _ IHr]; [reflexivity |].
  simpl. now rewrite Hr.
Qed.

End Tables.

(** X14.  [listStackTables] and [listStackTableIds] do not ask for the same
    type: the first compares with "AWS::Dynamodb::Table", the second with
    "AWS::DynamoDB::Table".  Over pages on which no resource has the type
    spelt the first way, [listStackTables] returns nothing, while
    [listStackTableIds] returns the ids of the tables on these pages. *)
Theorem listStackTables_asks_another_type :
  forall (todo : list Aws.ListStackResourcesOutput)
         (last : Aws.ListStackResourcesOutput) (fuel : nat) (stackName : string),
    Forall (fun p => Aws.present (Aws.lsr_out_NextToken p) = true) todo ->
    Aws.present (Aws.lsr_out_NextToken last) = false ->
    List.length todo < fuel ->
    Forall (fun p => Forall (fun r => Aws.ResourceType r <> "AWS::Dynamodb::Table")
                            (Aws.StackResourceSummaries p)) (todo ++ [last]) ->
    exists requests,
      Utils.listStackTables fuel (Scenario.resource_pages (todo ++ [last])) stackName []
      = Returns [] requests /\
      Utils.listStackTableIds fuel (Scenario.resource_pages (todo ++ [last])) stackName []
      = Returns (List.map Aws.PhysicalResourceId
                   (Spec.collected_resources
                      (fun r => String.eqb "AWS::DynamoDB::Table" (Aws.ResourceType r))
                      (todo ++ [last])))
                requests.
Proof.
  intros todo last fuel stackName Htodo Hlast Hfuel Htypes.
  eexists. split.
  - unfold Utils.listStackTables.
    rewrite listStackResourcesByType_pages by assumption.
    rewrite collected_resources_none; [reflexivity |].
    eapply List.Forall_impl; [| exact Htypes]. intros p Hp.
    eapply List.Forall_impl; [| exact Hp]. intros r Hr.
    now apply String.eqb_neq.
  - unfold Utils.listStackTableIds, Utils.listStackResourceIdsByType. run.
    rewrite listStackResourcesByType_pages by assumption. reflexivity.
Qed.

Lemma listStackTables_asks_another_type_witness :
  exists requests,
    Utils.listStackTables 5
      (Scenario.resource_pages ([Scenario.page_1; Scenario.page_2] ++ [Scenario.page_3]))
      "tdl-acme-ltd-dev" []
    = Returns [] requests /\
    Utils.listStackTableIds 5
      (Scenario.resource_pages ([Scenario.page_1; Scenario.page_2] ++ [Scenario.page_3]))
      "tdl-acme-ltd-dev" []
    = Returns ["phys-Events"] requests.
Proof.
  apply (listStackTables_asks_another_type
           [Scenario.page_1; Scenario.page_2] Scenario.page_3 5 "tdl-acme-ltd-dev").
  - repeat constructor.
  - reflexivity.
  - simpl. lia.
  - repeat constructor; discriminate.
Defined.

(** ** Outputs of a stack *)

Section Outputs.
Import Aws.

Lemma output_type_names (key : string) :
  match Utils.output_type key with
  | Some type =>
      Spec.names_a_resource key = true /\
      ((type = "bucket" /\ Spec.ends_with key "Bucket") \/
       (type = "table" /\ Spec.ends_with key "Table") \/
       (type = "key" /\ Spec.ends_with key "Key"))
  | None => Spec.names_a_resource key = false
  end.
Proof.
  unfold Utils.output_type, Spec.names_a_resource.
  destruct (Js.endsWith key "Bucket") eqn:Hb;
    [split; [reflexivity | left; split; [reflexivity | now apply endsWith_spec]] |].
  destruct (Js.endsWith key "Table") eqn:Ht;
    [split; [reflexivity | right; left; split; [reflexivity | now apply endsWith_spec]] |].
  destruct (Js.endsWith key "Key") eqn:Hk;
    [split; [reflexivity | right; right; split; [reflexivity | now apply endsWith_spec]] |].
  reflexivity.
Qed.

Lemma output_resources (outputs : list Output) :
  Forall2 Spec.resource_of
    (List.filter (fun o => Spec.names_a_resource (OutputKey o)) outputs)
    (List.concat
       (List.map (fun o =>
                    match Utils.output_type (OutputKey o) with
                    | Some type => [ {| Utils.cr_type := type;
                                        Utils.cr_name := OutputKey o;
                                        Utils.cr_value := OutputValue o |} ]
                    | None => []
                    end) outputs)).
Proof.
  induction outputs as [|o outputs IH]; [constructor |].
  simpl. pose proof (output_type_names (OutputKey o)) as Hnames.
  destruct (Utils.output_type (OutputKey o)) as [type|].
  - destruct Hnames as [-> Htype]. simpl. constructor; [| exact IH].
    split; [reflexivity |]. split; [reflexivity | exact Htype].
  - rewrite Hnames. exact IH.
Qed.

End Outputs.

(** X15.  [listOutputResources] returns, in the order of the outputs of
    the first stack that [describeStacks] answers with, one resource for
    each output whose key ends in Bucket, Table or Key, and none for the
    others: the resource has the key as its name, the value of the output
    as its value, and bucket, table or key as its type, after the ending
    of the key.  Without a stack in the answer it throws a TypeError. *)
Theorem listOutputResources_by_ending :
  forall (W : Type) (stacks : Aws.StackOperations W) (stackId : string)
         (w w' : W) (answer : list Aws.Stack),
    Aws.api_describeStacks stacks stackId w = (Ok answer, w') ->
    match answer with
    | stack :: _ =>
        exists resources,
          Utils.listOutputResources stacks stackId w = Returns resources w' /\
          Forall2 Spec.resource_of
            (List.filter (fun o => Spec.names_a_resource (Aws.OutputKey o))
                         (Aws.Outputs stack))
            resources
    | [] =>
        exists message,
          Utils.listOutputResources stacks stackId w
          = Throws (new_TypeError message) w'
    end.
Proof.
  intros W stacks stackId w w' answer Hanswer.
  unfold Utils.listOutputResources, Utils.getStackOutputs, Utils.getStackInfo.
  run. rewrite Hanswer.
  destruct answer as [|stack others]; simpl.
  - now eexists.
  - eexists. split; [reflexivity |]. apply output_resources.
Qed.

Lemma listOutputResources_by_ending_witness :
  exists resources,
    Utils.listOutputResources (Scenario.scripted_stacks [Scenario.acme_stack])
      "tdl-acme-ltd-dev" tt
    = Returns resources tt /\
    Forall2 Spec.resource_of
      [Scenario.output "ObjectsBucket" "tdl-acme-ltd-dev-objects";
       Scenario.output "EventsTable" "tdl-acme-ltd-dev-events";
       Scenario.output "EncryptionKey" "key-1"]
      resources.
Proof.
  exact (listOutputResources_by_ending unit
           (Scenario.scripted_stacks [Scenario.acme_stack]) "tdl-acme-ltd-dev"
           tt tt [Scenario.acme_stack] eq_refl).
Defined.

Example listOutputResources_acme :
  Utils.listOutputResources (Scenario.scripted_stacks [Scenario.acme_stack])
    "tdl-acme-ltd-dev" tt
  = Returns [ {| Utils.cr_type := "bucket"; Utils.cr_name := "ObjectsBucket";
                 Utils.cr_value := "tdl-acme-ltd-dev-objects" |};
              {| Utils.cr_type := "table"; Utils.cr_name := "EventsTable";
                 Utils.cr_value := "tdl-acme-ltd-dev-events" |};
              {| Utils.cr_type := "key"; Utils.cr_name := "EncryptionKey";
                 Utils.cr_value := "key-1" |} ] tt.
Proof. reflexivity. Qed.

(** ** Creating and updating a stack *)

(** X16.  [createStackAndWait] and [updateStackAndWait] send the request,
    wait 5 seconds and then call the waiter for the stack named in the
    request, stackCreateComplete and stackUpdateComplete.  A request that
    fails throws its error and nothing more is done.  A waiter that fails
    throws a ServerError that points to the failed stacks of the region in
    the console, whatever the waiter's own error was. *)
Theorem stack_and_wait_steps :
  forall (W : Type) (T : Timers W) (cloudformation : Aws.CloudFormation W)
         (stacks : Aws.StackOperations W) (params : Aws.StackInput) (w : W),
    Spec.requests_then_waits (Aws.api_createStack stacks params) cloudformation
      "stackCreateComplete" (Aws.si_StackName params)
      (Utils.createStackAndWait cloudformation stacks params) w /\
    Spec.requests_then_waits (Aws.api_updateStack stacks params) cloudformation
      "stackUpdateComplete" (Aws.si_StackName params)
      (Utils.updateStackAndWait cloudformation stacks params) w.
Proof.
  intros W T cloudformation stacks params w.
  unfold Spec.requests_then_waits, Spec.failed_stacks_link,
    Utils.createStackAndWait, Utils.updateStackAndWait,
    Utils.createStack, Utils.updateStack,
    Utils.awaitStackCreate, Utils.awaitStackUpdate, Utils.waitFor,
    Utils.getConsoleLinkForStacksInRegion, Utils.wait.
  run. split.
  - destruct (Aws.api_createStack stacks params w) as [[[]|e] w1]; [| reflexivity].
    now destruct (Aws.api_waitFor cloudformation "stackCreateComplete"
                    (Aws.si_StackName params) (setTimeout 5000 w1)) as [[[]|e] w2].
  - destruct (Aws.api_updateStack stacks params w) as [[[]|e] w1]; [| reflexivity].
    now destruct (Aws.api_waitFor cloudformation "stackUpdateComplete"
                    (Aws.si_StackName params) (setTimeout 5000 w1)) as [[[]|e] w2].
Qed.

Example createStackAndWait_waiter_fails :
  @Utils.createStackAndWait _ Scenario.stack_timers
    (Scenario.logged_waiter "eu-west-1" (Some Scenario.waiter_timeout))
    (Scenario.logged_stacks None) Scenario.acme_params []
  = Throws
      (ServerError
         ("operation may have failed. Check your stacks here: "
          +:+ "https://eu-west-1.console.aws.amazon.com/cloudformation/home"
          +:+ "?region=eu-west-1#/stacks?filter=failed"))
      [Scenario.CreateStackCalled Scenario.acme_params;
       Scenario.Slept 5000;
       Scenario.Polled "stackCreateComplete" "tdl-acme-ltd-dev"].
Proof. reflexivity. Qed.

Example updateStackAndWait_request_fails :
  @Utils.updateStackAndWait _ Scenario.stack_timers
    (Scenario.logged_waiter "eu-west-1" None)
    (Scenario.logged_stacks (Some Scenario.access_denied)) Scenario.acme_params []
  = Throws (Scenario.error_of Scenario.access_denied)
           [Scenario.UpdateStackCalled Scenario.acme_params].
Proof. reflexivity. Qed.

(** ** The template of a stack *)

Section Templates.

Lemma trimStart_whitespace (ws rest : string) :
  Js.all_chars Utils.is_whitespace ws = true ->
  Utils.trimStart (ws +:+ rest) = Utils.trimStart rest.
Proof.
  induction ws as [|c ws IH]; intros Hws; [reflexivity |].
  simpl in Hws. apply andb_true_iff in Hws as [Hc Hws].
  rewrite app_cons. cbn [Utils.trimStart]. rewrite Hc. now apply IH.
Qed.

Lemma trim_first_char (c : ascii) (rest : string) :
  Utils.is_whitespace c = false ->
  exists rest', Utils.trim (String c rest) = String c rest'.
Proof.
  intros Hc. unfold Utils.trim. cbn [Utils.trimStart]. rewrite Hc.
  cbn [Utils.trimEnd]. rewrite Hc. now eexists.
Qed.

Lemma startsWith_char (c d : ascii) (rest : string) :
  Js.startsWith (String c rest) (String d "") = Ascii.eqb d c.
Proof. cbn [Js.startsWith]. now destruct (Ascii.eqb d c). Qed.

End Templates.

(** X17.  [getStackTemplate] chooses the parser by the first character of
    the body that is not white space: a body that begins, after white
    space, with "{" is given to [JSON.parse], any other body, and one that
    is white space only, to the YAML loader.  The parser is given the body
    as it came, white space included. *)
Theorem getStackTemplate_chooses_parser :
  forall (W : Type) (P : Platform) (cloudformation : Aws.CloudFormation W)
         (stackId : string) (w w' : W) (body : string),
    Aws.api_getTemplate cloudformation stackId w = (Ok body, w') ->
    (forall ws rest,
        Js.all_chars Utils.is_whitespace ws = true ->
        body = ws +:+ "{" +:+ rest ->
        Utils.getStackTemplate cloudformation stackId w = lift (JSON_parse body) w') /\
    (forall ws c rest,
        Js.all_chars Utils.is_whitespace ws = true ->
        Utils.is_whitespace c = false -> c <> "{"%char ->
        body = ws +:+ String c rest ->
        Utils.getStackTemplate cloudformation stackId w
        = lift (YAML_safeLoad body) w') /\
    (Js.all_chars Utils.is_whitespace body = true ->
     Utils.getStackTemplate cloudformation stackId w = lift (YAML_safeLoad body) w').
Proof.
  intros W P cloudformation stackId w w' body Hbody.
  assert (Hrun : Utils.getStackTemplate cloudformation stackId w
                 = if Js.startsWith (Utils.trim body) "{"
                   then lift (JSON_parse body) w'
                   else lift (YAML_safeLoad body) w').
  { unfold Utils.getStackTemplate, bind, call. rewrite Hbody.
    now destruct (Js.startsWith (Utils.trim body) "{"). }
  rewrite Hrun. split; [| split].
  - intros ws rest Hws ->. unfold Utils.trim.
    rewrite trimStart_whitespace by exact Hws.
    destruct (trim_first_char "{" rest eq_refl) as [rest' Hrest].
    unfold Utils.trim in Hrest. change ("{" +:+ rest) with (String "{" rest).
    now rewrite Hrest.
  - intros ws c rest Hws Hc Hne ->. unfold Utils.trim.
    rewrite trimStart_whitespace by exact Hws.
    destruct (trim_first_char c rest Hc) as [rest' Hrest].
    unfold Utils.trim in Hrest. rewrite Hrest, startsWith_char.
    destruct (Ascii.eqb_spec "{" c) as [<-|_]; [congruence | reflexivity].
  - intros Hws. unfold Utils.trim.
    rewrite <- (app_empty_r body), trimStart_whitespace by exact Hws.
    reflexivity.
Qed.

Lemma getStackTemplate_chooses_parser_witness :
  let body := String " " (String "010" "{ }") in
  Aws.api_getTemplate (Scenario.template_body body) "tdl-acme-ltd-dev" tt
  = (Ok body, tt) /\
  Js.all_chars Utils.is_whitespace (String " " (String "010" "")) = true /\
  @Utils.getStackTemplate unit Scenario.node (Scenario.template_body body)
    "tdl-acme-ltd-dev" tt
  = lift (@JSON_parse Scenario.node body) tt.
Proof.
  intros body. split; [reflexivity |]. split; [reflexivity |].
  apply (proj1 (getStackTemplate_chooses_parser unit Scenario.node
                  (Scenario.template_body body) "tdl-acme-ltd-dev" tt tt body eq_refl)
               (String " " (String "010" "")) " }");
    reflexivity.
Defined.

(** ** Unwrapping a return value *)

Section Unwrap.
Context `{Platform} {W : Type}.

Lemma depth_get (k : string) (cls : string) (props : list (string * value)) :
  truthy (get k props) = true ->
  Spec.depth (get k props) < Spec.depth (VObj cls props).
Proof.
  intros Htruthy. cbn [Spec.depth]. apply Nat.lt_succ_r.
  induction props as [|[k' x] props IH]; [discriminate |].
  simpl in *. destruct (String.eqb k k'); [lia |].
  specialize (IH Htruthy). lia.
Qed.

Lemma depth_result (ret : value) :
  truthy (prop "result" ret) = true ->
  Spec.depth (prop "result" ret) < Spec.depth ret.
Proof.
  destruct ret as [| | | | | |cls props]; try discriminate.
  apply depth_get.
Qed.

Lemma unwrapReturnValue_returns (fuel : nat) :
  forall (ret : value) (w : W),
    Spec.depth ret < fuel ->
    ret <> VUndefined -> ret <> VNull ->
    exists unwrapped n,
      Utils.unwrapReturnValue fuel ret w = Returns unwrapped w /\
      Spec.unwrapped_at ret n unwrapped.
Proof.
  induction fuel as [|fuel IH]; intros ret w Hdepth Hundefined Hnull; [lia |].
  cbn [Utils.unwrapReturnValue].
  assert (Hbody :
            exists unwrapped n,
              (if truthy (prop "error" ret) then
                 resolve (VObj "Object"
                            (set "error" (value_of (Utils.normalizeError (prop "error" ret)))
                                 (Utils.enumerable ret)))
               else if truthy (prop "result" ret)
                       && (truthy (prop "error" (prop "result" ret))
                           || truthy (prop "result" (prop "result" ret)))
               then Utils.unwrapReturnValue fuel (prop "result" ret)
               else resolve ret) w = Returns unwrapped w /\
              Spec.unwrapped_at ret n unwrapped).
  { unfold Spec.unwrapped_at, Spec.goes_deeper, Spec.is_envelope.
    destruct (truthy (prop "error" ret)) eqn:Herror.
    - eexists _, 0. split; [reflexivity |]. split; [lia |].
      cbn [Spec.results]. now rewrite Herror.
    - destruct (truthy (prop "result" ret)
                && (truthy (prop "error" (prop "result" ret))
                    || truthy (prop "result" (prop "result" ret)))) eqn:Hinner.
      + apply andb_true_iff in Hinner as [Hresult Hinner].
        pose proof (depth_result ret Hresult) as Hless.
        destruct (IH (prop "result" ret) w) as (unwrapped & n & Hrun & Hbefore & Hat).
        * lia.
        * intros Heq. rewrite Heq in Hresult. discriminate.
        * intros Heq. rewrite Heq in Hresult. discriminate.
        * exists unwrapped, (S n). split; [exact Hrun |]. split; [| exact Hat].
          intros [|i] Hi.
          -- cbn [Spec.results]. now rewrite Herror, Hresult, Hinner.
          -- apply Hbefore. lia.
      + exists ret, 0. split; [reflexivity |]. split; [lia |].
        cbn [Spec.results]. now rewrite Herror, Hinner. }
  destruct ret; try exact Hbody; congruence.
Qed.

(** There is one level at which a value stops going deeper, so a value
    unwraps to one value only. *)
Lemma unwrapped_at_unique (ret : value) (n n' : nat) (unwrapped unwrapped' : value) :
  Spec.unwrapped_at ret n unwrapped ->
  Spec.unwrapped_at ret n' unwrapped' ->
  n' = n /\ unwrapped' = unwrapped.
Proof.
  intros (Hbefore & Hstop & Hvalue) (Hbefore' & Hstop' & Hvalue').
  assert (Hn : n' = n).
  { destruct (Nat.lt_trichotomy n n') as [Hlt | [Heq | Hgt]]; [| now symmetry |].
    - rewrite (Hbefore' n Hlt) in Hstop. discriminate.
    - rewrite (Hbefore n' Hgt) in Hstop'. discriminate. }
  subst n'. split; [reflexivity |]. cbv zeta in Hvalue, Hvalue'. congruence.
Qed.

End Unwrap.

(** X18.  [unwrapReturnValue] returns for every value but [undefined] and
    [null], given fuel beyond the depth of the value, and changes nothing.
    It goes down through [result] as long as the value holds no error and
    its result is itself an envelope, and returns the value it stops at:
    with its error normalized when it holds one, as it is otherwise.
    There is one such value only. *)
Theorem unwrapReturnValue_unwraps :
  forall (P : Platform) (W : Type) (ret : value) (fuel : nat) (w : W),
    ret <> VUndefined -> ret <> VNull ->
    Spec.depth ret < fuel ->
    exists unwrapped n,
      Utils.unwrapReturnValue fuel ret w = Returns unwrapped w /\
      Spec.unwrapped_at ret n unwrapped /\
      (forall n' unwrapped',
          Spec.unwrapped_at ret n' unwrapped' -> n' = n /\ unwrapped' = unwrapped).
Proof.
  intros P W ret fuel w Hundefined Hnull Hdepth.
  destruct (unwrapReturnValue_returns fuel ret w Hdepth Hundefined Hnull)
    as (unwrapped & n & Hrun & Hat).
  exists unwrapped, n. split; [exact Hrun |]. split; [exact Hat |].
  intros n' unwrapped' Hat'. exact (unwrapped_at_unique ret n n' _ _ Hat Hat').
Qed.

Lemma unwrapReturnValue_unwraps_witness :
  let ret := VObj "Object" [("result", VObj "Object" [("result", VNum 1)])] in
  exists unwrapped n,
    @Utils.unwrapReturnValue Scenario.node unit 3 ret tt = Returns unwrapped tt /\
    @Spec.unwrapped_at Scenario.node ret n unwrapped /\
    (forall n' unwrapped',
        @Spec.unwrapped_at Scenario.node ret n' unwrapped' ->
        n' = n /\ unwrapped' = unwrapped).
Proof.
  intros ret.
  apply (unwrapReturnValue_unwraps Scenario.node unit ret 3 tt);
    [discriminate | discriminate | simpl; lia].
Defined.

Example unwrapReturnValue_plain_result :
  @Utils.unwrapReturnValue Scenario.node unit 2 (VObj "Object" [("result", VNum 5)]) tt
  = Returns (VObj "Object" [("result", VNum 5)]) tt /\
  ~ @Spec.unwrapped_at Scenario.node (VObj "Object" [("result", VNum 5)]) 1 (VNum 5).
Proof.
  split; [reflexivity |].
  intros (Hbefore & _). specialize (Hbefore 0 ltac:(lia)). discriminate.
Qed.

Example unwrapReturnValue_twice :
  @Utils.unwrapReturnValue Scenario.node unit 3
    (VObj "Object" [("result", VObj "Object" [("result", VNum 1)])]) tt
  = Returns (VObj "Object" [("result", VNum 1)]) tt.
Proof. reflexivity. Qed.

(** ** Running a command *)

Section Exec.
Context {W : Type} `{Platform} `{Prompts W} `{Shell W}.

Lemma exec_unfold (this : @Conf.t W) (arg0 : option value) (noWarning : bool) (w : W) :
  Conf.exec this arg0 noWarning w
  = match Spec.underlying this (Spec.cli arg0 noWarning) w with
    | Returns inner w' =>
        match inner with
        | VUndefined | VNull =>
            Throws (new_TypeError "Cannot destructure property 'error' of 'result'") w'
        | _ =>
            if truthy (prop "error" inner)
            then Throws (Utils.normalizeError (prop "error" inner)) w'
            else Returns (prop "result" inner) w'
        end
    | Throws e w' => Throws (Utils.normalizeError (value_of e)) w'
    | OutOfFuel => OutOfFuel
    end.
Proof.
  unfold Conf.exec, bind. fold (Spec.cli arg0 noWarning).
  rewrite invoke_unfold by reflexivity.
  destruct (Spec.underlying this (Spec.cli arg0 noWarning) w) as [inner w'|e w'|];
    [| reflexivity | reflexivity].
  cbn [Conf.error Conf.result default from_option id].
  destruct inner; try reflexivity;
    now destruct (truthy _).
Qed.

End Exec.

(** X19.  [exec] goes through two envelopes, that of [invoke] and that of
    the cli function.  It always ends.  It returns a value exactly when
    the invocation returned an object without an error, and the value is
    the [result] of that object.  An error of the invocation and an error
    that the cli function reports are both thrown, normalized. *)
Theorem exec_two_envelopes :
  forall (W : Type) (P : Platform) (Pr : Prompts W) (Sh : Shell W)
         (this : @Conf.t W) (arg0 : option value) (noWarning : bool) (w : W),
    Conf.exec this arg0 noWarning w <> OutOfFuel /\
    (forall v w',
        Conf.exec this arg0 noWarning w = Returns v w' <->
        exists inner,
          Spec.underlying this (Spec.cli arg0 noWarning) w = Returns inner w' /\
          inner <> VUndefined /\ inner <> VNull /\
          truthy (prop "error" inner) = false /\
          v = prop "result" inner) /\
    (forall e w',
        Spec.underlying this (Spec.cli arg0 noWarning) w = Throws e w' ->
        Conf.exec this arg0 noWarning w
        = Throws (Utils.normalizeError (value_of e)) w') /\
    (forall inner w',
        Spec.underlying this (Spec.cli arg0 noWarning) w = Returns inner w' ->
        truthy (prop "error" inner) = true ->
        Conf.exec this arg0 noWarning w
        = Throws (Utils.normalizeError (prop "error" inner)) w').
Proof.
  intros W P Pr Sh this arg0 noWarning w.
  rewrite exec_unfold.
  pose proof (underlying_ends this (Spec.cli arg0 noWarning) w) as Hends.
  destruct (Spec.underlying this (Spec.cli arg0 noWarning) w) as [inner w1|e w1|];
    [| | contradiction].
  - split; [| split; [| split]].
    + destruct inner; try discriminate; now destruct (truthy _).
    + intros v w'. split.
      * intros Hrun. exists inner.
        destruct inner; try discriminate;
          (destruct (truthy (prop "error" _)) eqn:Herror; [discriminate |]);
          injection Hrun as <- <-; repeat split; discriminate.
      * intros (inner' & [= <- <-] & Hundefined & Hnull & Herror & ->).
        rewrite Herror. destruct inner; congruence.
    + discriminate.
    + intros inner' w' [= <- <-] Herror. rewrite Herror.
      destruct inner; try reflexivity; discriminate.
  - split; [discriminate |]. split; [| split].
    + intros v w'. split; [discriminate | intros (inner & Hrun & _); discriminate].
    + now intros e' w' [= <- <-].
    + discriminate.
Qed.

Example exec_function_failed :
  @Conf.exec _ Scenario.node Scenario.confirming Scenario.no_emulator
    (Scenario.remote_conf (Ok Scenario.function_failed)) None true []
  = Throws (new_Error "Task timed out")
           [Scenario.LambdaInvoked
              {| Aws.InvocationType := "RequestResponse";
                 Aws.FunctionName := "tdl-acme-ltd-dev-cli";
                 Aws.req_Payload := "{}" |}].
Proof. reflexivity. Qed.

(** ** A dry run *)

Section DryRun.
Context {W : Type} `{Platform} `{ConfFiles W}.

Lemma getDeployItems_reads_namespace (this this' : @Conf.t W)
    (opts : gmap string value) :
  Conf.namespace this = Conf.namespace this' ->
  Conf.getDeployItems this opts = Conf.getDeployItems this' opts.
Proof. intros Hnamespace. unfold Conf.getDeployItems. now rewrite Hnamespace. Qed.

End DryRun.

(** X20.  With [dryRun] set, [deploy] collects the items and returns
    [undefined], or throws what collecting them throws, and invokes
    nothing: it is the same, from the same world, for any two
    configurations with the same namespace, whatever their Lambda client,
    their target, the prompt and the shell. *)
Theorem deploy_dry_run_invokes_nothing :
  forall (W : Type) (P : Platform) (F : ConfFiles W)
         (Pr Pr' : Prompts W) (Sh Sh' : Shell W)
         (this this' : @Conf.t W) (opts : gmap string value) (w : W),
    truthy (Conf.opt "dryRun" opts) = true ->
    Conf.namespace this = Conf.namespace this' ->
    @Conf.deploy W P Pr Sh F this opts w
    = match Conf.getDeployItems this opts w with
      | Returns _ w' => Returns VUndefined w'
      | Throws e w' => Throws e w'
      | OutOfFuel => OutOfFuel
      end /\
    @Conf.deploy W P Pr Sh F this opts w = @Conf.deploy W P Pr' Sh' F this' opts w.
Proof.
  intros W P F Pr Pr' Sh Sh' this this' opts w Hdry Hnamespace.
  assert (Hrun : forall (Pr0 : Prompts W) (Sh0 : Shell W) (conf : @Conf.t W),
             @Conf.deploy W P Pr0 Sh0 F conf opts w
             = match Conf.getDeployItems conf opts w with
               | Returns _ w' => Returns VUndefined w'
               | Throws e w' => Throws e w'
               | OutOfFuel => OutOfFuel
               end).
  { intros Pr0 Sh0 conf. unfold Conf.deploy, bind. rewrite Hdry.
    now destruct (Conf.getDeployItems conf opts w). }
  split; [apply Hrun |].
  rewrite !Hrun. now rewrite (getDeployItems_reads_namespace this this' opts Hnamespace).
Qed.

Lemma deploy_dry_run_invokes_nothing_witness :
  @Conf.deploy _ Scenario.node Scenario.declining Scenario.no_emulator
    Scenario.project_files (Scenario.remote_conf (Ok Scenario.function_failed))
    {[ "dryRun" := VBool true ]} []
  = @Conf.deploy _ Scenario.node Scenario.confirming
      (Scenario.scripted_shell (Ok {| output := "{}"; stderr := ""; code := 0 |}))
      Scenario.project_files Scenario.local_conf
      {[ "dryRun" := VBool true ]} [].
Proof.
  apply (deploy_dry_run_invokes_nothing _ Scenario.node Scenario.project_files
           Scenario.declining Scenario.confirming Scenario.no_emulator
           (Scenario.scripted_shell (Ok {| output := "{}"; stderr := ""; code := 0 |}))
           (Scenario.remote_conf (Ok Scenario.function_failed)) Scenario.local_conf
           {[ "dryRun" := VBool true ]} []);
    reflexivity.
Defined.

Example deploy_dry_run_reads_the_project :
  @Conf.deploy _ Scenario.node Scenario.declining Scenario.no_emulator
    Scenario.project_files (Scenario.remote_conf (Ok Scenario.function_failed))
    {[ "dryRun" := VBool true ]} []
  = Returns VUndefined
      [Scenario.FileRead "./conf/style.json";
       Scenario.FileRead "./conf/terms-and-conditions.md";
       Scenario.FileRead "./models"; Scenario.FileRead "./lenses";
       Scenario.FileRead "./conf/bot.json"].
Proof. vm_compute. reflexivity. Qed.

(** ** Updates *)

(** X22.  [requestUpdate] and [getUpdateInfo] are refused for a local
    configuration, and [requestUpdate] without a tag, with an InvalidInput
    error and before anything is invoked: the world is as it was.  What
    [getUpdateInfo] returns is what the cli function answered to
    [getupdateinfo --tag "<tag>"], and it holds an [update]. *)
Theorem updates_are_guarded :
  forall (W : Type) (P : Platform) (Pr : Prompts W) (Sh : Shell W)
         (this : @Conf.t W) (tag : string) (provider : option string) (w : W),
    Conf.requestUpdate this None provider w
    = Throws (InvalidInput ("expected string " +:+ Utils.quoted "tag")) w /\
    (Conf.this_local this = Some true ->
     (tag <> "" ->
      Conf.requestUpdate this (Some tag) provider w
      = Throws (InvalidInput "not supported for local dev env") w) /\
     Conf.getUpdateInfo this tag w
     = Throws (InvalidInput "not supported for local dev env") w) /\
    (forall info w',
        Conf.getUpdateInfo this tag w = Returns info w' ->
        Conf.this_local this <> Some true /\
        truthy (prop "update" info) = true /\
        Conf.exec this (Some (VStr ("getupdateinfo --tag " +:+ Utils.quoted tag))) true w
        = Returns info w').
Proof.
  intros W P Pr Sh this tag provider w. split; [reflexivity |]. split.
  - intros Hlocal. split.
    + intros Htag. unfold Conf.requestUpdate, Conf._ensureRemote.
      cbn [Aws.present]. apply String.eqb_neq in Htag. rewrite Htag, Hlocal.
      reflexivity.
    + unfold Conf.getUpdateInfo, Conf._ensureRemote. rewrite Hlocal. reflexivity.
  - intros info w' Hrun. unfold Conf.getUpdateInfo, Conf._ensureRemote in Hrun.
    destruct (Conf.this_local this) as [[|]|]; [discriminate | |].
    all: cbn [default from_option id andb] in Hrun.
    all: unfold bind at 1, resolve at 1 in Hrun; unfold bind in Hrun.
    all: destruct (Conf.exec this _ true w) as [result w1|e w1|]; try discriminate.
    all: split; [discriminate |].
    all: destruct result; try discriminate.
    all: destruct (truthy (prop "update" _)) eqn:Hupdate; try discriminate.
    all: injection Hrun as <- <-; now split.
Qed.

Lemma updates_are_guarded_witness :
  Conf.this_local Scenario.local_conf = Some true /\
  @Conf.getUpdateInfo _ Scenario.node Scenario.confirming Scenario.no_emulator
    Scenario.local_conf "1.2.0" []
  = Throws (InvalidInput "not supported for local dev env") [].
Proof.
  split; [reflexivity |].
  exact (proj2 (proj1 (proj2 (updates_are_guarded _ Scenario.node Scenario.confirming
                                Scenario.no_emulator Scenario.local_conf "1.2.0" None []))
                      eq_refl)).
Defined.

(** ** Profiles *)

Section ProfileLines.

Lemma line_terminator_is_space (c : ascii) :
  Js.is_line_terminator c = true -> Utils.is_whitespace c = true.
Proof.
  unfold Js.is_line_terminator, Utils.is_whitespace. intros Hc.
  apply orb_true_iff in Hc as [Hc|Hc]; apply Nat.eqb_eq in Hc; now rewrite Hc.
Qed.

Lemma no_space_one_line (s : string) :
  Spec.no_space s = true -> Spec.one_line s = true.
Proof.
  unfold Spec.no_space, Spec.one_line.
  induction s as [|c s IH]; [reflexivity |]. simpl.
  intros Hs. apply andb_true_iff in Hs as [Hc Hs]. rewrite IH by exact Hs.
  destruct (Js.is_line_terminator c) eqn:Hlt; [| reflexivity].
  apply line_terminator_is_space in Hlt. now rewrite Hlt in Hc.
Qed.

Lemma one_line_free (s : string) :
  Spec.one_line s = true -> Js.includes s Spec.LF = false.
Proof.
  unfold Spec.one_line, Spec.LF.
  induction s as [|c s IH]; [reflexivity |]. simpl Js.all_chars.
  intros Hs. apply andb_true_iff in Hs as [Hc Hs].
  rewrite includes_char_cons, IH by exact Hs.
  destruct (Ascii.eqb_spec "010" c) as [<-|_]; [discriminate | reflexivity].
Qed.

Lemma endsWith_last (s : string) (c d : ascii) :
  Js.endsWith (s +:+ String c "") (String d "") = Ascii.eqb c d.
Proof.
  unfold Js.endsWith. rewrite len_app.
  replace (Js.len s + Js.len (String c "") - Js.len (String d ""))%Z
    with (Js.len s) by (unfold Js.len; simpl; lia).
  pose proof (len_nonneg s) as Hlen.
  destruct (Z.ltb_spec (Js.len s) 0) as [Hneg|_]; [lia |].
  unfold Js.len. rewrite Nat2Z.id, drop_app. simpl.
  now destruct (Ascii.eqb c d).
Qed.

Lemma regex_capture_name (name : string) :
  Spec.one_line name = true ->
  Profiles.regex_capture (name +:+ "]") = Some name.
Proof.
  intros Hname. unfold Profiles.regex_capture.
  rewrite endsWith_last. change (Ascii.eqb "]" "]") with true. cbv iota.
  rewrite str_length_app. simpl String.length.
  replace (String.length name + 1 - 1) with (String.length name) by lia.
  rewrite take_app. fold (Spec.one_line name). now rewrite Hname.
Qed.

Lemma after_first_space_none (s rest : string) :
  Spec.no_space s = true ->
  Profiles.after_first_space (s +:+ rest) = Profiles.after_first_space rest.
Proof.
  unfold Spec.no_space. induction s as [|c s IH]; [reflexivity |].
  simpl Js.all_chars. intros Hs. apply andb_true_iff in Hs as [Hc Hs].
  rewrite app_cons. cbn [Profiles.after_first_space].
  apply negb_true_iff in Hc. rewrite Hc. now apply IH.
Qed.

Lemma getProfileName_profile (l : Spec.line) :
  Spec.well_formed l = true ->
  match l with
  | Spec.Profile name | Spec.Prefixed _ name =>
      Profiles.getProfileName (Spec.render l) = Ok name
  | Spec.Other _ => Js.startsWith (Spec.render l) "[" = false
  end.
Proof.
  destruct l as [name|prefix name|text]; simpl Spec.well_formed; intros Hl.
  - unfold Profiles.getProfileName, Spec.render.
    change ("[" +:+ name +:+ "]") with (String "[" (name +:+ "]")).
    cbn [Profiles.PROFILE_REGEX_match].
    rewrite after_first_space_none by exact Hl.
    cbn [Profiles.after_first_space]. change (Utils.is_whitespace "]") with false.
    cbv iota. cbn [Profiles.after_first_space].
    now rewrite regex_capture_name by now apply no_space_one_line.
  - apply andb_true_iff in Hl as [Hprefix Hname].
    unfold Profiles.getProfileName, Spec.render.
    change ("[" +:+ prefix +:+ " " +:+ name +:+ "]")
      with (String "[" (prefix +:+ String " " (name +:+ "]"))).
    cbn [Profiles.PROFILE_REGEX_match].
    rewrite after_first_space_none by exact Hprefix.
    cbn [Profiles.after_first_space]. change (Utils.is_whitespace " ") with true.
    cbv iota. now rewrite regex_capture_name by exact Hname.
  - apply andb_true_iff in Hl as [Hstart _]. now apply negb_true_iff in Hstart.
Qed.

Lemma render_free (l : Spec.line) :
  Spec.well_formed l = true -> Js.includes (Spec.render l) Spec.LF = false.
Proof.
  destruct l as [name|prefix name|text]; simpl Spec.well_formed; intros Hl.
  - unfold Spec.render, Spec.LF. rewrite !includes_char_app.
    fold Spec.LF. now rewrite (one_line_free name) by now apply no_space_one_line.
  - apply andb_true_iff in Hl as [Hprefix Hname].
    unfold Spec.render, Spec.LF. rewrite !includes_char_app. fold Spec.LF.
    rewrite (one_line_free prefix) by now apply no_space_one_line.
    now rewrite (one_line_free name) by exact Hname.
  - apply andb_true_iff in Hl as [_ Hfree]. now apply negb_true_iff in Hfree.
Qed.

Lemma split_join (c : ascii) (parts : list string) :
  parts <> [] ->
  Forall (fun part => Js.includes part (String c "") = false) parts ->
  Js.split (Js.join (String c "") parts) (String c "") = parts.
Proof.
  intros Hne Hparts. induction Hparts as [|part parts Hpart Hrest IH]; [congruence |].
  destruct parts as [|next parts].
  - unfold Js.join. simpl. now apply split_char_free.
  - unfold Js.join in *. cbn [String.concat].
    rewrite split_char_cons by exact Hpart. f_equal. apply IH. discriminate.
Qed.

Lemma parseConf_lines (lines : list Spec.line) :
  Forall (fun l => Spec.well_formed l = true) lines ->
  Profiles.getProfileNames
    (List.filter (fun s => Js.startsWith s "[") (List.map Spec.render lines))
  = Ok (Spec.profiles_of lines).
Proof.
  unfold Spec.profiles_of.
  induction 1 as [|l lines Hl _ IH]; [reflexivity |].
  pose proof (getProfileName_profile l Hl) as Hname.
  cbn [List.map List.filter List.concat].
  destruct l as [name|prefix name|text].
  - change (Js.startsWith (Spec.render (Spec.Profile name)) "[") with true.
    cbv iota. cbn [Profiles.getProfileNames]. now rewrite Hname, IH.
  - change (Js.startsWith (Spec.render (Spec.Prefixed prefix name)) "[") with true.
    cbv iota. cbn [Profiles.getProfileNames]. now rewrite Hname, IH.
  - rewrite Hname. exact IH.
Qed.

End ProfileLines.

(** X23.  [getProfiles] reads the profiles off the headers of the
    credentials file.  For a file of lines that are headers, "[name]" or
    "[word name]" with no white space in the name alone and in the word,
    or that do not begin with "[", it returns the names in the order of
    the file, with "default" put first when no header names it. *)
Theorem getProfiles_reads_headers :
  forall (F : CredentialsFile) (lines : list Spec.line),
    read_credentials = Ok (Js.join Spec.LF (List.map Spec.render lines)) ->
    Forall (fun l => Spec.well_formed l = true) lines ->
    Profiles.getProfiles
    = Ok (if Utils.Array_includes (Spec.profiles_of lines) "default"
          then Spec.profiles_of lines
          else "default" :: Spec.profiles_of lines).
Proof.
  intros F lines Hread Hlines. unfold Profiles.getProfiles. rewrite Hread.
  assert (Hparse : Profiles.parseConf (Js.join Spec.LF (List.map Spec.render lines))
                   = Ok (Spec.profiles_of lines)).
  { unfold Profiles.parseConf. destruct lines as [|l lines]; [reflexivity |].
    change (String (ascii_of_nat 10) "") with Spec.LF. unfold Spec.LF.
    rewrite split_join.
    - now apply parseConf_lines.
    - discriminate.
    - apply List.Forall_forall. intros part Hin.
      apply in_map_iff in Hin as (l' & <- & Hl').
      rewrite List.Forall_forall in Hlines. apply render_free. now apply Hlines. }
  rewrite Hparse. reflexivity.
Qed.

Lemma getProfiles_reads_headers_witness :
  let lines := [Spec.Profile "acme"; Spec.Other "aws_access_key_id = AKIA";
                Spec.Other ""; Spec.Prefixed "profile" "acme dev"] in
  @read_credentials
    (Scenario.credentials (Ok (Js.join Spec.LF (List.map Spec.render lines))))
  = Ok (Js.join Spec.LF (List.map Spec.render lines)) /\
  @Profiles.getProfiles
    (Scenario.credentials (Ok (Js.join Spec.LF (List.map Spec.render lines))))
  = Ok ["default"; "acme"; "acme dev"].
Proof.
  intros lines. split; [reflexivity |].
  apply (getProfiles_reads_headers
           (Scenario.credentials (Ok (Js.join Spec.LF (List.map Spec.render lines))))
           lines eq_refl).
  repeat constructor.
Defined.

(** X24.  Whatever the credentials file holds, the profiles that
    [getProfiles] returns include "default"; when the file cannot be read
    they are "default" alone. *)
Theorem getProfiles_has_default :
  forall (F : CredentialsFile),
    (forall profiles, Profiles.getProfiles = Ok profiles -> In "default" profiles) /\
    (forall err, read_credentials = Err err -> Profiles.getProfiles = Ok ["default"]).
Proof.
  intros F. unfold Profiles.getProfiles. split.
  - intros profiles.
    destruct read_credentials as [conf|err]; [| intros [= <-]; now left].
    destruct (Profiles.parseConf conf) as [names|e]; [| discriminate].
    destruct (Utils.Array_includes names "default") eqn:Hdefault; intros [= <-].
    + unfold Utils.Array_includes in Hdefault.
      apply existsb_exists in Hdefault as (name & Hin & Heq).
      apply String.eqb_eq in Heq. now subst.
    + now left.
  - now intros err ->.
Qed.

Lemma getProfiles_has_default_witness :
  @Profiles.getProfiles (Scenario.credentials (Err (new_Error "ENOENT")))
  = Ok ["default"].
Proof.
  exact (proj2 (getProfiles_has_default
                  (Scenario.credentials (Err (new_Error "ENOENT"))))
               (new_Error "ENOENT") eq_refl).
Defined.

(** X25.  A credentials file with Windows line ends makes [getProfiles]
    throw: a header followed by a carriage return begins with "[" and
    does not match the expression, which wants "]" at the end of the line,
    so there is no match to read the name from. *)
Theorem getProfiles_throws_on_crlf :
  forall (F : CredentialsFile) (name rest : string),
    Spec.no_space name = true ->
    read_credentials = Ok ("[" +:+ name +:+ "]" +:+ Spec.CR +:+ Spec.LF +:+ rest) ->
    Profiles.getProfiles = Err (new_TypeError "Cannot read property '1' of null").
Proof.
  intros F name rest Hname Hread. unfold Profiles.getProfiles. rewrite Hread.
  unfold Profiles.parseConf.
  change (String (ascii_of_nat 10) "") with (String "010" "").
  replace ("[" +:+ name +:+ "]" +:+ Spec.CR +:+ Spec.LF +:+ rest)
    with (("[" +:+ name +:+ "]" +:+ Spec.CR) +:+ String "010" "" +:+ rest)
    by (unfold Spec.LF; now rewrite !app_assoc_str).
  rewrite split_char_cons.
  2: { rewrite !includes_char_app.
       pose proof (one_line_free name (no_space_one_line name Hname)) as Hfree.
       unfold Spec.LF in Hfree. now rewrite Hfree. }
  change ("[" +:+ name +:+ "]" +:+ Spec.CR)
    with (String "[" (name +:+ "]" +:+ Spec.CR)).
  cbn [List.filter Js.startsWith]. change (Ascii.eqb "[" "[") with true. cbv iota.
  cbn [Profiles.getProfileNames].
  assert (Hno : Profiles.getProfileName (String "[" (name +:+ "]" +:+ Spec.CR))
                = Err (new_TypeError "Cannot read property '1' of null")).
  { unfold Profiles.getProfileName. cbn [Profiles.PROFILE_REGEX_match].
    rewrite after_first_space_none by exact Hname.
    assert (Hend : Profiles.regex_capture (name +:+ "]" +:+ Spec.CR) = None).
    { unfold Profiles.regex_capture.
      replace (name +:+ "]" +:+ Spec.CR) with ((name +:+ "]") +:+ String "013" "")
        by (unfold Spec.CR; now rewrite app_assoc_str).
      now rewrite endsWith_last. }
    rewrite Hend. reflexivity. }
  now rewrite Hno.
Qed.

Lemma getProfiles_throws_on_crlf_witness :
  @Profiles.getProfiles
    (Scenario.credentials
       (Ok ("[" +:+ "default" +:+ "]" +:+ Spec.CR +:+ Spec.LF
            +:+ "aws_access_key_id = AKIA")))
  = Err (new_TypeError "Cannot read property '1' of null").
Proof.
  apply (getProfiles_throws_on_crlf
           (Scenario.credentials
              (Ok ("[" +:+ "default" +:+ "]" +:+ Spec.CR +:+ Spec.LF
                   +:+ "aws_access_key_id = AKIA")))
           "default" "aws_access_key_id = AKIA"); reflexivity.
Defined.

(** ** Deleting a stack and waiting *)

Section DeleteAndWait.
Variable responses : nat -> option Scenario.AWSError.
Variable params : Aws.DeleteStackInput.

Lemma deleteStack_loop_endless :
  (forall i, exists e, responses i = Some e /\ Spec.conflict e) ->
  forall (fuel : nat) (log : list Scenario.event),
    @Utils.deleteStack_loop _ Scenario.logged_timers fuel
      (Scenario.scripted_delete responses) params log
    = OutOfFuel.
Proof.
  intros Halways. induction fuel as [|fuel IH]; intros log; [reflexivity |].
  destruct (Halways (Scenario.delete_calls log)) as (e & He & Hconflict).
  rewrite (deleteStack_loop_conflict responses params fuel log e He Hconflict).
  apply IH.
Qed.

End DeleteAndWait.

(** X26.  [deleteStackAndWait] deletes and then waits: when the first [k]
    delete calls are answered with the conflict and the next with
    success, it makes these [k + 1] calls, 5 seconds apart, waits 5
    seconds more, calls the waiter stackDeleteComplete for the stack, and
    returns.  It never gives up: as long as the answer is the conflict it
    calls again, so when every answer is the conflict no amount of fuel
    lets it end. *)
Theorem deleteStackAndWait_never_gives_up :
  forall (responses : nat -> option Scenario.AWSError) (params : Aws.DeleteStackInput),
    (forall k fuel,
        (forall i, i < k -> exists e, responses i = Some e /\ Spec.conflict e) ->
        responses k = None -> k < fuel ->
        @Utils.deleteStackAndWait _ Scenario.logged_timers fuel
          (Scenario.scripted_delete responses) params []
        = Returns tt
            (Spec.attempts k params
             ++ [Scenario.DeleteStackCalled params; Scenario.TimeoutSet 5000;
                 Scenario.WaitForCalled "stackDeleteComplete"
                                        (Aws.ds_StackName params)])) /\
    ((forall i, exists e, responses i = Some e /\ Spec.conflict e) ->
     forall fuel,
       @Utils.deleteStackAndWait _ Scenario.logged_timers fuel
         (Scenario.scripted_delete responses) params []
       = OutOfFuel).
Proof.
  intros responses params. split.
  - intros k fuel Hk Hok Hfuel.
    replace fuel with (k + S (fuel - S k)) by lia.
    unfold Utils.deleteStackAndWait, Utils.deleteStack, bind.
    rewrite (deleteStack_loop_retries responses params k) by exact Hk.
    rewrite deleteStack_loop_success.
    + unfold resolve, Utils.wait, Utils.awaitStackDelete, Utils.waitFor,
        try_catch, call. simpl. now rewrite <- !app_assoc.
    + simpl. now rewrite delete_calls_attempts.
  - intros Halways fuel.
    unfold Utils.deleteStackAndWait, Utils.deleteStack, bind.
    now rewrite deleteStack_loop_endless.
Qed.

Lemma deleteStackAndWait_never_gives_up_witness :
  @Utils.deleteStackAndWait _ Scenario.logged_timers 5
    (Scenario.scripted_delete Scenario.conflict_twice) Scenario.acme []
  = Returns tt
      (Spec.attempts 2 Scenario.acme
       ++ [Scenario.DeleteStackCalled Scenario.acme; Scenario.TimeoutSet 5000;
           Scenario.WaitForCalled "stackDeleteComplete" "tdl-acme-ltd-dev"]) /\
  @Utils.deleteStackAndWait _ Scenario.logged_timers 7
    (Scenario.scripted_delete (fun _ => Some Scenario.cleanup_conflict))
    Scenario.acme []
  = OutOfFuel.
Proof.
  split.
  - apply (proj1 (deleteStackAndWait_never_gives_up Scenario.conflict_twice
                    Scenario.acme) 2 5).
    + intros i Hi. exists Scenario.cleanup_conflict.
      destruct i as [|[|i]]; [now split | now split | lia].
    + reflexivity.
    + lia.
  - apply (proj2 (deleteStackAndWait_never_gives_up
                    (fun _ => Some Scenario.cleanup_conflict) Scenario.acme)).
    intros i. exists Scenario.cleanup_conflict. now split.
Defined.

(** ** The endpoint of a stack *)

Section Endpoint.
Import Aws.

Lemma find_first {A} (p : A -> bool) (before after : list A) (x : A) :
  Forall (fun y => p y = false) before -> p x = true ->
  List.find p (before ++ x :: after) = Some x.
Proof.
  induction 1 as [|y before Hy _ IH]; intros Hx; simpl.
  - now rewrite Hx.
  - rewrite Hy. now apply IH.
Qed.

Lemma find_none {A} (p : A -> bool) (xs : list A) :
  Forall (fun y => p y = false) xs -> List.find p xs = None.
Proof.
  induction 1 as [|y xs Hy _ IH]; [reflexivity |]. simpl. now rewrite Hy.
Qed.

End Endpoint.

(** X27.  [getApiBaseUrl] returns the value of the first output, of the
    first stack in the answer of [describeStacks], whose key begins with
    ServiceEndpoint.  When no output has such a key it throws a TypeError,
    as it does when the answer holds no stack. *)
Theorem getApiBaseUrl_first_endpoint :
  forall (W : Type) (stacks : Aws.StackOperations W) (StackName : string)
         (w w' : W) (stack : Aws.Stack) (others : list Aws.Stack),
    Aws.api_describeStacks stacks StackName w = (Ok (stack :: others), w') ->
    (forall before endpoint after,
        Aws.Outputs stack = before ++ endpoint :: after ->
        Forall (fun o => ~ Spec.begins_with (Aws.OutputKey o) "ServiceEndpoint") before ->
        Spec.begins_with (Aws.OutputKey endpoint) "ServiceEndpoint" ->
        Utils.getApiBaseUrl stacks StackName w
        = Returns (Aws.OutputValue endpoint) w') /\
    (Forall (fun o => ~ Spec.begins_with (Aws.OutputKey o) "ServiceEndpoint")
            (Aws.Outputs stack) ->
     Utils.getApiBaseUrl stacks StackName w
     = Throws (new_TypeError "Cannot read property 'OutputValue' of undefined") w').
Proof.
  intros W stacks StackName w w' stack others Hanswer.
  assert (Hnot : forall outputs,
             Forall (fun o => ~ Spec.begins_with (Aws.OutputKey o) "ServiceEndpoint")
                    outputs ->
             Forall (fun o => Js.startsWith (Aws.OutputKey o) "ServiceEndpoint" = false)
                    outputs).
  { intros outputs Hall. eapply List.Forall_impl; [| exact Hall].
    intros o Ho. apply not_true_is_false. intros Hstart. apply Ho.
    now apply startsWith_spec. }
  unfold Utils.getApiBaseUrl, bind, call. rewrite Hanswer. cbn [List.head].
  split.
  - intros before endpoint after -> Hbefore Hendpoint.
    rewrite (find_first _ before after endpoint); [reflexivity | now apply Hnot |].
    now apply startsWith_spec.
  - intros Hnone. now rewrite find_none by now apply Hnot.
Qed.

Lemma getApiBaseUrl_first_endpoint_witness :
  Utils.getApiBaseUrl (Scenario.scripted_stacks [Scenario.acme_stack])
    "tdl-acme-ltd-dev" tt
  = Returns "https://api.acme.example/dev" tt.
Proof.
  apply (proj1 (getApiBaseUrl_first_endpoint unit
                  (Scenario.scripted_stacks [Scenario.acme_stack]) "tdl-acme-ltd-dev"
                  tt tt Scenario.acme_stack [] eq_refl)
               [] (Scenario.output "ServiceEndpoint" "https://api.acme.example/dev")
               [Scenario.output "ObjectsBucket" "tdl-acme-ltd-dev-objects";
                Scenario.output "StackName" "tdl-acme-ltd-dev";
                Scenario.output "EventsTable" "tdl-acme-ltd-dev-events";
                Scenario.output "EncryptionKey" "key-1"]).
  - reflexivity.
  - constructor.
  - now exists "".
Defined.

(** ** Commands *)

(** X28.  Every command that is remote only is a safe remote command, and
    [load] is the one safe remote command that is not remote only. *)
Theorem remote_only_commands_are_safe :
  forall commandName : string,
    (Utils.isRemoteOnlyCommand commandName = true ->
     Utils.isSafeRemoteCommand commandName = true) /\
    (Utils.isSafeRemoteCommand commandName = true ->
     Utils.isRemoteOnlyCommand commandName = false ->
     commandName = "load").
Proof.
  intros commandName.
  unfold Utils.isRemoteOnlyCommand, Utils.isSafeRemoteCommand, Utils.Array_includes,
    Constants.REMOTE_ONLY_COMMANDS, Constants.SAFE_REMOTE_COMMANDS.
  cbn [existsb].
  destruct (String.eqb commandName "log"); [split; [reflexivity | discriminate] |].
  destruct (String.eqb commandName "tail"); [split; [reflexivity | discriminate] |].
  destruct (String.eqb commandName "update"); [split; [reflexivity | discriminate] |].
  destruct (String.eqb commandName "list-previous-versions");
    [split; [reflexivity | discriminate] |].
  cbn [orb]. destruct (String.eqb_spec commandName "load") as [->|_].
  - now split.
  - split; discriminate.
Qed.

(** ** Instances *)

Lemma splitCamelCase_cuts_at_capitals_witness :
  "myCloudStackName" <> "" /\
  Forall (fun part => part <> "") (Utils.splitCamelCase "myCloudStackName").
Proof.
  assert (Hne : "myCloudStackName" <> "") by discriminate.
  split; [exact Hne |].
  exact (proj2 (proj2 (proj2 (splitCamelCase_cuts_at_capitals "myCloudStackName"))) Hne).
Defined.

Lemma exec_two_envelopes_witness :
  @Spec.underlying _ Scenario.node Scenario.confirming Scenario.no_emulator
    (Scenario.remote_conf (Ok Scenario.function_failed)) (Spec.cli None true) []
  = Throws (new_Error "Task timed out")
           [Scenario.LambdaInvoked
              {| Aws.InvocationType := "RequestResponse";
                 Aws.FunctionName := "tdl-acme-ltd-dev-cli";
                 Aws.req_Payload := "{}" |}] /\
  @Conf.exec _ Scenario.node Scenario.confirming Scenario.no_emulator
    (Scenario.remote_conf (Ok Scenario.function_failed)) None true []
  = Throws (@Utils.normalizeError Scenario.node (value_of (new_Error "Task timed out")))
           [Scenario.LambdaInvoked
              {| Aws.InvocationType := "RequestResponse";
                 Aws.FunctionName := "tdl-acme-ltd-dev-cli";
                 Aws.req_Payload := "{}" |}].
Proof.
  assert (Hthrows :
            @Spec.underlying _ Scenario.node Scenario.confirming Scenario.no_emulator
              (Scenario.remote_conf (Ok Scenario.function_failed)) (Spec.cli None true) []
            = Throws (new_Error "Task timed out")
                     [Scenario.LambdaInvoked
                        {| Aws.InvocationType := "RequestResponse";
                           Aws.FunctionName := "tdl-acme-ltd-dev-cli";
                           Aws.req_Payload := "{}" |}]) by reflexivity.
  split; [exact Hthrows |].
  exact (proj1 (proj2 (proj2 (exec_two_envelopes _ Scenario.node Scenario.confirming
                                Scenario.no_emulator
                                (Scenario.remote_conf (Ok Scenario.function_failed))
                                None true [])))
               _ _ Hthrows).
Defined.

Lemma remote_only_commands_are_safe_witness :
  Utils.isRemoteOnlyCommand "tail" = true /\ Utils.isSafeRemoteCommand "tail" = true.
Proof.
  assert (Hremote : Utils.isRemoteOnlyCommand "tail" = true) by reflexivity.
  split; [exact Hremote |].
  exact (proj1 (remote_only_commands_are_safe "tail") Hremote).
Defined.
